(** * LeafCalc: leaf-area estimation and image preprocessing

    A shallow embedding of [src/LeafCalc/inst/LeafCalc.py], class
    [EstimateLeafArea], single-file branches of [estimate] (lines 64-121)
    and [preprocess] (lines 145-197), the dispatch on the kind of path and
    the sub-command [preprocess] of the command line.

    Conventions of the embedding.
    - Python integers are [Z].  Python truthiness of an integer is
      "non-zero", of a string "non-empty".
    - An image as returned by [cv2.imread] is a list of rows of BGR
      pixels; a grayscale image, a binary mask and a label map are lists
      of rows of integers.
    - A float64 is an exact rational, an infinity or nan.  The range of
      the format is modelled: the result of an operation becomes an
      infinity from the magnitude 2^1024 - 2^970 on and zero up to the
      magnitude 2^-1075, and a Python integer of the former magnitude does
      not convert to a float (OverflowError).  Rounding to 53 bits within
      the range is not modelled.
    - A written image file holds the array handed to the encoder; what a
      lossy format gives back on decoding is not modelled, and no property
      reads a written file back.
    - The object's attributes ([self.*]) and the file system are threaded
      explicitly through a state-and-exception monad: an exception leaves
      the state as it was when it was raised.
    - The collaborators that live outside the repository and whose exact
      output is not fixed by it (connected-component labelling, luma
      conversion, tilde expansion, the encoders of the OpenCV build) are
      the fields of [Collaborators].
    - The directory branches, which hand the files to a pool of worker
      processes, are a parameter of the dispatch. *)

From Stdlib Require Import ZArith QArith Qpower Qabs List Sorted String Ascii Bool Lia Lqa.
From stdpp Require Import gmap strings.
Import ListNotations.

Local Open Scope string_scope.
Local Open Scope Z_scope.
Local Open Scope list_scope.

(** ** Paths ([posixpath]) *)

Module Path.

Definition is_sep (c : ascii) : bool := Ascii.eqb c "/"%char.
Definition is_dot (c : ascii) : bool := Ascii.eqb c "."%char.

(** Longest prefix on which [p] holds, and the rest. *)
Fixpoint span {A} (p : A -> bool) (l : list A) : list A * list A :=
  match l with
  | [] => ([], [])
  | x :: r => if p x then let '(a, b) := span p r in (x :: a, b) else ([], l)
  end.

Fixpoint dropwhile {A} (p : A -> bool) (l : list A) : list A :=
  match l with
  | [] => []
  | x :: r => if p x then dropwhile p r else l
  end.

(** [os.path.split]: the tail is what follows the last slash; the head is
    what precedes it, with its trailing slashes removed unless it consists
    of slashes only. *)
Definition split (p : string) : string * string :=
  let r := rev (list_ascii_of_string p) in
  let '(tail_r, head_r) := span (fun c => negb (is_sep c)) r in
  let stripped := dropwhile is_sep head_r in
  let head := match stripped with [] => head_r | _ => stripped end in
  (string_of_list_ascii (rev head), string_of_list_ascii (rev tail_r)).

Definition basename (p : string) : string := snd (split p).

Definition startswith_sep (p : string) : bool :=
  match p with String c _ => is_sep c | EmptyString => false end.

Definition endswith_sep (p : string) : bool :=
  match rev (list_ascii_of_string p) with c :: _ => is_sep c | [] => false end.

(** [os.path.join a b]. *)
Definition join (a b : string) : string :=
  if startswith_sep b then b
  else if (String.eqb a EmptyString || endswith_sep a)%bool then a +:+ b
  else a +:+ "/" +:+ b.

(** [os.path.splitext]: the extension starts at the last dot, provided that
    dot follows the last slash and some character other than a dot stands
    between that slash and the dot. *)
Definition splitext (p : string) : string * string :=
  let r := rev (list_ascii_of_string p) in
  let '(ext_r, rest) := span (fun c => negb (is_dot c)) r in
  match rest with
  | [] => (p, EmptyString)
  | dot :: before_r =>
      let name_r := fst (span (fun c => negb (is_sep c)) before_r) in
      if (forallb (fun c => negb (is_sep c)) ext_r
          && existsb (fun c => negb (is_dot c)) name_r)%bool
      then (string_of_list_ascii (rev before_r),
            string_of_list_ascii (dot :: rev ext_r))
      else (p, EmptyString)
  end.

End Path.

(** ** Data model *)

(** A BGR pixel as [cv2.imread] delivers it: three unsigned 8-bit samples. *)
Record pixel := BGR { blue : Z; green : Z; red : Z }.

Abbreviation image := (list (list pixel)).
Abbreviation gray_image := (list (list Z)).

(** [scan.shape] restricted to rows and columns. *)
Definition shape {A} (scan : list (list A)) : Z * Z :=
  (Z.of_nat (length scan), Z.of_nat (length (hd [] scan))).

(** A float64 value: finite values are exact rationals. *)
Inductive float64 :=
| Finite (q : Q)
| PosInf
| NegInf
| NaN.

(** What a file holds: whether it has an EXIF block, the two resolution
    tags of that block when they are present and, when the codec can
    decode it, the image. *)
Record file := File {
  has_exif : bool;
  x_resolution : option Q;
  y_resolution : option Q;
  pixels : option image
}.

Inductive node :=
| Directory
| Regular (f : file).

Abbreviation filesystem := (gmap string node).

Definition isfile (fs : filesystem) (p : string) : bool :=
  match fs !! p with Some (Regular _) => true | _ => false end.

Definition isdir (fs : filesystem) (p : string) : bool :=
  match fs !! p with Some Directory => true | _ => false end.

(** The attributes set by [EstimateLeafArea.__init__] (lines 40-52).
    [res] holds either the integer given by the caller or the resolution
    tag of the metadata, a float, hence a rational; a rational of a
    magnitude beyond the floats stands for an integer. *)
Record Config := {
  red_scale : Z;
  red_scale_pixels : Z;
  mask_pixels : Z;
  mask_scale : Z;
  mask_offset_y : Z;
  mask_offset_x : Z;
  threshold : Z;
  cut_off : Z;
  output_dir : string;
  crop : Z;
  combine : bool;
  res : Q;
  workers : Z
}.

Definition set_res (r : Q) (c : Config) : Config :=
  {| red_scale := red_scale c; red_scale_pixels := red_scale_pixels c;
     mask_pixels := mask_pixels c; mask_scale := mask_scale c;
     mask_offset_y := mask_offset_y c; mask_offset_x := mask_offset_x c;
     threshold := threshold c; cut_off := cut_off c;
     output_dir := output_dir c; crop := crop c; combine := combine c;
     res := r; workers := workers c |}.

Definition set_combine (b : bool) (c : Config) : Config :=
  {| red_scale := red_scale c; red_scale_pixels := red_scale_pixels c;
     mask_pixels := mask_pixels c; mask_scale := mask_scale c;
     mask_offset_y := mask_offset_y c; mask_offset_x := mask_offset_x c;
     threshold := threshold c; cut_off := cut_off c;
     output_dir := output_dir c; crop := crop c; combine := b;
     res := res c; workers := workers c |}.

(** The failures of the specification's taxonomy, followed by the
    exceptions that come out of the libraries: [open] on a missing file,
    [os.makedirs] on an existing path, an OpenCV assertion or a missing
    encoder, an attribute looked up on [None] or a tag missing from the
    metadata, an integer too large for a float. *)
Inductive error :=
| InvalidInputPath
| MissingMetadata
| AnisotropicResolution
| InvalidThreshold
| InvalidCutoff
| InvalidResolution
| NegativeCrop
| CropExceedsBounds
| NegativeMaskParameter
| MaskExceedsBounds
| ScaleBarExceedsBounds
| IdenticalSourceDestination
| OutputDirectoryExists
| OSError
| FileExistsError
| Cv2Error
| AttributeError
| OverflowError.

Inductive result (A : Type) :=
| Ok (a : A)
| Raise (e : error).
Arguments Ok {A} a.
Arguments Raise {A} e.

(** The collaborators outside the repository. *)
Record Collaborators := Lib {
  (** [skimage.measure.label(mask, background=0)] *)
  measure_label : gray_image -> gray_image;
  (** [cv2.cvtColor(_, cv2.COLOR_BGR2GRAY)], per pixel *)
  luma : pixel -> Z;
  (** [os.path.expanduser] *)
  expanduser : string -> string;
  (** the extensions, besides [jpg], under which the build of OpenCV at
      hand registers an encoder that takes an 8-bit image of the given
      number of channels *)
  encoders : Z -> list string
}.

(** ** State and exceptions *)

Record state := State { self : Config; disk : filesystem }.

Definition M (A : Type) : Type := state -> result A * state.

#[export] Instance M_ret : MRet M := fun A a st => (Ok a, st).
#[export] Instance M_bind : MBind M := fun A B f m st =>
  match m st with
  | (Ok a, st') => f a st'
  | (Raise e, st') => (Raise e, st')
  end.

Definition raise {A} (e : error) : M A := fun st => (Raise e, st).
Definition get_self : M Config := fun st => (Ok (self st), st).
Definition get_disk : M filesystem := fun st => (Ok (disk st), st).
Definition put_self (c : Config) : M unit :=
  fun st => (Ok tt, State c (disk st)).
Definition put_disk (d : filesystem) : M unit :=
  fun st => (Ok tt, State (self st) d).

(** [if cond: raise e] *)
Definition raise_if (cond : bool) (e : error) : M unit :=
  if cond then raise e else mret tt.

(** [if cond: body] *)
Definition when (cond : bool) (body : M unit) : M unit :=
  if cond then body else mret tt.

(** A computation that does not touch the state. *)
Definition lift {A} (r : result A) : M A := fun st => (r, st).

(** ** Floats ([float] of Python, [float64] of numpy) *)

Module Float64.

(** The least magnitude that rounds to an infinity, 2^1024 - 2^970, and
    the greatest magnitude that rounds to zero, 2^-1075. *)
Definition huge : Q := inject_Z (2 ^ 1024 - 2 ^ 970).
Definition tiny : Q := / inject_Z (2 ^ 1075).

Definition infinity (positive : bool) : float64 :=
  if positive then PosInf else NegInf.

(** The float an exact sum becomes: an infinity when it leaves the range. *)
Definition overflow (q : Q) : float64 :=
  if Qle_bool huge (Qabs q) then infinity (Qle_bool 0 q) else Finite q.

(** The float an exact product or quotient becomes: zero when it is too
    small, an infinity when it is too large.  The sign of a zero is not
    kept. *)
Definition round (q : Q) : float64 :=
  if Qle_bool (Qabs q) tiny then Finite 0 else overflow q.

(** The float operand Python makes of a number in [n / 2.54]: a float is
    taken as it is, an integer is converted, which fails from the magnitude
    [huge] on. *)
Definition of_number (n : Q) : result float64 :=
  if Qle_bool huge (Qabs n) then Raise OverflowError else Ok (Finite n).

(** [a / d] for a float constant [d] greater than zero. *)
Definition div (a : float64) (d : Q) : float64 :=
  match a with
  | Finite x => round (x / d)
  | _ => a
  end.

(** [a * b] *)
Definition mul (a b : float64) : float64 :=
  match a, b with
  | Finite x, Finite y => round (x * y)
  | Finite x, PosInf => if Qeq_bool x 0 then NaN else infinity (Qle_bool 0 x)
  | Finite x, NegInf => if Qeq_bool x 0 then NaN else infinity (negb (Qle_bool 0 x))
  | PosInf, Finite y => if Qeq_bool y 0 then NaN else infinity (Qle_bool 0 y)
  | NegInf, Finite y => if Qeq_bool y 0 then NaN else infinity (negb (Qle_bool 0 y))
  | PosInf, PosInf => PosInf
  | NegInf, NegInf => PosInf
  | PosInf, NegInf => NegInf
  | NegInf, PosInf => NegInf
  | NaN, _ => NaN
  | _, NaN => NaN
  end.

End Float64.

(** ** Arrays ([numpy]) *)

Module Np.

(** A slice bound [i] of a sequence of length [len], as Python normalises
    it: negative bounds count from the end, and both ends are clipped. *)
Definition clip (len i : Z) : Z :=
  if i <? 0 then Z.max 0 (i + len) else Z.min i len.

(** [l[start:stop]] *)
Definition slice {A} (start stop : Z) (l : list A) : list A :=
  let len := Z.of_nat (length l) in
  let lo := clip len start in
  let hi := clip len stop in
  firstn (Z.to_nat (hi - lo)) (skipn (Z.to_nat lo) l).

(** [scan[y0:y1, x0:x1]] *)
Definition slice2 {A} (y0 y1 x0 x1 : Z) (scan : list (list A)) : list (list A) :=
  map (slice x0 x1) (slice y0 y1 scan).

Fixpoint mapi_from {A} (i : Z) (f : Z -> A -> A) (l : list A) : list A :=
  match l with
  | [] => []
  | x :: r => f i x :: mapi_from (i + 1) f r
  end.

(** [l[start:stop] = ...], elementwise: [f] is applied to the elements the
    slice selects, the others are kept. *)
Definition assign {A} (start stop : Z) (f : A -> A) (l : list A) : list A :=
  let len := Z.of_nat (length l) in
  let lo := clip len start in
  let hi := clip len stop in
  mapi_from 0 (fun i x => if (lo <=? i) && (i <? hi) then f x else x) l.

(** [scan[y0:y1, x0:x1, ch] = v], with [f] storing [v] in channel [ch]. *)
Definition assign2 {A} (y0 y1 x0 x1 : Z) (f : A -> A) (scan : list (list A))
  : list (list A) :=
  assign y0 y1 (assign x0 x1 f) scan.

(** One more occurrence of [v] in a table of values in ascending order with
    their counts. *)
Fixpoint tally (v : Z) (t : list (Z * Z)) : list (Z * Z) :=
  match t with
  | [] => [(v, 1)]
  | (u, c) :: r =>
      if v <? u then (v, 1) :: t
      else if v =? u then (u, c + 1) :: r
      else (u, c) :: tally v r
  end.

Definition tally_all (l : list Z) : list (Z * Z) :=
  fold_left (fun t v => tally v t) l [].

(** [np.unique(a, return_counts=True)]: the distinct values of the
    flattened array in ascending order, and how often each occurs. *)
Definition unique_counts (a : list (list Z)) : list Z * list Z :=
  let t := tally_all (concat a) in (map fst t, map snd t).

(** [m[cond] = False] for a boolean array [m] and a boolean array [cond] of
    the same length. *)
Fixpoint clear_where (m cond : list bool) : list bool :=
  match m, cond with
  | b :: m', c :: cond' => (if c then false else b) :: clear_where m' cond'
  | _, _ => m
  end.

(** [a[m]] for a boolean array [m]. *)
Fixpoint select {A} (a : list A) (m : list bool) : list A :=
  match a, m with
  | x :: a', b :: m' => if b then x :: select a' m' else select a' m'
  | _, _ => []
  end.

(** An int64 count divided by a float: a division by zero gives an
    infinity or nan (and a warning), not an exception. *)
Definition div_count (p : Z) (r : float64) : float64 :=
  match r with
  | Finite d =>
      if Qeq_bool d 0 then
        (if p =? 0 then NaN else if 0 <? p then PosInf else NegInf)
      else Float64.round (inject_Z p / d)
  | PosInf | NegInf => Finite 0
  | NaN => NaN
  end.

Definition add (a b : float64) : float64 :=
  match a, b with
  | NaN, _ | _, NaN => NaN
  | PosInf, NegInf | NegInf, PosInf => NaN
  | PosInf, _ | _, PosInf => PosInf
  | NegInf, _ | _, NegInf => NegInf
  | Finite x, Finite y => Float64.overflow (x + y)
  end.

(** [a.sum()]; the sum of an empty array is 0. *)
Definition sum (a : list float64) : float64 := fold_left add a (Finite 0).

End Np.

(** ** Image operations ([cv2]) *)

Module Cv2.

(** [cv2.imread]: [None] when there is no such file or it does not decode. *)
Definition imread (fs : filesystem) (p : string) : option image :=
  match fs !! p with
  | Some (Regular f) => pixels f
  | _ => None
  end.

(** [cv2.threshold(src, thresh, maxval, cv2.THRESH_BINARY_INV)[1]]:
    a sample above [thresh] becomes 0, any other sample [maxval]. *)
Definition threshold_binary_inv (src : gray_image) (thresh maxval : Z)
  : gray_image :=
  map (map (fun v => if thresh <? v then 0 else maxval)) src.

(** An array without elements. *)
Definition empty {A} (scan : list (list A)) : bool :=
  match scan with
  | [] => true
  | [] :: _ => true
  | _ => false
  end.

Definition is_alnum (c : ascii) : bool :=
  let n := nat_of_ascii c in
  ((48 <=? n) && (n <=? 57) || (65 <=? n) && (n <=? 90)
   || (97 <=? n) && (n <=? 122))%nat.

Definition to_lower (c : ascii) : ascii :=
  let n := nat_of_ascii c in
  if ((65 <=? n) && (n <=? 90))%nat then ascii_of_nat (n + 32) else c.

(** How [cv2.imwrite] looks for an encoder: by the letters and digits
    that follow the last dot of the file name, whatever the case and
    wherever that dot stands.  The JPEG encoder, which [preprocess] relies
    on, is taken to be part of every build; the others are those of the
    build at hand. *)
Definition find_encoder (lib : Collaborators) (channels : Z) (p : string)
  : bool :=
  let r := rev (list_ascii_of_string p) in
  let '(after_r, rest) := Path.span (fun c => negb (Path.is_dot c)) r in
  match rest with
  | [] => false
  | _ :: _ =>
      let ext := map to_lower (fst (Path.span is_alnum (rev after_r))) in
      existsb (String.eqb (string_of_list_ascii ext))
              ("jpg" :: encoders lib channels)
  end.

(** [cv2.imwrite] of an image of [channels] channels: an empty array
    trips an assertion and a file name for which no encoder is found is an
    error; otherwise the file is written
    when its directory exists (the empty directory name is the working
    directory) and the path is not itself a directory, and nothing happens
    when it cannot be written.  The written file carries no EXIF block.
    The file holds the array handed to the encoder: the loss of a lossy
    encoder is not modelled. *)
Definition imwrite (lib : Collaborators) (channels : Z) (p : string)
  (scan : image) : M unit :=
  if empty scan then raise Cv2Error
  else if negb (find_encoder lib channels p) then raise Cv2Error
  else
    fs ← get_disk;
    let parent := fst (Path.split p) in
    when ((String.eqb parent EmptyString || isdir fs parent) && negb (isdir fs p))
         (put_disk (<[p := Regular (File false None None (Some scan))]> fs)).

(** A single-channel array as the three-channel image a later [imread]
    returns for it. *)
Definition gray_to_bgr (scan : gray_image) : image :=
  map (map (fun v => BGR v v v)) scan.

End Cv2.

(** [os.makedirs(p)]: refuses an existing path.  The intermediate
    directories it would create on the way are not tracked. *)
Definition makedirs (p : string) : M unit :=
  fs ← get_disk;
  match fs !! p with
  | Some _ => raise FileExistsError
  | None => put_disk (<[p := Directory]> fs)
  end.

(** ** The class [EstimateLeafArea] *)

(** A [pandas.DataFrame] with the columns [filename] and [Area]. *)
Abbreviation DataFrame := (list (string * float64)).

Module EstimateLeafArea.
Section Methods.

Context (lib : Collaborators).

(** Lines 66-75: [if not self.res: ...]. *)
Definition read_resolution (img : string) : M unit :=
  c ← get_self;
  when (Qeq_bool (res c) 0)
    (fs ← get_disk;
     match fs !! expanduser lib img with
     | Some (Regular metadata) =>
         raise_if (negb (has_exif metadata)) MissingMetadata;;
         match x_resolution metadata, y_resolution metadata with
         | Some x, Some y =>
             if negb (Qeq_bool x y) then raise AnisotropicResolution
             else put_self (set_res x c)
         | _, _ => raise AttributeError
         end
     | _ => raise OSError
     end).

(** Lines 84-86: classify leaf and background. *)
Definition classify (scan : gray_image) : M gray_image :=
  c ← get_self;
  raise_if ((threshold c <? 0) || (255 <? threshold c)) InvalidThreshold;;
  mret (Cv2.threshold_binary_inv scan (threshold c) 255).

(** Lines 95-106: the counts of the labels that are neither small nor the
    background.  [leaflets] is the pair [np.unique] returned. *)
Definition remove_small_and_background (leaflets : list Z * list Z)
  : M (list Z) :=
  c ← get_self;
  let mask := repeat true (length (snd leaflets)) in
  raise_if (cut_off c <? 0) InvalidCutoff;;
  let mask := Np.clear_where mask (map (fun n => n <? cut_off c) (snd leaflets)) in
  let mask := Np.clear_where mask (map (fun l => l =? 0) (fst leaflets)) in
  mret (Np.select (snd leaflets) mask).

(** Lines 109-111: from pixels to square centimetres, [dpi] being
    [self.res]. *)
Definition pixels_to_cm2 (dpi : Q) (areas : list Z) : result (list float64) :=
  match Float64.of_number dpi with
  | Ok r =>
      let r := Float64.div r 2.54 in
      let r := Float64.mul r r in
      Ok (map (fun p => Np.div_count p r) areas)
  | Raise e => Raise e
  end.

(** Lines 64-121, the branch taken when [os.path.isfile(img)] holds. *)
Definition estimate_file (img : string) : M DataFrame :=
  read_resolution img;;
  fs ← get_disk;
  match Cv2.imread fs (expanduser lib img) with
  | None => raise Cv2Error
  | Some scan =>
      let scan := map (map (luma lib)) scan in
      scan ← classify scan;
      let leaflets := measure_label lib scan in
      let leaflets := Np.unique_counts leaflets in
      areas ← remove_small_and_background leaflets;
      c ← get_self;
      areas ← lift (pixels_to_cm2 (res c) areas);
      when (negb (String.eqb (output_dir c) EmptyString))
           (Cv2.imwrite lib 1
              (Path.join (expanduser lib (output_dir c)) (Path.basename img))
              (Cv2.gray_to_bgr scan));;
      if combine c
      then mret [(img, Np.sum areas)]
      else mret (map (fun a => (img, a)) areas)
  end.

(** Lines 159-164: crop the edges. *)
Definition crop_edges (dims : Z * Z) (scan : image) : M image :=
  c ← get_self;
  if negb (crop c =? 0) then
    raise_if (crop c <? 0) NegativeCrop;;
    raise_if ((fst dims <? crop c) || (snd dims <? crop c)) CropExceedsBounds;;
    mret (Np.slice2 (crop c) (fst dims - crop c)
                    (crop c) (snd dims - crop c) scan)
  else mret scan.

Definition set_blue (v : Z) (p : pixel) : pixel := BGR v (green p) (red p).
Definition set_green (v : Z) (p : pixel) : pixel := BGR (blue p) v (red p).
Definition set_red (v : Z) (p : pixel) : pixel := BGR (blue p) (green p) v.

(** Lines 167-181: mask scale. *)
Definition mask_existing_scale (dims : Z * Z) (scan : image) : M image :=
  c ← get_self;
  if negb (mask_scale c =? 0) then
    raise_if ((mask_offset_y c <? 0) || (mask_offset_x c <? 0)
              || (mask_pixels c <? 0)) NegativeMaskParameter;;
    raise_if ((fst dims <? mask_offset_y c + mask_pixels c)
              || (snd dims <? mask_offset_x c + mask_pixels c))
             MaskExceedsBounds;;
    let y0 := mask_offset_y c in
    let y1 := mask_offset_y c + mask_pixels c in
    let x0 := mask_offset_x c in
    let x1 := mask_offset_x c + mask_pixels c in
    let scan := Np.assign2 y0 y1 x0 x1 (set_blue 255) scan in
    let scan := Np.assign2 y0 y1 x0 x1 (set_green 255) scan in
    let scan := Np.assign2 y0 y1 x0 x1 (set_red 255) scan in
    mret scan
  else mret scan.

(** Lines 184-189: add scale. *)
Definition add_red_scale (dims : Z * Z) (scan : image) : M image :=
  c ← get_self;
  if negb (red_scale c =? 0) then
    raise_if ((fst dims <? red_scale_pixels c)
              || (snd dims <? red_scale_pixels c)) ScaleBarExceedsBounds;;
    let n := red_scale_pixels c in
    let scan := Np.assign2 0 n 0 n (set_blue 0) scan in
    let scan := Np.assign2 0 n 0 n (set_green 0) scan in
    let scan := Np.assign2 0 n 0 n (set_red 255) scan in
    mret scan
  else mret scan.

(** Lines 145-197, the branch taken when [os.path.isfile(img)] holds. *)
Definition preprocess_file (img : string) : M unit :=
  c ← get_self;
  when (String.eqb (output_dir c) EmptyString)
       (makedirs (fst (Path.split img) +:+ "/preprocessed"));;
  raise_if (String.eqb (fst (Path.split img)) (output_dir c))
           IdenticalSourceDestination;;
  fs ← get_disk;
  match Cv2.imread fs (expanduser lib img) with
  | None => raise AttributeError
  | Some scan =>
      let dims := shape scan in
      scan ← crop_edges dims scan;
      scan ← mask_existing_scale dims scan;
      scan ← add_red_scale dims scan;
      let file_name := Path.basename img in
      let file_name := fst (Path.splitext file_name) +:+ ".jpg" in
      let file_name := Path.join (expanduser lib (output_dir c)) file_name in
      Cv2.imwrite lib 3 file_name scan
  end.

End Methods.
End EstimateLeafArea.

(** ** The dispatch on the kind of path and the command line

    [estimate] (lines 64-136) and [preprocess] (lines 145-208) take the
    branch of the kind of path they are given, which they test on the path
    as it is given, before any tilde expansion.  The directory branches
    (lines 122-134 and 198-206) hand the entries to a pool of worker
    processes; they are the parameter [pool]. *)

Definition estimate (lib : Collaborators) (pool : string -> M DataFrame)
  (img : string) : M DataFrame :=
  fs ← get_disk;
  if isfile fs img then EstimateLeafArea.estimate_file lib img
  else if isdir fs img then pool img
  else raise InvalidInputPath.

Definition preprocess (lib : Collaborators) (pool : string -> M unit)
  (img : string) : M unit :=
  fs ← get_disk;
  if isfile fs img then EstimateLeafArea.preprocess_file lib img
  else if isdir fs img then pool img
  else raise InvalidInputPath.

(** [os.path.exists] *)
Definition path_exists (fs : filesystem) (p : string) : bool :=
  match fs !! p with Some _ => true | None => false end.

(** The namespace [argparse] returns for the sub-command [preprocess]
    (lines 223-237 and 255-261), [--output_dir] being given. *)
Record preprocess_args := {
  args_input : string;
  args_output_dir : string;
  args_crop : Z;
  args_red_scale : Z;
  args_mask_scale : Z;
  args_mask_offset_x : Z;
  args_mask_offset_y : Z;
  args_workers : Z
}.

(** [EstimateLeafArea()] (line 270) on a machine with [cpus] processors,
    [tmp] being the name of the temporary directory of the default
    argument. *)
Definition fresh_estimator (tmp : string) (cpus : Z) : Config :=
  {| red_scale := 0; red_scale_pixels := 0; mask_pixels := 0;
     mask_scale := 0; mask_offset_y := 0; mask_offset_x := 0;
     threshold := 120; cut_off := 10000; output_dir := tmp;
     crop := 0; combine := true; res := 0; workers := cpus - 1 |}.

(** Lines 315-320: the attributes the sub-command [preprocess] sets. *)
Definition assign_preprocess_args (a : preprocess_args) (c : Config) : Config :=
  {| red_scale := args_red_scale a; red_scale_pixels := red_scale_pixels c;
     mask_pixels := mask_pixels c; mask_scale := args_mask_scale a;
     mask_offset_y := args_mask_offset_y a;
     mask_offset_x := args_mask_offset_x a;
     threshold := threshold c; cut_off := cut_off c;
     output_dir := output_dir c; crop := args_crop a; combine := combine c;
     res := res c; workers := args_workers a |}.

Definition set_output_dir (dir : string) (c : Config) : Config :=
  {| red_scale := red_scale c; red_scale_pixels := red_scale_pixels c;
     mask_pixels := mask_pixels c; mask_scale := mask_scale c;
     mask_offset_y := mask_offset_y c; mask_offset_x := mask_offset_x c;
     threshold := threshold c; cut_off := cut_off c;
     output_dir := dir; crop := crop c; combine := combine c;
     res := res c; workers := workers c |}.

(** Lines 270 and 299-322: the sub-command [preprocess].  [abspath] is
    [os.path.abspath], which depends on the working directory. *)
Definition main_preprocess (lib : Collaborators) (abspath : string -> string)
  (pool : string -> M unit) (tmp : string) (cpus : Z) (args : preprocess_args)
  : M unit :=
  put_self (fresh_estimator tmp cpus);;
  let output_dir := abspath (args_output_dir args) in
  fs ← get_disk;
  (if negb (path_exists fs output_dir) then
     estimator ← get_self;
     put_self (set_output_dir output_dir estimator);;
     makedirs output_dir
   else raise OutputDirectoryExists);;
  raise_if (String.eqb (fst (Path.split (abspath (args_input args)))) output_dir)
           IdenticalSourceDestination;;
  estimator ← get_self;
  put_self (assign_preprocess_args args estimator);;
  preprocess lib pool (args_input args).

(** The same command line with another value of one option. *)
Definition args_with_red_scale (n : Z) (a : preprocess_args) : preprocess_args :=
  {| args_input := args_input a; args_output_dir := args_output_dir a;
     args_crop := args_crop a; args_red_scale := n;
     args_mask_scale := args_mask_scale a;
     args_mask_offset_x := args_mask_offset_x a;
     args_mask_offset_y := args_mask_offset_y a;
     args_workers := args_workers a |}.

Definition args_with_mask_scale (n : Z) (a : preprocess_args) : preprocess_args :=
  {| args_input := args_input a; args_output_dir := args_output_dir a;
     args_crop := args_crop a; args_red_scale := args_red_scale a;
     args_mask_scale := n;
     args_mask_offset_x := args_mask_offset_x a;
     args_mask_offset_y := args_mask_offset_y a;
     args_workers := args_workers a |}.

(** ** A concrete set of collaborators

    Used to run the methods on examples: the 15-bit fixed-point luma
    weighting of OpenCV, tilde expansion for one home directory, the
    encoders of OpenCV 4, and a labelling of
    the 8-connected regions of equal non-zero value, numbered in raster
    order of their first pixel. *)

Module Fixture.

Definition luma (p : pixel) : Z :=
  Z.shiftr (blue p * 3735 + green p * 19235 + red p * 9798 + 16384) 15.

Definition expanduser (p : string) : string :=
  match p with
  | String "~" EmptyString => "/home/ana"
  | String "~" (String "/" rest) => "/home/ana/" +:+ rest
  | _ => p
  end.

(** A cell during labelling: its value and its provisional label. *)
Definition merge (v l : Z) (other : option (Z * Z)) : Z :=
  match other with
  | Some (v', l') => if (v' =? v) && (l' <? l) then l' else l
  | None => l
  end.

(** One row, left to right: every foreground cell takes the least label
    among its own and those of its left, upper-left, upper and upper-right
    neighbours of the same value. *)
Fixpoint sweep_row (left upleft : option (Z * Z)) (up cur : list (Z * Z))
  : list (Z * Z) :=
  match cur with
  | [] => []
  | (v, l) :: cur' =>
      let l' :=
        if v =? 0 then 0
        else merge v (merge v (merge v (merge v l left) upleft) (hd_error up))
                   (hd_error (tl up)) in
      (v, l') :: sweep_row (Some (v, l')) (hd_error up) (tl up) cur'
  end.

Fixpoint sweep_rows (up : list (Z * Z)) (rows : list (list (Z * Z)))
  : list (list (Z * Z)) :=
  match rows with
  | [] => []
  | cur :: rows' =>
      let cur' := sweep_row None None up cur in
      cur' :: sweep_rows cur' rows'
  end.

Definition flip {A} (g : list (list A)) : list (list A) := rev (map (@rev A) g).

(** Down and to the right, then up and to the left. *)
Definition sweep (g : list (list (Z * Z))) : list (list (Z * Z)) :=
  flip (sweep_rows [] (flip (sweep_rows [] g))).

Definition labels_of (g : list (list (Z * Z))) : list (list Z) := map (map snd) g.

Definition same_labels (g h : list (list (Z * Z))) : bool :=
  forallb (fun '(a, b) => forallb (fun '(x, y) => snd x =? snd y) (List.combine a b))
          (List.combine g h).

Fixpoint settle (fuel : nat) (g : list (list (Z * Z))) : list (list (Z * Z)) :=
  match fuel with
  | O => g
  | S fuel' => let h := sweep g in if same_labels g h then g else settle fuel' h
  end.

Fixpoint number_row (i : Z) (row : list Z) : list (Z * Z) :=
  match row with
  | [] => []
  | v :: r => (v, if v =? 0 then 0 else i) :: number_row (i + 1) r
  end.

Fixpoint number_rows (i : Z) (rows : list (list Z)) : list (list (Z * Z)) :=
  match rows with
  | [] => []
  | row :: r => number_row i row :: number_rows (i + Z.of_nat (length row)) r
  end.

Fixpoint rank (roots : list Z) (n l : Z) : Z :=
  match roots with
  | [] => 0
  | r :: roots' => if r =? l then n else rank roots' (n + 1) l
  end.

Definition measure_label (mask : list (list Z)) : list (list Z) :=
  let g := settle (length (concat mask)) (number_rows 1 mask) in
  let roots := List.filter (fun l => negb (l =? 0)) (fst (Np.unique_counts (labels_of g))) in
  map (map (fun l => if l =? 0 then 0 else rank roots 1 l)) (labels_of g).

(** The encoders of OpenCV 4 for 8-bit images, besides [jpg]. *)
Definition encoders (channels : Z) : list string :=
  ["bmp"; "dib"; "jpeg"; "jpe"; "jp2"; "png"; "webp"; "pnm"; "pam"; "sr";
   "ras"; "tiff"; "tif"]
  ++ (if channels =? 1 then ["pbm"; "pgm"] else ["ppm"]).

Definition lib : Collaborators :=
  Lib measure_label luma expanduser encoders.

End Fixture.

(** ** Sample scans *)

Module Sample.

Definition white : pixel := BGR 255 255 255.
Definition black : pixel := BGR 0 0 0.

Definition blank (h w : nat) : image := repeat (repeat white w) h.

(** A black rectangle on rows [y0, y1) and columns [x0, x1). *)
Definition ink (y0 y1 x0 x1 : Z) (scan : image) : image :=
  Np.assign2 y0 y1 x0 x1 (fun _ => black) scan.

(** An 8 x 12 scan with a 4 x 5 leaf and a 2 x 2 speck. *)
Definition leaf_and_speck : image := ink 5 7 9 11 (ink 1 5 1 6 (blank 8 12)).

(** A scan with one solid black square of 100 x 200 = 20000 pixels. *)
Definition square_20000 : image := ink 1 101 1 201 (blank 102 202).

Definition scanned (dpi : Q) (scan : image) : node :=
  Regular (File true (Some dpi) (Some dpi) (Some scan)).

Definition disk : filesystem :=
  <["/scans" := Directory]>
  (<["/scans/leaf.jpg" := scanned 300 leaf_and_speck]>
  (<["/scans/fine.jpg" := scanned 600 leaf_and_speck]>
  (<["/scans/square.jpg" := scanned 300 square_20000]>
  (<["/scans/blank.jpg" := scanned 300 (blank 10 10)]>
  (<["/scans/tall.jpg" := scanned 300 (blank 1000 60)]>
  (<["leaf.jpg" := scanned 300 leaf_and_speck]>
  (<["/out" := Directory]> ∅))))))).

End Sample.

(** ** Vocabulary of the properties *)

(** [EstimateLeafArea()] with the defaults of [__init__]; the default
    output directory is the name of a temporary directory that no longer
    exists, and the worker count depends on the machine. *)
Definition default_config : Config :=
  {| red_scale := 0; red_scale_pixels := 0; mask_pixels := 0;
     mask_scale := 0; mask_offset_y := 0; mask_offset_x := 0;
     threshold := 120; cut_off := 10000; output_dir := "/tmp/tmpq1w2e3r4";
     crop := 0; combine := true; res := 0; workers := 3 |}.

(** The sample in row [i], column [j]. *)
Definition cell {A} (a : list (list A)) (i j : nat) : option A :=
  match a !! i with
  | Some row => row !! j
  | None => None
  end.

(** In a binary mask the foreground is what is not 0. *)
Definition foreground (m : Z) : Prop := m <> 0.

(** The rule as the specification words it: foreground exactly when the
    intensity is strictly below the threshold. *)
Definition strictly_below_rule (T : Z) (scan mask : gray_image) : Prop :=
  forall i j v m,
    cell scan i j = Some v -> cell mask i j = Some m ->
    (foreground m <-> v < T).

(** The rule of the code: foreground exactly when the intensity is at or
    below the threshold. *)
Definition at_or_below_rule (T : Z) (scan mask : gray_image) : Prop :=
  forall i j v,
    cell scan i j = Some v ->
    exists m, cell mask i j = Some m /\
              (foreground m <-> v <= T) /\ (m = 0 <-> T < v).

Definition all_white (scan : gray_image) : Prop :=
  Forall (Forall (fun v => v = 255)) scan.

Definition empty_mask (mask : gray_image) : Prop :=
  Forall (Forall (fun m => m = 0)) mask.

(** The Region Records of a label map: every label present, in ascending
    order, with its pixel count. *)
Definition region_records (labels : gray_image) : list (Z * Z) :=
  Np.tally_all (concat labels).

(** The filtering as the specification words it: a record survives when
    its label is not the background and its count is not below the
    cut-off. *)
Definition survives (C : Z) (record : Z * Z) : bool :=
  negb (fst record =? 0) && (C <=? snd record).

Definition surviving (C : Z) (records : list (Z * Z)) : list (Z * Z) :=
  List.filter (survives C) records.

(** The count a table holds for a label, 0 when the label is absent. *)
Fixpoint held (t : list (Z * Z)) (l : Z) : Z :=
  match t with
  | [] => 0
  | (u, c) :: r => if u =? l then c else held r l
  end.

Definition ascending (t : list (Z * Z)) : Prop :=
  StronglySorted Z.lt (map fst t).

Definition positive_counts (t : list (Z * Z)) : Prop :=
  Forall (fun r => 0 < snd r) t.

(** How many cells of a label map carry the label [l]. *)
Definition pixel_count (labels : gray_image) (l : Z) : Z :=
  Z.of_nat (count_occ Z.eq_dec (concat labels) l).

(** The resolution a run on [img] works with: the override when there is
    one, the EXIF resolution otherwise. *)
Definition resolve (lib : Collaborators) (c : Config) (fs : filesystem)
  (img : string) : result Q :=
  if Qeq_bool (res c) 0 then
    match fs !! expanduser lib img with
    | Some (Regular metadata) =>
        if negb (has_exif metadata) then Raise MissingMetadata
        else
          match x_resolution metadata, y_resolution metadata with
          | Some x, Some y =>
              if negb (Qeq_bool x y) then Raise AnisotropicResolution else Ok x
          | _, _ => Raise AttributeError
          end
    | _ => Raise OSError
    end
  else Ok (res c).

(** The binary mask of a scan and the pixel counts of its surviving
    regions. *)
Definition binary_mask (lib : Collaborators) (c : Config) (scan : image)
  : gray_image :=
  Cv2.threshold_binary_inv (map (map (luma lib)) scan) (threshold c) 255.

Definition surviving_counts (lib : Collaborators) (c : Config) (scan : image)
  : list Z :=
  map snd (surviving (cut_off c)
             (region_records (measure_label lib (binary_mask lib c scan)))).

(** The Measurement Rows of one file. *)
Definition rows_of (img : string) (areas : list float64) : DataFrame :=
  map (fun a => (img, a)) areas.

(** The conversion as the specification words it:
    pixelCount / ((dpi / 2.54)^2). *)
Definition area_cm2 (p : Z) (dpi : Q) : Q :=
  (inject_Z p / ((dpi / 2.54) ^ 2))%Q.

(** Lines 114-116 of [estimate]: save the binary mask under the output
    directory. *)
Definition save_image (lib : Collaborators) (img : string) (mask : gray_image)
  (c : Config) : M unit :=
  when (negb (String.eqb (output_dir c) EmptyString))
       (Cv2.imwrite lib 1
          (Path.join (expanduser lib (output_dir c)) (Path.basename img))
          (Cv2.gray_to_bgr mask)).

(** Configurations used in the examples. *)
Definition with_output (dir : string) (c : Config) : Config :=
  {| red_scale := red_scale c; red_scale_pixels := red_scale_pixels c;
     mask_pixels := mask_pixels c; mask_scale := mask_scale c;
     mask_offset_y := mask_offset_y c; mask_offset_x := mask_offset_x c;
     threshold := threshold c; cut_off := cut_off c;
     output_dir := dir; crop := crop c; combine := combine c;
     res := res c; workers := workers c |}.

Definition with_cut_off (n : Z) (c : Config) : Config :=
  {| red_scale := red_scale c; red_scale_pixels := red_scale_pixels c;
     mask_pixels := mask_pixels c; mask_scale := mask_scale c;
     mask_offset_y := mask_offset_y c; mask_offset_x := mask_offset_x c;
     threshold := threshold c; cut_off := n;
     output_dir := output_dir c; crop := crop c; combine := combine c;
     res := res c; workers := workers c |}.

Definition with_crop (n : Z) (c : Config) : Config :=
  {| red_scale := red_scale c; red_scale_pixels := red_scale_pixels c;
     mask_pixels := mask_pixels c; mask_scale := mask_scale c;
     mask_offset_y := mask_offset_y c; mask_offset_x := mask_offset_x c;
     threshold := threshold c; cut_off := cut_off c;
     output_dir := output_dir c; crop := n; combine := combine c;
     res := res c; workers := workers c |}.

(** The four attributes of the scale masking. *)
Definition with_mask (scale offset_y offset_x side : Z) (c : Config) : Config :=
  {| red_scale := red_scale c; red_scale_pixels := red_scale_pixels c;
     mask_pixels := side; mask_scale := scale;
     mask_offset_y := offset_y; mask_offset_x := offset_x;
     threshold := threshold c; cut_off := cut_off c;
     output_dir := output_dir c; crop := crop c; combine := combine c;
     res := res c; workers := workers c |}.

(** A small scan measured with a cut-off of 3 pixels, masks saved under
    [/out]. *)
Definition small_config : Config :=
  with_output "/out" (with_cut_off 3 default_config).

(** Whether the cell in row [i], column [j] lies in the window of rows
    [y0, y1) and columns [x0, x1). *)
Definition in_window (y0 y1 x0 x1 : Z) (i j : nat) : bool :=
  (y0 <=? Z.of_nat i) && (Z.of_nat i <? y1)
  && ((x0 <=? Z.of_nat j) && (Z.of_nat j <? x1)).

(** All rows of a scan have [w] cells. *)
Definition row_width {A} (w : Z) (scan : list (list A)) : Prop :=
  Forall (fun row => Z.of_nat (length row) = w) scan.

(** Where [preprocess] writes the image it made of [img]. *)
Definition output_file (lib : Collaborators) (c : Config) (img : string) : string :=
  Path.join (expanduser lib (output_dir c))
            (fst (Path.splitext (Path.basename img)) +:+ ".jpg").

(** Two runs agree in what they return and in the files they leave. *)
Definition same_outcome {A} (r1 r2 : result A * state) : Prop :=
  fst r1 = fst r2 /\ disk (snd r1) = disk (snd r2).

(** Whether [cv2.imwrite] can write to [p]: the directory of [p] exists
    and [p] is not a directory. *)
Definition writable (fs : filesystem) (p : string) : bool :=
  (String.eqb (fst (Path.split p)) EmptyString || isdir fs (fst (Path.split p)))
  && negb (isdir fs p).

(** The file [cv2.imwrite] leaves for an image: it is identified by the
    array handed to the encoder. *)
Definition written (scan : image) : node :=
  Regular (File false None None (Some scan)).

(** Where [estimate] saves the binary mask of [img]. *)
Definition mask_file (lib : Collaborators) (c : Config) (img : string) : string :=
  Path.join (expanduser lib (output_dir c)) (Path.basename img).

(** The sum of a list of integers. *)
Definition total (l : list Z) : Z := fold_right Z.add 0 l.

(** The sum of a list of rationals. *)
Definition sum_of (qs : list Q) : Q := fold_right Qplus 0%Q qs.


(** What the areas the conversion returns are: infinite, or finite and
    not negative. *)
Definition nonneg (a : float64) : Prop :=
  a = PosInf \/ exists q, a = Finite q /\ (0 <= q)%Q.

(** The squared density, in pixels per square centimetre, that the
    conversion divides by. *)
Definition squared_density (dpi : Q) : float64 :=
  let r := Float64.div (Finite dpi) 2.54 in Float64.mul r r.

(** The number of pixels of a scan. *)
Definition pixels_in {A} (scan : list (list A)) : Z :=
  Z.of_nat (length (concat scan)).

(** Strings without a separator, of separators only, without a dot. *)
Definition no_sep (s : string) : Prop :=
  forallb (fun c => negb (Path.is_sep c)) (list_ascii_of_string s) = true.

Definition all_sep (s : string) : Prop :=
  forallb Path.is_sep (list_ascii_of_string s) = true.

Definition no_dot (s : string) : Prop :=
  forallb (fun c => negb (Path.is_dot c)) (list_ascii_of_string s) = true.

(** Strings with some character other than a dot. *)
Definition some_non_dot (s : string) : Prop :=
  existsb (fun c => negb (Path.is_dot c)) (list_ascii_of_string s) = true.

(** More configurations and a small file system for the examples. *)
Definition with_threshold (t : Z) (c : Config) : Config :=
  {| red_scale := red_scale c; red_scale_pixels := red_scale_pixels c;
     mask_pixels := mask_pixels c; mask_scale := mask_scale c;
     mask_offset_y := mask_offset_y c; mask_offset_x := mask_offset_x c;
     threshold := t; cut_off := cut_off c;
     output_dir := output_dir c; crop := crop c; combine := combine c;
     res := res c; workers := workers c |}.

Definition with_red_scale (flag side : Z) (c : Config) : Config :=
  {| red_scale := flag; red_scale_pixels := side;
     mask_pixels := mask_pixels c; mask_scale := mask_scale c;
     mask_offset_y := mask_offset_y c; mask_offset_x := mask_offset_x c;
     threshold := threshold c; cut_off := cut_off c;
     output_dir := output_dir c; crop := crop c; combine := combine c;
     res := res c; workers := workers c |}.

(** The small scan with its EXIF data, without any, and with two
    resolutions that differ. *)
Definition small_disk : filesystem :=
  <["/scans" := Directory]>
  (<["/scans/leaf.jpg" := Sample.scanned 300 Sample.leaf_and_speck]>
  (<["/scans/bare.png" :=
       Regular (File false None None (Some Sample.leaf_and_speck))]>
  (<["/scans/skew.jpg" :=
       Regular (File true (Some 300%Q) (Some 600%Q) (Some Sample.leaf_and_speck))]>
  (<["/out" := Directory]> ∅)))).

(** [os.path.abspath] on paths that are absolute and normalised, a pool
    that has nothing to do, and a command line. *)
Definition abspath_of_absolute (p : string) : string := p.

Definition idle_pool (dir : string) : M unit := mret tt.

Definition sample_args : preprocess_args :=
  {| args_input := "/scans/leaf.jpg"; args_output_dir := "/new";
     args_crop := 1; args_red_scale := 2; args_mask_scale := 3;
     args_mask_offset_x := 1; args_mask_offset_y := 1; args_workers := 1 |}.

(** * Properties *)

(** ** Preliminaries *)

Ltac run :=
  unfold mbind, M_bind, mret, M_ret, raise_if, when, raise,
         get_self, get_disk, put_self, put_disk in *;
  cbn [self disk fst snd] in *.

(** [posixpath] on a few paths. *)

Example split_abs : Path.split "/scans/leaf.png" = ("/scans", "leaf.png").
Proof. reflexivity. Qed.
Example split_bare : Path.split "leaf.png" = (EmptyString, "leaf.png").
Proof. reflexivity. Qed.
Example split_root : Path.split "/leaf.png" = ("/", "leaf.png").
Proof. reflexivity. Qed.
Example split_double : Path.split "a//b" = ("a", "b").
Proof. reflexivity. Qed.
Example join_plain : Path.join "/out" "leaf.png" = "/out/leaf.png".
Proof. reflexivity. Qed.
Example join_empty : Path.join EmptyString "leaf.jpg" = "leaf.jpg".
Proof. reflexivity. Qed.
Example splitext_plain : Path.splitext "leaf.scan.png" = ("leaf.scan", ".png").
Proof. reflexivity. Qed.
Example splitext_hidden : Path.splitext ".bashrc" = (".bashrc", EmptyString).
Proof. reflexivity. Qed.
Example splitext_none : Path.splitext "leaf" = ("leaf", EmptyString).
Proof. reflexivity. Qed.

Lemma lookup_map {A B} (f : A -> B) (l : list A) (i : nat) :
  map f l !! i = option_map f (l !! i).
Proof.
  revert i. induction l as [|x l IH]; intros [|i]; cbn; try reflexivity.
  apply IH.
Qed.

Lemma cell_map {A B} (f : A -> B) (a : list (list A)) i j :
  cell (map (map f) a) i j = option_map f (cell a i j).
Proof.
  unfold cell. rewrite lookup_map.
  destruct (a !! i) as [row|]; cbn; [|reflexivity].
  apply lookup_map.
Qed.

(** ** Segmentation *)

Section Segmentation.

Import EstimateLeafArea.

Lemma classify_in_range (st : state) (scan : gray_image) :
  0 <= threshold (self st) <= 255 ->
  classify scan st
  = (Ok (Cv2.threshold_binary_inv scan (threshold (self st)) 255), st).
Proof.
  intros [Hlo Hhi]. unfold classify. run.
  destruct (threshold (self st) <? 0) eqn:E1; [lia|].
  destruct (255 <? threshold (self st)) eqn:E2; [lia|].
  reflexivity.
Qed.

Lemma classify_out_of_range (st : state) (scan : gray_image) :
  threshold (self st) < 0 \/ 255 < threshold (self st) ->
  classify scan st = (Raise InvalidThreshold, st).
Proof.
  intros H. unfold classify. run.
  destruct (threshold (self st) <? 0) eqn:E1; [reflexivity|].
  destruct (255 <? threshold (self st)) eqn:E2; [reflexivity|lia].
Qed.

Lemma threshold_shape (scan : gray_image) T maxval :
  length (Cv2.threshold_binary_inv scan T maxval) = length scan
  /\ forall i row, scan !! i = Some row ->
       exists mrow, Cv2.threshold_binary_inv scan T maxval !! i = Some mrow
                    /\ length mrow = length row.
Proof.
  unfold Cv2.threshold_binary_inv. split; [apply length_map|].
  intros i row Hrow.
  set (f := fun v : Z => if T <? v then 0 else maxval).
  exists (map f row). split; [|apply length_map].
  rewrite lookup_map, Hrow. reflexivity.
Qed.

Lemma threshold_rule (scan : gray_image) T :
  at_or_below_rule T scan (Cv2.threshold_binary_inv scan T 255).
Proof.
  intros i j v Hv. unfold Cv2.threshold_binary_inv.
  rewrite cell_map, Hv. cbn.
  unfold foreground.
  destruct (T <? v) eqn:E; eexists; (split; [reflexivity|]); split; split; lia.
Qed.

Lemma threshold_all_white (scan : gray_image) T :
  T < 255 -> all_white scan ->
  empty_mask (Cv2.threshold_binary_inv scan T 255).
Proof.
  intros HT Hw. unfold empty_mask, Cv2.threshold_binary_inv.
  induction Hw as [|row scan Hrow _ IH]; cbn; constructor; [|exact IH].
  induction Hrow as [|v row Hv _ IHrow]; cbn; constructor; [|exact IHrow].
  subst v. destruct (T <? 255) eqn:E; [reflexivity|lia].
Qed.

(** C1 (as the code has it).  For every grayscale image and every
    threshold T in [0,255], segmentation succeeds, keeps the shape of the
    image, and classifies a pixel as foreground exactly when its intensity
    is at or below T, as background exactly when it is above T; segmenting
    an all-white image yields an empty mask for every T < 255. *)
Theorem classify_at_or_below (st : state) (scan : gray_image) :
  0 <= threshold (self st) <= 255 ->
  exists mask,
    classify scan st = (Ok mask, st)
    /\ length mask = length scan
    /\ (forall i row, scan !! i = Some row ->
          exists mrow, mask !! i = Some mrow /\ length mrow = length row)
    /\ at_or_below_rule (threshold (self st)) scan mask
    /\ (threshold (self st) < 255 -> all_white scan -> empty_mask mask).
Proof.
  intros HT. eexists. split; [apply classify_in_range; exact HT|].
  destruct (threshold_shape scan (threshold (self st)) 255) as [Hlen Hrows].
  repeat split; try assumption.
  - apply threshold_rule.
  - apply threshold_all_white.
Qed.

End Segmentation.

(** ** Labels and their counts *)

Section Counting.

Lemma tally_keys (P : Z -> Prop) v t :
  P v -> Forall P (map fst t) -> Forall P (map fst (Np.tally v t)).
Proof.
  intros Hv. induction t as [|[u c] r IH]; cbn; intros Ht.
  - constructor; [exact Hv|constructor].
  - destruct (v <? u); [constructor; assumption|].
    inversion Ht; subst.
    destruct (v =? u); cbn; constructor; auto.
Qed.

Lemma tally_ascending v t : ascending t -> ascending (Np.tally v t).
Proof.
  unfold ascending. induction t as [|[u c] r IH]; cbn; intros Ht.
  - repeat constructor.
  - inversion Ht as [|? ? Hr Hu]; subst.
    destruct (v <? u) eqn:E1.
    + cbn. constructor; [exact Ht|]. constructor; [lia|].
      eapply Forall_impl; [exact Hu|]. cbn. intros; lia.
    + destruct (v =? u) eqn:E2; cbn; [constructor; assumption|].
      constructor; [apply IH; exact Hr|].
      apply tally_keys; [lia|exact Hu].
Qed.

Lemma tally_positive v t : positive_counts t -> positive_counts (Np.tally v t).
Proof.
  unfold positive_counts. induction t as [|[u c] r IH]; cbn; intros Ht.
  - repeat constructor.
  - inversion Ht; subst; cbn in *.
    destruct (v <? u); [constructor; [cbn; lia|exact Ht]|].
    destruct (v =? u); constructor; cbn; auto; lia.
Qed.

Lemma held_absent t l :
  Forall (fun u => l < u) (map fst t) -> held t l = 0.
Proof.
  induction t as [|[u c] r IH]; cbn; intros Ht; [reflexivity|].
  inversion Ht; subst. destruct (u =? l) eqn:E; [lia|auto].
Qed.

Lemma tally_held v t l :
  ascending t ->
  held (Np.tally v t) l = held t l + (if v =? l then 1 else 0).
Proof.
  unfold ascending. induction t as [|[u c] r IH]; cbn; intros Ht.
  - destruct (v =? l); reflexivity.
  - inversion Ht as [|? ? Hr Hu]; subst.
    destruct (v <? u) eqn:E1; cbn.
    + destruct (v =? l) eqn:E2.
      * destruct (u =? l) eqn:E3; [lia|].
        rewrite held_absent; [reflexivity|].
        eapply Forall_impl; [exact Hu|]. cbn. intros; lia.
      * lia.
    + destruct (v =? u) eqn:E2; cbn.
      * destruct (u =? l) eqn:E3, (v =? l) eqn:E4; lia.
      * destruct (u =? l) eqn:E3; [destruct (v =? l) eqn:E4; lia|].
        apply IH; exact Hr.
Qed.

Lemma tally_fold xs : forall t,
  ascending t -> positive_counts t ->
  let t' := fold_left (fun t v => Np.tally v t) xs t in
  ascending t' /\ positive_counts t'
  /\ forall l, held t' l = held t l + Z.of_nat (count_occ Z.eq_dec xs l).
Proof.
  induction xs as [|x xs IH]; cbn; intros t Ha Hp.
  - repeat split; try assumption. intros; lia.
  - destruct (IH (Np.tally x t)) as (Ha' & Hp' & Hh').
    { apply tally_ascending; exact Ha. }
    { apply tally_positive; exact Hp. }
    repeat split; try assumption.
    intros l. rewrite Hh', tally_held by exact Ha.
    destruct (Z.eq_dec x l) as [->|Hne].
    + rewrite Z.eqb_refl. lia.
    + destruct (x =? l) eqn:E; lia.
Qed.

Lemma held_in t l n :
  ascending t -> positive_counts t ->
  In (l, n) t <-> held t l = n /\ 0 < n.
Proof.
  unfold ascending, positive_counts.
  induction t as [|[u c] r IH]; cbn; intros Ha Hp.
  - split; [intros []|lia].
  - inversion Ha as [|? ? Hr Hu]; subst. inversion Hp as [|? ? Hc Hp']; subst.
    cbn in Hc. destruct (u =? l) eqn:E.
    + assert (u = l) by lia. subst u. split.
      * intros [Heq|Hin]; [inversion Heq; subst; lia|].
        exfalso. apply (in_map fst) in Hin. cbn in Hin.
        rewrite Forall_forall in Hu. apply list_elem_of_In in Hin.
        apply Hu in Hin. lia.
      * intros [-> _]. left; reflexivity.
    + split.
      * intros [Heq|Hin]; [inversion Heq; lia|]. apply IH; assumption.
      * intros H. right. apply IH; assumption.
Qed.

(** The Region Records of a label map: labels in strictly ascending order,
    each with the number of cells that carry it. *)
Lemma region_records_spec (labels : gray_image) :
  ascending (region_records labels)
  /\ forall l n, In (l, n) (region_records labels)
                 <-> n = pixel_count labels l /\ 0 < n.
Proof.
  destruct (tally_fold (concat labels) []) as (Ha & Hp & Hh);
    [constructor|constructor|].
  cbn in Ha, Hp, Hh. split; [exact Ha|].
  intros l n. unfold region_records, Np.tally_all, pixel_count.
  rewrite held_in by assumption. rewrite Hh. cbn. intuition lia.
Qed.

Lemma unique_counts_records (labels : gray_image) :
  Np.unique_counts labels
  = (map fst (region_records labels), map snd (region_records labels)).
Proof. reflexivity. Qed.

End Counting.

(** ** Filtering the regions *)

Section Filtering.

Import EstimateLeafArea.

Lemma select_cleared (C : Z) (t : list (Z * Z)) :
  Np.select (map snd t)
    (Np.clear_where
       (Np.clear_where (repeat true (length (map snd t)))
                       (map (fun n => n <? C) (map snd t)))
       (map (fun l => l =? 0) (map fst t)))
  = map snd (surviving C t).
Proof.
  induction t as [|[l n] r IH]; cbn; [reflexivity|].
  unfold survives; cbn. rewrite IH.
  destruct (n <? C) eqn:E1, (l =? 0) eqn:E2, (C <=? n) eqn:E3;
    cbn; try reflexivity; lia.
Qed.

Lemma surviving_in (C : Z) (t : list (Z * Z)) l n :
  In (l, n) (surviving C t) <-> In (l, n) t /\ l <> 0 /\ C <= n.
Proof.
  unfold surviving. rewrite filter_In. unfold survives; cbn.
  rewrite andb_true_iff, negb_true_iff. intuition lia.
Qed.

Lemma remove_small_and_background_ok (st : state) (labels : gray_image) :
  0 <= cut_off (self st) ->
  remove_small_and_background (Np.unique_counts labels) st
  = (Ok (map snd (surviving (cut_off (self st)) (region_records labels))), st).
Proof.
  intros HC. unfold remove_small_and_background. run.
  destruct (cut_off (self st) <? 0) eqn:E; [lia|].
  rewrite unique_counts_records. cbn [fst snd].
  rewrite select_cleared. reflexivity.
Qed.

Lemma remove_small_and_background_negative (st : state) leaflets :
  cut_off (self st) < 0 ->
  remove_small_and_background leaflets st = (Raise InvalidCutoff, st).
Proof.
  intros HC. unfold remove_small_and_background. run.
  destruct (cut_off (self st) <? 0) eqn:E; [reflexivity|lia].
Qed.

(** C2.  For every label map of a binary mask and every cut-off C >= 0,
    the filtering returns the pixel counts of exactly the Region Records
    whose label is not the background label 0 and whose count is at least
    C, each count being the number of pixels that carry the label; the
    background and every region of fewer than C pixels are left out.  For
    every negative cut-off the filtering fails with InvalidCutoff. *)
Theorem filtered_region_records (st : state) (labels : gray_image) :
  let C := cut_off (self st) in
  let kept := surviving C (region_records labels) in
  (0 <= C ->
     remove_small_and_background (Np.unique_counts labels) st
     = (Ok (map snd kept), st)
     /\ (forall l n, In (l, n) kept
                     <-> l <> 0 /\ C <= n /\ 0 < n /\ n = pixel_count labels l)
     /\ (forall n, ~ In (0, n) kept)
     /\ (forall l n, n < C -> ~ In (l, n) kept)
     /\ (forall l, l <> 0 -> 0 < pixel_count labels l ->
                   C <= pixel_count labels l ->
                   In (l, pixel_count labels l) kept))
  /\ (C < 0 ->
        remove_small_and_background (Np.unique_counts labels) st
        = (Raise InvalidCutoff, st)).
Proof.
  intros C kept. split.
  - intros HC.
    destruct (region_records_spec labels) as [_ Hrec].
    assert (Hkept : forall l n, In (l, n) kept
              <-> l <> 0 /\ C <= n /\ 0 < n /\ n = pixel_count labels l).
    { intros l n. unfold kept. rewrite surviving_in, Hrec. intuition. }
    split; [apply remove_small_and_background_ok; exact HC|].
    split; [exact Hkept|].
    split; [intros n Hin; apply Hkept in Hin; intuition|].
    split; [intros l n Hn Hin; apply Hkept in Hin; lia|].
    intros l Hl Hpos Hge. apply Hkept. intuition.
  - apply remove_small_and_background_negative.
Qed.

End Filtering.

(** ** One file through [estimate] *)

Section Estimate.

Import EstimateLeafArea.
Context (lib : Collaborators).

Lemma set_res_same (c : Config) : set_res (res c) c = c.
Proof. destruct c; reflexivity. Qed.

Lemma read_resolution_run (img : string) (st : state) :
  read_resolution lib img st
  = match resolve lib (self st) (disk st) img with
    | Ok dpi => (Ok tt, State (set_res dpi (self st)) (disk st))
    | Raise e => (Raise e, st)
    end.
Proof.
  unfold read_resolution, resolve. run.
  destruct (Qeq_bool (res (self st)) 0).
  - destruct (disk st !! expanduser lib img) as [[|metadata]|]; try reflexivity.
    destruct (has_exif metadata); cbn; [|reflexivity].
    destruct (x_resolution metadata) as [x|]; [|reflexivity].
    destruct (y_resolution metadata) as [y|]; [|reflexivity].
    destruct (Qeq_bool x y); reflexivity.
  - rewrite set_res_same. destruct st; reflexivity.
Qed.

Lemma empty_map {A B} (f : A -> B) (scan : list (list A)) :
  Cv2.empty (map (map f) scan) = Cv2.empty scan.
Proof. destruct scan as [|[|x row] scan]; reflexivity. Qed.

(** [cv2.imwrite], case by case. *)
Lemma imwrite_run (n : Z) (p : string) (scan : image) (st : state) :
  Cv2.imwrite lib n p scan st
  = if Cv2.empty scan || negb (Cv2.find_encoder lib n p)
    then (Raise Cv2Error, st)
    else (Ok tt, if writable (disk st) p
                 then State (self st) (<[p := written scan]> (disk st))
                 else st).
Proof.
  unfold Cv2.imwrite, writable, written. run.
  destruct (Cv2.empty scan); [reflexivity|].
  destruct (Cv2.find_encoder lib n p); [|reflexivity]. cbn [negb orb].
  destruct ((String.eqb _ _ || isdir _ _) && negb (isdir _ _)); reflexivity.
Qed.

Lemma imwrite_nonempty (n : Z) (p : string) (scan : image) (st : state) :
  Cv2.empty scan = false -> Cv2.find_encoder lib n p = true ->
  exists fs', Cv2.imwrite lib n p scan st = (Ok tt, State (self st) fs').
Proof.
  intros He Hp. rewrite imwrite_run, He, Hp. cbn [negb orb].
  destruct (writable (disk st) p).
  - eexists; reflexivity.
  - exists (disk st). destruct st; reflexivity.
Qed.

Lemma bind_run {A B} (m : M A) (f : A -> M B) (st : state) :
  (m ≫= f) st
  = match m st with
    | (Ok a, st') => f a st'
    | (Raise e, st') => (Raise e, st')
    end.
Proof. reflexivity. Qed.

Lemma classify_run (scan : gray_image) (st : state) :
  classify scan st
  = if (threshold (self st) <? 0) || (255 <? threshold (self st))
    then (Raise InvalidThreshold, st)
    else (Ok (Cv2.threshold_binary_inv scan (threshold (self st)) 255), st).
Proof.
  unfold classify. run.
  destruct ((threshold (self st) <? 0) || (255 <? threshold (self st)));
    reflexivity.
Qed.

Lemma remove_small_and_background_run (labels : gray_image) (st : state) :
  remove_small_and_background (Np.unique_counts labels) st
  = if cut_off (self st) <? 0
    then (Raise InvalidCutoff, st)
    else (Ok (map snd (surviving (cut_off (self st)) (region_records labels))),
          st).
Proof.
  destruct (cut_off (self st) <? 0) eqn:E.
  - apply remove_small_and_background_negative. lia.
  - apply remove_small_and_background_ok. lia.
Qed.

(** Lines 114-116, case by case. *)
Lemma save_image_run (img : string) (mask : gray_image) (c : Config) (st : state) :
  save_image lib img mask c st
  = if String.eqb (output_dir c) EmptyString then (Ok tt, st)
    else if Cv2.empty mask || negb (Cv2.find_encoder lib 1 (mask_file lib c img))
    then (Raise Cv2Error, st)
    else (Ok tt, if writable (disk st) (mask_file lib c img)
                 then State (self st)
                        (<[mask_file lib c img := written (Cv2.gray_to_bgr mask)]>
                           (disk st))
                 else st).
Proof.
  unfold save_image. destruct (String.eqb (output_dir c) EmptyString); cbn [negb when].
  - reflexivity.
  - fold (mask_file lib c img). rewrite imwrite_run.
    unfold Cv2.gray_to_bgr at 1. rewrite empty_map. reflexivity.
Qed.

(** [estimate] on one file, case by case. *)
Lemma estimate_file_cases (img : string) (st : state) :
  estimate_file lib img st
  = match resolve lib (self st) (disk st) img with
    | Raise e => (Raise e, st)
    | Ok dpi =>
        let c := set_res dpi (self st) in
        let st1 := State c (disk st) in
        match Cv2.imread (disk st) (expanduser lib img) with
        | None => (Raise Cv2Error, st1)
        | Some scan =>
            if (threshold c <? 0) || (255 <? threshold c)
            then (Raise InvalidThreshold, st1)
            else if cut_off c <? 0 then (Raise InvalidCutoff, st1)
            else
              match pixels_to_cm2 dpi (surviving_counts lib c scan) with
              | Raise e => (Raise e, st1)
              | Ok areas =>
                  match save_image lib img (binary_mask lib c scan) c st1 with
                  | (Ok _, st2) =>
                      (Ok (if combine c then [(img, Np.sum areas)]
                           else rows_of img areas), st2)
                  | (Raise e, st2) => (Raise e, st2)
                  end
              end
        end
    end.
Proof.
  unfold estimate_file.
  rewrite bind_run, read_resolution_run.
  destruct (resolve lib (self st) (disk st) img) as [dpi|e]; [|reflexivity].
  cbv zeta. rewrite bind_run. unfold get_disk at 1. cbn [disk].
  destruct (Cv2.imread (disk st) (expanduser lib img)) as [scan|];
    [|reflexivity].
  rewrite bind_run, classify_run. cbn [self].
  destruct ((threshold _ <? 0) || (255 <? threshold _)); [reflexivity|].
  rewrite bind_run, remove_small_and_background_run. cbn [self].
  destruct (cut_off _ <? 0); [reflexivity|].
  rewrite bind_run. unfold get_self at 1. cbn [self].
  rewrite bind_run. unfold lift at 1.
  unfold binary_mask, surviving_counts, binary_mask.
  cbn [res set_res combine threshold cut_off].
  destruct (pixels_to_cm2 _ _) as [areas|e]; [|reflexivity].
  rewrite bind_run. fold (save_image lib img
    (Cv2.threshold_binary_inv (map (map (luma lib)) scan)
       (threshold (self st)) 255) (set_res dpi (self st))).
  destruct (save_image _ _ _ _ _) as [[[]|e] st2]; [|reflexivity].
  destruct (combine (self st)); reflexivity.
Qed.


End Estimate.

(** ** The range of the floats *)

Section Floats.


Lemma huge_positive : (0 < Float64.huge)%Q.
Proof. vm_compute. reflexivity. Qed.







Lemma overflow_nonneg (q : Q) : (0 <= q)%Q -> nonneg (Float64.overflow q).
Proof.
  intros Hq. unfold Float64.overflow.
  destruct (Qle_bool Float64.huge (Qabs q)).
  - left. apply Qle_bool_iff in Hq. rewrite Hq. reflexivity.
  - right. exists q. split; [reflexivity|exact Hq].
Qed.

Lemma round_nonneg (q : Q) : (0 <= q)%Q -> nonneg (Float64.round q).
Proof.
  intros Hq. unfold Float64.round.
  destruct (Qle_bool (Qabs q) Float64.tiny).
  - right. exists 0%Q. split; [reflexivity|apply Qle_refl].
  - apply overflow_nonneg, Hq.
Qed.

Lemma square_nonneg (x : Q) : (0 <= x * x)%Q.
Proof. destruct x as [n d]. unfold Qle, Qmult. cbn. nia. Qed.











Lemma squared_density_nonneg (dpi : Q) : nonneg (squared_density dpi).
Proof.
  unfold squared_density, Float64.div, Float64.round, Float64.overflow.
  destruct (Qle_bool (Qabs (dpi / 2.54)) Float64.tiny).
  - cbn [Float64.mul]. apply round_nonneg, square_nonneg.
  - destruct (Qle_bool Float64.huge (Qabs (dpi / 2.54))).
    + destruct (Qle_bool 0 (dpi / 2.54)); left; reflexivity.
    + cbn [Float64.mul]. apply round_nonneg, square_nonneg.
Qed.



Lemma div_count_nonneg (p : Z) (r : float64) :
  0 < p -> nonneg r -> nonneg (Np.div_count p r).
Proof.
  intros Hp [->|(d & -> & Hd)]; cbn [Np.div_count].
  - right. exists 0%Q. split; [reflexivity|apply Qle_refl].
  - destruct (Qeq_bool d 0) eqn:E.
    + destruct (p =? 0) eqn:E1; [lia|]. destruct (0 <? p) eqn:E2; [|lia].
      left; reflexivity.
    + apply round_nonneg. apply Qeq_bool_neq in E.
      apply Qle_shift_div_l.
      * destruct (Qle_lt_or_eq _ _ Hd) as [Hlt|Heq]; [exact Hlt|].
        exfalso. apply E. symmetry. exact Heq.
      * rewrite Qmult_0_l. unfold Qle. cbn. lia.
Qed.



Lemma sum_of_nonneg (qs : list Q) :
  Forall nonneg (map Finite qs) -> (0 <= sum_of qs)%Q.
Proof.
  induction qs as [|q qs IH]; cbn [map]; intros H; [apply Qle_refl|].
  inversion H as [|? ? Hq Hqs]; subst.
  destruct Hq as [Hq|(q' & [= <-] & Hq)]; [discriminate Hq|].
  specialize (IH Hqs). change (sum_of (q :: qs)) with (q + sum_of qs)%Q. lra.
Qed.

(** Once a sum is infinite it stays so. *)
Lemma sum_stays_infinite (areas : list float64) :
  Forall nonneg areas -> fold_left Np.add areas PosInf = PosInf.
Proof.
  induction 1 as [|a areas [->|(q & -> & _)] _ IH]; cbn; auto.
Qed.

(** [a.sum()] on values that are not negative, from an accumulator. *)
Lemma sum_from (areas : list float64) : forall acc,
  Forall nonneg areas -> (0 <= acc)%Q -> (acc < Float64.huge)%Q ->
  nonneg (fold_left Np.add areas (Finite acc))
  /\ (In PosInf areas -> fold_left Np.add areas (Finite acc) = PosInf)
  /\ forall qs, areas = map Finite qs ->
       ((acc + sum_of qs < Float64.huge)%Q ->
        exists s, fold_left Np.add areas (Finite acc) = Finite s
                  /\ (s == acc + sum_of qs)%Q)
       /\ ((Float64.huge <= acc + sum_of qs)%Q ->
           fold_left Np.add areas (Finite acc) = PosInf).
Proof.
  induction areas as [|a areas IH]; intros acc Hall Hacc Hhuge.
  - cbn. split; [right; exists acc; split; [reflexivity|exact Hacc]|].
    split; [contradiction|].
    intros [|q qs] Hqs; [|discriminate Hqs]. cbn. split.
    + intros _. exists acc. split; [reflexivity|ring].
    + intros H. exfalso. lra.
  - inversion Hall as [|? ? Ha Hareas]; subst.
    destruct Ha as [->|(q & -> & Hq)].
    + cbn. rewrite (sum_stays_infinite _ Hareas).
      split; [left; reflexivity|]. split; [reflexivity|].
      intros [|q qs] Hqs; discriminate Hqs.
    + cbn [fold_left Np.add]. unfold Float64.overflow.
      assert (Habs : (Qabs (acc + q) == acc + q)%Q) by (apply Qabs_pos; lra).
      destruct (Qle_bool Float64.huge (Qabs (acc + q))) eqn:E.
      * apply Qle_bool_iff in E. rewrite Habs in E.
        assert (Hpos : Qle_bool 0 (acc + q) = true) by (apply Qle_bool_iff; lra).
        rewrite Hpos. cbn [Float64.infinity].
        rewrite (sum_stays_infinite _ Hareas).
        split; [left; reflexivity|]. split; [reflexivity|].
        intros [|q' qs] Hqs; [discriminate Hqs|].
        injection Hqs as <- ->.
        change (sum_of (q :: qs)) with (q + sum_of qs)%Q.
        pose proof (sum_of_nonneg qs Hareas) as Hsum.
        split; [intros H; exfalso; lra|reflexivity].
      * assert (Hlt : (acc + q < Float64.huge)%Q).
        { apply Qnot_le_lt. intros H. apply not_true_iff_false in E.
          apply E, Qle_bool_iff. rewrite Habs. exact H. }
        destruct (IH (acc + q)%Q Hareas ltac:(lra) Hlt) as (H1 & H2 & H3).
        split; [exact H1|]. split.
        { intros [Hin|Hin]; [discriminate Hin|exact (H2 Hin)]. }
        intros [|q' qs] Hqs; [discriminate Hqs|].
        injection Hqs as <- ->.
        change (sum_of (q :: qs)) with (q + sum_of qs)%Q.
        destruct (H3 qs eq_refl) as [H4 H5]. split.
        { intros H. destruct H4 as (s & Hs & Hs'); [lra|].
          exists s. split; [exact Hs|]. rewrite Hs'. ring. }
        { intros H. apply H5. lra. }
Qed.

(** [a.sum()] on values that are not negative: the exact sum when all are
    finite and it stays in the range, and infinite otherwise. *)
Lemma sum_nonneg (areas : list float64) :
  Forall nonneg areas ->
  nonneg (Np.sum areas)
  /\ (In PosInf areas -> Np.sum areas = PosInf)
  /\ forall qs, areas = map Finite qs ->
       ((sum_of qs < Float64.huge)%Q ->
        exists s, Np.sum areas = Finite s /\ (s == sum_of qs)%Q)
       /\ ((Float64.huge <= sum_of qs)%Q -> Np.sum areas = PosInf).
Proof.
  intros Hall. unfold Np.sum.
  destruct (sum_from areas 0%Q Hall (Qle_refl 0) huge_positive) as (H1 & H2 & H3).
  split; [exact H1|]. split; [exact H2|].
  intros qs Hqs. destruct (H3 qs Hqs) as [H4 H5]. split.
  - intros H. destruct H4 as (s & Hs & Hs'); [lra|].
    exists s. split; [exact Hs|]. rewrite Hs'. ring.
  - intros H. apply H5. lra.
Qed.

End Floats.

(** ** From pixels to square centimetres *)

Section Conversion.

Import EstimateLeafArea.

(** Lines 109-111, case by case. *)
Lemma pixels_to_cm2_run (dpi : Q) (areas : list Z) :
  pixels_to_cm2 dpi areas
  = if Qle_bool Float64.huge (Qabs dpi) then Raise OverflowError
    else Ok (map (fun p => Np.div_count p (squared_density dpi)) areas).
Proof.
  unfold pixels_to_cm2, Float64.of_number.
  destruct (Qle_bool Float64.huge (Qabs dpi)); reflexivity.
Qed.


Lemma pixels_to_cm2_converts (dpi : Q) (areas : list Z) :
  (Qabs dpi < Float64.huge)%Q ->
  pixels_to_cm2 dpi areas
  = Ok (map (fun p => Np.div_count p (squared_density dpi)) areas).
Proof.
  intros H. rewrite pixels_to_cm2_run.
  destruct (Qle_bool Float64.huge (Qabs dpi)) eqn:E; [|reflexivity].
  apply Qle_bool_iff in E. exfalso. exact (Qlt_not_le _ _ H E).
Qed.



Lemma pixels_to_cm2_nonneg (dpi : Q) (counts : list Z) (areas : list float64) :
  Forall (fun p => 0 < p) counts ->
  pixels_to_cm2 dpi counts = Ok areas ->
  Forall nonneg areas.
Proof.
  intros Hpos. rewrite pixels_to_cm2_run.
  destruct (Qle_bool Float64.huge (Qabs dpi)); [discriminate|].
  intros [= <-]. induction Hpos as [|p counts Hp _ IH]; cbn; constructor.
  - apply div_count_nonneg; [exact Hp|apply squared_density_nonneg].
  - exact IH.
Qed.





End Conversion.

(** ** Aggregation *)

Section Aggregation.

Import EstimateLeafArea.
Context (lib : Collaborators).

Lemma rows_of_areas (img : string) (areas : list float64) :
  map snd (rows_of img areas) = areas
  /\ Forall (fun row => fst row = img) (rows_of img areas).
Proof.
  unfold rows_of. induction areas as [|a areas [IH1 IH2]]; cbn.
  - split; [reflexivity|constructor].
  - split; [f_equal; exact IH1|constructor; [reflexivity|exact IH2]].
Qed.

Lemma rows_of_nonneg (img : string) (areas : list float64) :
  Forall nonneg areas ->
  Forall (fun row => fst row = img /\ nonneg (snd row)) (rows_of img areas).
Proof.
  unfold rows_of. induction 1; cbn; constructor; auto.
Qed.

Lemma surviving_counts_positive (c : Config) (scan : image) :
  Forall (fun p => 0 < p) (surviving_counts lib c scan).
Proof.
  unfold surviving_counts.
  set (records := region_records _).
  assert (Hpos : forall l n, In (l, n) records -> 0 < n).
  { intros l n Hin. apply region_records_spec in Hin. tauto. }
  clearbody records. unfold surviving.
  induction records as [|[l n] r IH]; cbn; [constructor|].
  assert (Hr : forall l' n', In (l', n') r -> 0 < n')
    by (intros; eapply Hpos; right; eassumption).
  destruct (survives (cut_off c) (l, n)); cbn; [constructor|]; auto.
  eapply Hpos; left; reflexivity.
Qed.

(** C4.  For every single file, whatever the configuration and the file
    system: when the run with combine = false returns its per-region rows,
    each for the file and with an area that is not negative, the run with
    combine = true returns exactly one row for the file, whose area is the
    sum of the areas of those rows: 0 when there is none, their exact sum
    when all are finite and the sum stays within the range of the floats,
    and infinite when one of them is or the sum leaves the range.  When
    the former run fails, the latter fails alike.  Both runs leave the
    same files behind. *)
Theorem combined_row_sums_regions (img : string) (c : Config) (fs : filesystem) :
  let per_region := estimate_file lib img (State (set_combine false c) fs) in
  let combined := estimate_file lib img (State (set_combine true c) fs) in
  disk (snd combined) = disk (snd per_region)
  /\ match fst per_region with
     | Ok rows =>
         Forall (fun row => fst row = img /\ nonneg (snd row)) rows
         /\ exists a,
              fst combined = Ok [(img, a)]
              /\ (rows = [] -> a = Finite 0)
              /\ (In PosInf (map snd rows) -> a = PosInf)
              /\ forall qs, map snd rows = map Finite qs ->
                   ((sum_of qs < Float64.huge)%Q ->
                    exists s, a = Finite s /\ (s == sum_of qs)%Q)
                   /\ ((Float64.huge <= sum_of qs)%Q -> a = PosInf)
     | Raise e => fst combined = Raise e
     end.
Proof.
  cbv zeta. rewrite !estimate_file_cases. cbn [self disk].
  change (resolve lib (set_combine true c) fs img) with (resolve lib c fs img).
  change (resolve lib (set_combine false c) fs img) with (resolve lib c fs img).
  destruct (resolve lib c fs img) as [dpi|e]; [|split; reflexivity].
  cbv zeta.
  destruct (Cv2.imread fs (expanduser lib img)) as [scan|];
    [|split; reflexivity].
  cbn [threshold cut_off combine set_res set_combine].
  destruct ((threshold c <? 0) || (255 <? threshold c)); [split; reflexivity|].
  destruct (cut_off c <? 0); [split; reflexivity|].
  change (surviving_counts lib (set_res dpi (set_combine true c)) scan)
    with (surviving_counts lib (set_res dpi (set_combine false c)) scan).
  pose proof (surviving_counts_positive (set_res dpi (set_combine false c)) scan)
    as Hpos.
  destruct (pixels_to_cm2 dpi _) as [areas|e] eqn:Hareas; [|split; reflexivity].
  apply (pixels_to_cm2_nonneg _ _ _ Hpos) in Hareas.
  destruct (rows_of_areas img areas) as [H1 _].
  pose proof (rows_of_nonneg img areas Hareas) as H2.
  destruct (sum_nonneg areas Hareas) as (_ & H4 & H5).
  assert (H3 : rows_of img areas = [] -> Np.sum areas = Finite 0)
    by (destruct areas; [reflexivity|discriminate]).
  rewrite !save_image_run. cbn [output_dir set_res set_combine disk].
  change (mask_file lib (set_res dpi (set_combine true c)) img)
    with (mask_file lib (set_res dpi (set_combine false c)) img).
  change (binary_mask lib (set_res dpi (set_combine true c)) scan)
    with (binary_mask lib (set_res dpi (set_combine false c)) scan).
  assert (Hok : Forall (fun row => fst row = img /\ nonneg (snd row))
                       (rows_of img areas)
                /\ exists a,
                     @Ok DataFrame [(img, Np.sum areas)] = Ok [(img, a)]
                     /\ (rows_of img areas = [] -> a = Finite 0)
                     /\ (In PosInf (map snd (rows_of img areas)) -> a = PosInf)
                     /\ forall qs, map snd (rows_of img areas) = map Finite qs ->
                          ((sum_of qs < Float64.huge)%Q ->
                           exists s, a = Finite s /\ (s == sum_of qs)%Q)
                          /\ ((Float64.huge <= sum_of qs)%Q -> a = PosInf)).
  { split; [exact H2|]. exists (Np.sum areas). rewrite H1.
    split; [reflexivity|]. split; [exact H3|]. split; [exact H4|exact H5]. }
  destruct (String.eqb (output_dir c) EmptyString); [split; [reflexivity|exact Hok]|].
  destruct (Cv2.empty _ || negb _); [split; reflexivity|].
  cbn [fst snd disk].
  destruct (writable fs _); split; try reflexivity; exact Hok.
Qed.

End Aggregation.

(** ** The resolution is not validated *)

Section Resolution.

Import EstimateLeafArea.
Context (lib : Collaborators).





End Resolution.

(** ** The configuration across a run of [estimate] *)

Section Frame.

Import EstimateLeafArea.
Context (lib : Collaborators).

Lemma save_image_self img mask c st :
  self (snd (save_image lib img mask c st)) = self st.
Proof.
  rewrite save_image_run.
  destruct (String.eqb _ _); [reflexivity|].
  destruct (_ || _); [reflexivity|].
  destruct (writable _ _); reflexivity.
Qed.

(** Of the attributes, a run on one file can only change [res]: it is set
    to the resolution the run resolved, and left alone when resolving
    failed. *)
Lemma estimate_file_self (img : string) (st : state) :
  self (snd (estimate_file lib img st))
  = match resolve lib (self st) (disk st) img with
    | Ok dpi => set_res dpi (self st)
    | Raise _ => self st
    end.
Proof.
  rewrite estimate_file_cases.
  destruct (resolve lib (self st) (disk st) img) as [dpi|e]; [|reflexivity].
  cbv zeta. destruct (Cv2.imread _ _) as [scan|]; [|reflexivity].
  destruct (_ || _); [reflexivity|].
  destruct (cut_off _ <? 0); [reflexivity|].
  destruct (pixels_to_cm2 _ _) as [areas|e]; [|reflexivity].
  pose proof (save_image_self img
    (binary_mask lib (set_res dpi (self st)) scan) (set_res dpi (self st))
    (State (set_res dpi (self st)) (disk st))) as Hs.
  destruct (save_image _ _ _ _ _) as [[[]|e] st2]; exact Hs.
Qed.

Lemma estimate_file_keeps_override (img : string) (st : state) :
  Qeq_bool (res (self st)) 0 = false ->
  self (snd (estimate_file lib img st)) = self st.
Proof.
  intros Hres. rewrite estimate_file_self. unfold resolve. rewrite Hres.
  apply set_res_same.
Qed.

End Frame.

(** C9 (the code departs from it).  A run of [estimate] on a file whose
    resolution comes from the metadata stores that resolution in the
    configuration: with [res] = 0 before the call on a 300 dpi scan, [res]
    is 300 after it, and a later call on a 600 dpi scan, made on the same
    object, is measured at 300 dpi. *)
Theorem estimate_overwrites_res :
  let st := State small_config Sample.disk in
  let st' := snd (EstimateLeafArea.estimate_file Fixture.lib "/scans/leaf.jpg" st) in
  res (self st) = 0%Q
  /\ res (self st') = 300%Q
  /\ self st' <> self st
  /\ exists a a',
       fst (EstimateLeafArea.estimate_file Fixture.lib "/scans/fine.jpg" st)
       = Ok [("/scans/fine.jpg", Finite a)]
       /\ fst (EstimateLeafArea.estimate_file Fixture.lib "/scans/fine.jpg" st')
          = Ok [("/scans/fine.jpg", Finite a')]
       /\ (a == 24 / ((600 / 2.54) ^ 2))%Q
       /\ (a' == 24 / ((300 / 2.54) ^ 2))%Q
       /\ (a' == 4 * a)%Q.
Proof.
  cbv zeta. split; [reflexivity|].
  assert (Hres : res (self (snd (EstimateLeafArea.estimate_file Fixture.lib
                   "/scans/leaf.jpg" (State small_config Sample.disk)))) = 300%Q)
    by (vm_compute; reflexivity).
  split; [exact Hres|].
  split; [intros H; rewrite H in Hres; discriminate Hres|].
  eexists; eexists.
  split; [vm_compute; reflexivity|].
  split; [vm_compute; reflexivity|].
  repeat split; vm_compute; reflexivity.
Qed.

(** ** Slices *)

Section Slices.

Context {A : Type}.

Lemma clip_inside (len i : Z) : 0 <= i <= len -> Np.clip len i = i.
Proof. intros H. unfold Np.clip. destruct (i <? 0) eqn:E; lia. Qed.

Lemma clip_range (len i : Z) : 0 <= len -> 0 <= Np.clip len i <= len.
Proof. intros H. unfold Np.clip. destruct (i <? 0) eqn:E; lia. Qed.

Lemma slice_length (start stop : Z) (l : list A) :
  0 <= start <= stop -> stop <= Z.of_nat (length l) ->
  Z.of_nat (length (Np.slice start stop l)) = stop - start.
Proof.
  intros H1 H2. unfold Np.slice.
  rewrite !clip_inside by lia.
  rewrite length_firstn, length_skipn. lia.
Qed.

Lemma slice_inverted (start stop : Z) (l : list A) :
  0 <= stop <= start -> Np.slice start stop l = [].
Proof.
  intros H. unfold Np.slice.
  assert (Hlen : 0 <= Z.of_nat (length l)) by lia.
  assert (Hle : Np.clip (Z.of_nat (length l)) stop
                <= Np.clip (Z.of_nat (length l)) start).
  { unfold Np.clip. destruct (stop <? 0) eqn:E1, (start <? 0) eqn:E2; lia. }
  replace (Z.to_nat _) with 0%nat by lia. reflexivity.
Qed.

Lemma lookup_mapi_from (f : Z -> A -> A) (l : list A) : forall (i : Z) (k : nat),
  Np.mapi_from i f l !! k = option_map (f (i + Z.of_nat k)) (l !! k).
Proof.
  induction l as [|x l IH]; intros i [|k]; cbn [Np.mapi_from]; try reflexivity.
  - cbn. rewrite Z.add_0_r. reflexivity.
  - change ((f i x :: Np.mapi_from (i + 1) f l) !! S k)
      with (Np.mapi_from (i + 1) f l !! k).
    change ((x :: l) !! S k) with (l !! k).
    rewrite IH. f_equal. f_equal. lia.
Qed.

Lemma length_mapi_from (f : Z -> A -> A) (l : list A) (i : Z) :
  length (Np.mapi_from i f l) = length l.
Proof. revert i. induction l as [|x l IH]; intros i; cbn; [|rewrite IH]; reflexivity. Qed.

Lemma length_assign (start stop : Z) (f : A -> A) (l : list A) :
  length (Np.assign start stop f l) = length l.
Proof. apply length_mapi_from. Qed.

(** With bounds that are not negative, the assignment reaches exactly the
    cells whose index lies between them. *)
Lemma lookup_assign (start stop : Z) (f : A -> A) (l : list A) (k : nat) :
  0 <= start -> 0 <= stop ->
  Np.assign start stop f l !! k
  = option_map (fun x => if (start <=? Z.of_nat k) && (Z.of_nat k <? stop)
                         then f x else x) (l !! k).
Proof.
  intros H1 H2. unfold Np.assign. rewrite lookup_mapi_from.
  destruct (l !! k) as [x|] eqn:Hk; [|reflexivity]. cbn.
  apply lookup_lt_Some in Hk.
  unfold Np.clip.
  destruct (start <? 0) eqn:E1; [lia|]. destruct (stop <? 0) eqn:E2; [lia|].
  rewrite Z.add_0_l.
  replace (Z.min start (Z.of_nat (length l)) <=? Z.of_nat k)
    with (start <=? Z.of_nat k) by lia.
  replace (Z.of_nat k <? Z.min stop (Z.of_nat (length l)))
    with (Z.of_nat k <? stop) by lia.
  reflexivity.
Qed.

End Slices.

Lemma cell_assign2 {A} (y0 y1 x0 x1 : Z) (f : A -> A) (scan : list (list A)) i j :
  0 <= y0 -> 0 <= y1 -> 0 <= x0 -> 0 <= x1 ->
  cell (Np.assign2 y0 y1 x0 x1 f scan) i j
  = option_map (fun x => if in_window y0 y1 x0 x1 i j then f x else x)
               (cell scan i j).
Proof.
  intros Hy0 Hy1 Hx0 Hx1. unfold cell, Np.assign2, in_window.
  rewrite lookup_assign by assumption.
  destruct (scan !! i) as [row|]; cbn; [|reflexivity].
  destruct ((y0 <=? Z.of_nat i) && (Z.of_nat i <? y1)); cbn.
  - apply lookup_assign; assumption.
  - destruct (row !! j); reflexivity.
Qed.

(** ** One file through [preprocess] *)

Section Preprocess.

Import EstimateLeafArea.
Context (lib : Collaborators).

Lemma crop_edges_run (dims : Z * Z) (scan : image) (st : state) :
  crop_edges dims scan st
  = (if crop (self st) =? 0 then Ok scan
     else if crop (self st) <? 0 then Raise NegativeCrop
     else if (fst dims <? crop (self st)) || (snd dims <? crop (self st))
     then Raise CropExceedsBounds
     else Ok (Np.slice2 (crop (self st)) (fst dims - crop (self st))
                        (crop (self st)) (snd dims - crop (self st)) scan),
     st).
Proof.
  unfold crop_edges. run.
  destruct (crop (self st) =? 0); [reflexivity|]. cbn.
  destruct (crop (self st) <? 0); [reflexivity|].
  destruct ((fst dims <? crop (self st)) || (snd dims <? crop (self st)));
    reflexivity.
Qed.

Lemma mask_existing_scale_run (dims : Z * Z) (scan : image) (st : state) :
  let c := self st in
  let y0 := mask_offset_y c in
  let y1 := mask_offset_y c + mask_pixels c in
  let x0 := mask_offset_x c in
  let x1 := mask_offset_x c + mask_pixels c in
  mask_existing_scale dims scan st
  = (if mask_scale c =? 0 then Ok scan
     else if (mask_offset_y c <? 0) || (mask_offset_x c <? 0)
             || (mask_pixels c <? 0)
     then Raise NegativeMaskParameter
     else if (fst dims <? y1) || (snd dims <? x1) then Raise MaskExceedsBounds
     else Ok (Np.assign2 y0 y1 x0 x1 (set_red 255)
                (Np.assign2 y0 y1 x0 x1 (set_green 255)
                   (Np.assign2 y0 y1 x0 x1 (set_blue 255) scan))),
     st).
Proof.
  cbv zeta. unfold mask_existing_scale. run.
  destruct (mask_scale (self st) =? 0); [reflexivity|]. cbn.
  destruct ((mask_offset_y (self st) <? 0) || (mask_offset_x (self st) <? 0)
            || (mask_pixels (self st) <? 0)); [reflexivity|].
  destruct ((fst dims <? _) || (snd dims <? _)); reflexivity.
Qed.

Lemma add_red_scale_run (dims : Z * Z) (scan : image) (st : state) :
  let n := red_scale_pixels (self st) in
  add_red_scale dims scan st
  = (if red_scale (self st) =? 0 then Ok scan
     else if (fst dims <? n) || (snd dims <? n) then Raise ScaleBarExceedsBounds
     else Ok (Np.assign2 0 n 0 n (set_red 255)
                (Np.assign2 0 n 0 n (set_green 0)
                   (Np.assign2 0 n 0 n (set_blue 0) scan))),
     st).
Proof.
  cbv zeta. unfold add_red_scale. run.
  destruct (red_scale (self st) =? 0); [reflexivity|]. cbn.
  destruct ((fst dims <? _) || (snd dims <? _)); reflexivity.
Qed.

(** The three transformations read the configuration and touch neither it
    nor the file system. *)
Lemma transformations_pure (dims : Z * Z) (scan : image) (st : state) :
  crop_edges dims scan st = (fst (crop_edges dims scan st), st)
  /\ mask_existing_scale dims scan st
     = (fst (mask_existing_scale dims scan st), st)
  /\ add_red_scale dims scan st = (fst (add_red_scale dims scan st), st).
Proof.
  rewrite crop_edges_run. pose proof (mask_existing_scale_run dims scan st) as Hm.
  cbv zeta in Hm. rewrite Hm.
  pose proof (add_red_scale_run dims scan st) as Hr. cbv zeta in Hr. rewrite Hr.
  repeat split.
Qed.

Lemma makedirs_self (p : string) (st : state) :
  self (snd (makedirs p st)) = self st.
Proof. unfold makedirs. run. destruct (disk st !! p); reflexivity. Qed.

(** [preprocess] on one file, case by case. *)
Lemma preprocess_file_cases (img : string) (st : state) :
  let c := self st in
  preprocess_file lib img st
  = match when (String.eqb (output_dir c) EmptyString)
               (makedirs (fst (Path.split img) +:+ "/preprocessed")) st with
    | (Raise e, st1) => (Raise e, st1)
    | (Ok _, st1) =>
        if String.eqb (fst (Path.split img)) (output_dir c)
        then (Raise IdenticalSourceDestination, st1)
        else
          match Cv2.imread (disk st1) (expanduser lib img) with
          | None => (Raise AttributeError, st1)
          | Some scan =>
              match fst (crop_edges (shape scan) scan st1) with
              | Raise e => (Raise e, st1)
              | Ok scan1 =>
                  match fst (mask_existing_scale (shape scan) scan1 st1) with
                  | Raise e => (Raise e, st1)
                  | Ok scan2 =>
                      match fst (add_red_scale (shape scan) scan2 st1) with
                      | Raise e => (Raise e, st1)
                      | Ok scan3 => Cv2.imwrite lib 3 (output_file lib c img) scan3 st1
                      end
                  end
              end
          end
    end.
Proof.
  cbv zeta. unfold preprocess_file.
  rewrite bind_run. unfold get_self at 1.
  rewrite bind_run.
  destruct (when _ _ st) as [[[]|e] st1]; [|reflexivity].
  rewrite bind_run. unfold raise_if at 1.
  destruct (String.eqb (fst (Path.split img)) (output_dir (self st)));
    [reflexivity|].
  unfold mret at 1, M_ret at 1.
  rewrite bind_run. unfold get_disk at 1.
  destruct (Cv2.imread (disk st1) (expanduser lib img)) as [scan|];
    [|reflexivity].
  rewrite bind_run.
  destruct (transformations_pure (shape scan) scan st1) as (Hc & _ & _).
  destruct (crop_edges (shape scan) scan st1) as [r1 s1].
  cbn [fst] in *. injection Hc as ->.
  destruct r1 as [scan1|e]; [|reflexivity].
  rewrite bind_run.
  destruct (transformations_pure (shape scan) scan1 st1) as (_ & Hm & _).
  destruct (mask_existing_scale (shape scan) scan1 st1) as [r2 s2].
  cbn [fst] in *. injection Hm as ->.
  destruct r2 as [scan2|e]; [|reflexivity].
  rewrite bind_run.
  destruct (transformations_pure (shape scan) scan2 st1) as (_ & _ & Hr).
  destruct (add_red_scale (shape scan) scan2 st1) as [r3 s3].
  cbn [fst] in *. injection Hr as ->.
  destruct r3 as [scan3|e]; reflexivity.
Qed.

End Preprocess.

(** ** Cropping *)

Section Cropping.

Import EstimateLeafArea.

Lemma firstn_incl {A} (n : nat) (l : list A) (x : A) :
  In x (firstn n l) -> In x l.
Proof.
  revert l. induction n as [|n IH]; intros [|y l]; cbn; try tauto.
  intros [->|H]; [left; reflexivity|right; apply IH, H].
Qed.

Lemma skipn_incl {A} (n : nat) (l : list A) (x : A) :
  In x (skipn n l) -> In x l.
Proof.
  revert l. induction n as [|n IH]; intros [|y l]; cbn; try tauto.
  intros H. right. apply IH, H.
Qed.

Lemma slice_incl {A} (start stop : Z) (l : list A) (x : A) :
  In x (Np.slice start stop l) -> In x l.
Proof.
  unfold Np.slice. intros H. eapply skipn_incl, firstn_incl, H.
Qed.

(** Cropping by k with 0 <= k and 2k within both dimensions leaves
    H - 2k rows of W - 2k pixels. *)
Lemma crop_within_half (st : state) (scan : image) (H W : Z) :
  let k := crop (self st) in
  shape scan = (H, W) -> row_width W scan ->
  0 <= k -> 2 * k <= H -> 2 * k <= W ->
  exists scan',
    crop_edges (shape scan) scan st = (Ok scan', st)
    /\ Z.of_nat (length scan') = H - 2 * k
    /\ row_width (W - 2 * k) scan'.
Proof.
  intros k Hshape Hrows Hk HH HW. rewrite crop_edges_run, Hshape. cbn [fst snd].
  fold k. unfold shape in Hshape. injection Hshape as HlenH HlenW.
  destruct (k =? 0) eqn:E0.
  - exists scan. split; [reflexivity|].
    split; [lia|]. replace (W - 2 * k) with W by lia. exact Hrows.
  - destruct (k <? 0) eqn:E1; [lia|].
    destruct ((H <? k) || (W <? k)) eqn:E2; [lia|].
    eexists. split; [reflexivity|]. unfold Np.slice2. split.
    + rewrite length_map, slice_length by lia. lia.
    + unfold row_width in *. apply List.Forall_forall. intros row Hin.
      apply in_map_iff in Hin. destruct Hin as (row0 & <- & Hin0).
      apply slice_incl in Hin0.
      rewrite List.Forall_forall in Hrows. specialize (Hrows row0 Hin0).
      rewrite slice_length by lia. lia.
Qed.

Lemma crop_negative (dims : Z * Z) (scan : image) (st : state) :
  crop (self st) < 0 ->
  crop_edges dims scan st = (Raise NegativeCrop, st).
Proof.
  intros Hk. rewrite crop_edges_run.
  destruct (crop (self st) =? 0) eqn:E0; [lia|].
  destruct (crop (self st) <? 0) eqn:E1; [reflexivity|lia].
Qed.

(** The bound the code checks is the dimension itself. *)
Lemma crop_rejected_iff (dims : Z * Z) (scan : image) (st : state) :
  crop_edges dims scan st = (Raise CropExceedsBounds, st)
  <-> 0 < crop (self st)
      /\ (fst dims < crop (self st) \/ snd dims < crop (self st)).
Proof.
  rewrite crop_edges_run.
  destruct (crop (self st) =? 0) eqn:E0; [split; [discriminate|lia]|].
  destruct (crop (self st) <? 0) eqn:E1; [split; [discriminate|lia]|].
  destruct ((fst dims <? crop (self st)) || (snd dims <? crop (self st))) eqn:E2.
  - split; [lia|reflexivity].
  - split; [discriminate|lia].
Qed.

(** A margin between half a dimension and the dimension passes the check
    and leaves no row. *)
Lemma crop_beyond_half (st : state) (scan : image) (H W : Z) :
  let k := crop (self st) in
  shape scan = (H, W) ->
  0 < k -> H <= 2 * k -> k <= H -> k <= W ->
  crop_edges (shape scan) scan st = (Ok [], st).
Proof.
  intros k Hshape Hk Hhalf HH HW. rewrite crop_edges_run, Hshape. cbn [fst snd].
  fold k.
  destruct (k =? 0) eqn:E0; [lia|].
  destruct (k <? 0) eqn:E1; [lia|].
  destruct ((H <? k) || (W <? k)) eqn:E2; [lia|].
  unfold Np.slice2. rewrite slice_inverted by lia. reflexivity.
Qed.

End Cropping.

(** C6 (the code departs from it).  Cropping a 10 x 10 image by 6, which
    exceeds half of either dimension, does not fail with CropExceedsBounds:
    the margin passes the check against the full dimension, the crop leaves
    an image without rows, and the run ends in the assertion of the
    image writer with nothing written. *)
Theorem crop_beyond_half_not_rejected :
  let st := State (with_crop 6 (with_output "/out" default_config)) Sample.disk in
  let scan := Sample.blank 10 10 in
  Cv2.imread (disk st) "/scans/blank.jpg" = Some scan
  /\ shape scan = (10, 10)
  /\ EstimateLeafArea.crop_edges (shape scan) scan st = (Ok [], st)
  /\ EstimateLeafArea.preprocess_file Fixture.lib "/scans/blank.jpg" st
     = (Raise Cv2Error, st).
Proof. cbv zeta. repeat split; vm_compute; reflexivity. Qed.

(** ** Source and destination *)

Section Destination.

Import EstimateLeafArea.
Context (lib : Collaborators).


End Destination.



(** The check of line 150 compares two strings.  With the output
    directory [/scans/], which is the directory of [/scans/leaf.jpg] under
    another spelling, nothing is raised, the output file is the source file
    itself, and the source is replaced by the processed image. *)
Example same_directory_under_another_spelling :
  let st := State (with_output "/scans/" default_config) Sample.disk in
  let run := EstimateLeafArea.preprocess_file Fixture.lib "/scans/leaf.jpg" st in
  fst (Path.split "/scans/leaf.jpg") <> output_dir (self st)
  /\ fst run = Ok tt
  /\ output_file Fixture.lib (self st) "/scans/leaf.jpg" = "/scans/leaf.jpg"
  /\ disk st !! "/scans/leaf.jpg"
     = Some (Sample.scanned 300 Sample.leaf_and_speck)
  /\ disk (snd run) !! "/scans/leaf.jpg"
     = Some (written Sample.leaf_and_speck).
Proof.
  cbv zeta. split; [vm_compute; discriminate|].
  repeat split; vm_compute; reflexivity.
Qed.

(** ** Scale masking *)

Section Masking.

Import EstimateLeafArea.
Context (lib : Collaborators).

Lemma imwrite_same_outcome (n : Z) (p : string) (scan : image)
    (c1 c2 : Config) fs :
  same_outcome (Cv2.imwrite lib n p scan (State c1 fs))
               (Cv2.imwrite lib n p scan (State c2 fs)).
Proof.
  unfold same_outcome. rewrite !imwrite_run. cbn [disk self].
  destruct (_ || _); [split; reflexivity|].
  destruct (writable fs p); split; reflexivity.
Qed.

(** [preprocess] reads the configuration through the output directory,
    the crop margin, the two attributes of the scale bar, and the scale
    masking step. *)
Lemma preprocess_file_congruence (img : string) (c1 c2 : Config) (fs : filesystem) :
  output_dir c1 = output_dir c2 ->
  crop c1 = crop c2 ->
  red_scale c1 = red_scale c2 ->
  red_scale_pixels c1 = red_scale_pixels c2 ->
  (forall dims scan fs',
      fst (mask_existing_scale dims scan (State c1 fs'))
      = fst (mask_existing_scale dims scan (State c2 fs'))) ->
  same_outcome (preprocess_file lib img (State c1 fs))
               (preprocess_file lib img (State c2 fs)).
Proof.
  intros Hout Hcrop Hred Hpix Hmask.
  pose proof (preprocess_file_cases lib img (State c1 fs)) as H1.
  pose proof (preprocess_file_cases lib img (State c2 fs)) as H2.
  cbv zeta in H1, H2. rewrite H1, H2. clear H1 H2. cbn [self].
  unfold output_file. rewrite <- Hout.
  assert (Hpre : exists r fs1,
            when (String.eqb (output_dir c1) EmptyString)
                 (makedirs (fst (Path.split img) +:+ "/preprocessed"))
                 (State c1 fs) = (r, State c1 fs1)
            /\ when (String.eqb (output_dir c1) EmptyString)
                 (makedirs (fst (Path.split img) +:+ "/preprocessed"))
                 (State c2 fs) = (r, State c2 fs1)).
  { unfold makedirs. run. destruct (String.eqb (output_dir c1) EmptyString).
    - cbn [when self disk].
      destruct (fs !! (fst (Path.split img) +:+ "/preprocessed"));
        eexists; eexists; split; reflexivity.
    - eexists; eexists; split; reflexivity. }
  destruct Hpre as (r & fs1 & -> & ->).
  destruct r as [[]|e]; [|split; reflexivity].
  destruct (String.eqb _ _); [split; reflexivity|]. cbn [disk].
  destruct (Cv2.imread fs1 (expanduser lib img)) as [scan|];
    [|split; reflexivity].
  rewrite !crop_edges_run. cbn [fst self]. rewrite <- Hcrop.
  destruct (if crop c1 =? 0 then _ else _) as [scan1|e]; [|split; reflexivity].
  rewrite <- Hmask.
  destruct (fst (mask_existing_scale (shape scan) scan1 (State c1 fs1)))
    as [scan2|e]; [|split; reflexivity].
  pose proof (add_red_scale_run (shape scan) scan2 (State c1 fs1)) as Hr1.
  pose proof (add_red_scale_run (shape scan) scan2 (State c2 fs1)) as Hr2.
  cbv zeta in Hr1, Hr2. rewrite Hr1, Hr2. cbn [fst self].
  rewrite <- Hred, <- Hpix.
  destruct (if red_scale c1 =? 0 then _ else _) as [scan3|e];
    [|split; reflexivity].
  apply imwrite_same_outcome.
Qed.

Lemma mask_disabled (dims : Z * Z) (scan : image) (st : state) :
  mask_scale (self st) = 0 ->
  mask_existing_scale dims scan st = (Ok scan, st).
Proof.
  intros H0. pose proof (mask_existing_scale_run dims scan st) as Hm.
  cbv zeta in Hm. rewrite Hm, H0. reflexivity.
Qed.

Lemma set_channels (p : pixel) :
  set_red 255 (set_green 255 (set_blue 255 p)) = BGR 255 255 255.
Proof. reflexivity. Qed.

(** An enabled masking whose window is in range whitens the window and
    nothing else. *)
Lemma mask_enabled (dims : Z * Z) (scan : image) (st : state) :
  let c := self st in
  mask_scale c <> 0 ->
  0 <= mask_offset_y c -> 0 <= mask_offset_x c -> 0 <= mask_pixels c ->
  mask_offset_y c + mask_pixels c <= fst dims ->
  mask_offset_x c + mask_pixels c <= snd dims ->
  exists scan',
    mask_existing_scale dims scan st = (Ok scan', st)
    /\ length scan' = length scan
    /\ forall i j,
         cell scan' i j
         = option_map
             (fun p => if in_window (mask_offset_y c)
                                    (mask_offset_y c + mask_pixels c)
                                    (mask_offset_x c)
                                    (mask_offset_x c + mask_pixels c) i j
                       then BGR 255 255 255 else p)
             (cell scan i j).
Proof.
  intros c Hs Hy Hx Hp HH HW.
  pose proof (mask_existing_scale_run dims scan st) as Hm.
  cbv zeta in Hm. rewrite Hm. clear Hm. fold c.
  destruct (mask_scale c =? 0) eqn:E0; [lia|].
  destruct ((mask_offset_y c <? 0) || (mask_offset_x c <? 0)
            || (mask_pixels c <? 0)) eqn:E1; [lia|].
  destruct ((fst dims <? mask_offset_y c + mask_pixels c)
            || (snd dims <? mask_offset_x c + mask_pixels c)) eqn:E2; [lia|].
  eexists. split; [reflexivity|]. split.
  - unfold Np.assign2. rewrite !length_assign. reflexivity.
  - intros i j. rewrite !cell_assign2 by lia.
    destruct (cell scan i j) as [p|]; cbn; [|reflexivity].
    destruct (in_window _ _ _ _ i j); reflexivity.
Qed.

Lemma preprocess_file_taxonomy_unmasked (img : string) (st : state) :
  mask_scale (self st) = 0 ->
  fst (preprocess_file lib img st) <> Raise NegativeMaskParameter
  /\ fst (preprocess_file lib img st) <> Raise MaskExceedsBounds.
Proof.
  intros H0.
  pose proof (preprocess_file_cases lib img st) as Hc. cbv zeta in Hc.
  rewrite Hc. clear Hc.
  assert (Hpre : forall st1 e,
            when (String.eqb (output_dir (self st)) EmptyString)
                 (makedirs (fst (Path.split img) +:+ "/preprocessed")) st
            = (Raise e, st1) -> e = FileExistsError).
  { unfold makedirs. run. intros st1 e.
    destruct (String.eqb _ _); [|discriminate].
    destruct (disk st !! (fst (Path.split img) +:+ "/preprocessed"));
      [intros [= <- _]; reflexivity|discriminate]. }
  assert (Hself : forall r st1,
            when (String.eqb (output_dir (self st)) EmptyString)
                 (makedirs (fst (Path.split img) +:+ "/preprocessed")) st
            = (r, st1) -> self st1 = self st).
  { unfold makedirs. run. intros r st1.
    destruct (String.eqb _ _); [|intros [= _ <-]; reflexivity].
    destruct (disk st !! (fst (Path.split img) +:+ "/preprocessed"));
      intros [= _ <-]; reflexivity. }
  destruct (when _ _ st) as [[[]|e] st1] eqn:Hw.
  2: { rewrite (Hpre _ _ eq_refl). split; cbn [fst]; discriminate. }
  specialize (Hself _ _ eq_refl).
  destruct (String.eqb (fst (Path.split img)) _);
    [split; cbn [fst]; discriminate|].
  destruct (Cv2.imread _ _) as [scan|]; [|split; cbn [fst]; discriminate].
  rewrite crop_edges_run. cbn [fst].
  destruct (crop (self st1) =? 0);
    [|destruct (crop (self st1) <? 0); [split; cbn [fst]; discriminate|];
      destruct (_ || _); [split; cbn [fst]; discriminate|]].
  all: rewrite mask_disabled by congruence; cbn [fst].
  all: match goal with |- context [add_red_scale ?d ?s ?t] =>
         pose proof (add_red_scale_run d s t) as Hr; cbv zeta in Hr;
         rewrite Hr; clear Hr end; cbn [fst].
  all: destruct (red_scale (self st1) =? 0);
         [|destruct (_ || _); [split; cbn [fst]; discriminate|]].
  all: rewrite imwrite_run; destruct (_ || _); [split; cbn [fst]; discriminate|].
  all: destruct (writable _ _); split; cbn [fst]; discriminate.
Qed.

End Masking.

Section MaskingClaims.

Import EstimateLeafArea.
Context (lib : Collaborators).

(** C7 (as the code has it).  For a [preprocess] call on a single image
    that reaches the scale masking with [mask_scale] non-zero: whenever
    any of mask_offset_y, mask_offset_x or mask_pixels is negative, the
    call fails with NegativeMaskParameter; and, for an image that is not
    cropped, whenever none of them is negative and offset plus size exceeds
    the corresponding dimension, it fails with MaskExceedsBounds.  Either
    failure leaves the configuration and the file system as they were. *)
Theorem mask_failures_when_enabled (img : string) (st : state) (scan : image) :
  let c := self st in
  output_dir c <> EmptyString ->
  fst (Path.split img) <> output_dir c ->
  Cv2.imread (disk st) (expanduser lib img) = Some scan ->
  mask_scale c <> 0 ->
  ((exists cropped, fst (crop_edges (shape scan) scan st) = Ok cropped) ->
   mask_offset_y c < 0 \/ mask_offset_x c < 0 \/ mask_pixels c < 0 ->
   preprocess_file lib img st = (Raise NegativeMaskParameter, st))
  /\ (crop c = 0 ->
      0 <= mask_offset_y c -> 0 <= mask_offset_x c -> 0 <= mask_pixels c ->
      fst (shape scan) < mask_offset_y c + mask_pixels c
      \/ snd (shape scan) < mask_offset_x c + mask_pixels c ->
      preprocess_file lib img st = (Raise MaskExceedsBounds, st)).
Proof.
  intros c Hout Hdiff Hread Hscale.
  pose proof (preprocess_file_cases lib img st) as Hc. cbv zeta in Hc.
  rewrite Hc. clear Hc. fold c.
  apply String.eqb_neq in Hout, Hdiff. rewrite Hout, Hdiff. cbn [when].
  unfold mret, M_ret. rewrite Hread.
  split.
  - intros [cropped Hcrop] Hneg. rewrite Hcrop.
    pose proof (mask_existing_scale_run (shape scan) cropped st) as Hm.
    cbv zeta in Hm. rewrite Hm. clear Hm. fold c. cbn [fst].
    destruct (mask_scale c =? 0) eqn:E0; [lia|].
    destruct ((mask_offset_y c <? 0) || (mask_offset_x c <? 0)
              || (mask_pixels c <? 0)) eqn:E1; [reflexivity|lia].
  - intros Hcrop Hy Hx Hp Hout'.
    rewrite crop_edges_run. fold c. rewrite Hcrop. cbn [fst Z.eqb].
    pose proof (mask_existing_scale_run (shape scan) scan st) as Hm.
    cbv zeta in Hm. rewrite Hm. clear Hm. fold c. cbn [fst].
    destruct (mask_scale c =? 0) eqn:E0; [lia|].
    destruct ((mask_offset_y c <? 0) || (mask_offset_x c <? 0)
              || (mask_pixels c <? 0)) eqn:E1; [lia|].
    destruct ((fst (shape scan) <? mask_offset_y c + mask_pixels c)
              || (snd (shape scan) <? mask_offset_x c + mask_pixels c)) eqn:E2;
      [reflexivity|lia].
Qed.

(** C10.  In [preprocess] on a single file the scale masking, with its
    two validations, runs only when [mask_scale] is non-zero.  With
    [mask_scale] = 0 the masking step returns the image as it received it,
    the call raises neither NegativeMaskParameter nor MaskExceedsBounds,
    and its outcome is the same for all values of the offsets and of
    [mask_pixels].  With [mask_scale] non-zero the outcome does not depend
    on which non-zero value it is, and a window in range is the square of
    side [mask_pixels] at the offsets, whitened, everything else kept. *)
Theorem mask_gated_by_mask_scale (img : string) (c : Config) (fs : filesystem)
    (oy ox side : Z) :
  let off := with_mask 0 oy ox side c in
  (forall dims scan,
      mask_existing_scale dims scan (State off fs) = (Ok scan, State off fs))
  /\ fst (preprocess_file lib img (State off fs)) <> Raise NegativeMaskParameter
  /\ fst (preprocess_file lib img (State off fs)) <> Raise MaskExceedsBounds
  /\ same_outcome (preprocess_file lib img (State off fs))
                  (preprocess_file lib img (State (with_mask 0 0 0 0 c) fs))
  /\ (forall s s', s <> 0 -> s' <> 0 ->
        same_outcome
          (preprocess_file lib img (State (with_mask s oy ox side c) fs))
          (preprocess_file lib img (State (with_mask s' oy ox side c) fs)))
  /\ (forall s dims scan,
        s <> 0 -> 0 <= oy -> 0 <= ox -> 0 <= side ->
        oy + side <= fst dims -> ox + side <= snd dims ->
        exists scan',
          mask_existing_scale dims scan (State (with_mask s oy ox side c) fs)
          = (Ok scan', State (with_mask s oy ox side c) fs)
          /\ forall i j,
               cell scan' i j
               = option_map
                   (fun p => if in_window oy (oy + side) ox (ox + side) i j
                             then BGR 255 255 255 else p)
                   (cell scan i j)).
Proof.
  intros off. split; [|split; [|split; [|split; [|split]]]].
  - intros dims scan. apply mask_disabled. reflexivity.
  - apply preprocess_file_taxonomy_unmasked. reflexivity.
  - apply preprocess_file_taxonomy_unmasked. reflexivity.
  - apply preprocess_file_congruence; reflexivity.
  - intros s s' Hs Hs'.
    apply preprocess_file_congruence; try reflexivity.
    intros dims scan fs'.
    pose proof (mask_existing_scale_run dims scan
                  (State (with_mask s oy ox side c) fs')) as H1.
    pose proof (mask_existing_scale_run dims scan
                  (State (with_mask s' oy ox side c) fs')) as H2.
    cbv zeta in H1, H2. rewrite H1, H2.
    cbn [self with_mask mask_scale mask_offset_y mask_offset_x mask_pixels fst].
    destruct (s =? 0) eqn:E, (s' =? 0) eqn:E'; try lia. reflexivity.
  - intros s dims scan Hs Hy Hx Hside HH HW.
    pose proof (mask_enabled dims scan (State (with_mask s oy ox side c) fs))
      as Hm.
    cbv zeta in Hm.
    cbn [self with_mask mask_scale mask_offset_y mask_offset_x mask_pixels]
      in Hm.
    destruct (Hm Hs Hy Hx Hside HH HW) as (scan' & Hrun & _ & Hcells).
    exists scan'. split; [exact Hrun|exact Hcells].
Qed.

End MaskingClaims.

(** ** The properties on the sample scans *)

(** Closed comparisons, by evaluation. *)
Ltac closed :=
  vm_compute; first [reflexivity | discriminate | intro; discriminate].

(** C1, on an instance: threshold 120 on a scan with the intensities 255,
    120, 119 and 121. *)
Lemma classify_at_or_below_witness :
  let st := State default_config ∅ in
  exists mask,
    EstimateLeafArea.classify [[255; 120]; [119; 121]] st = (Ok mask, st)
    /\ mask = [[0; 255]; [255; 0]]
    /\ at_or_below_rule 120 [[255; 120]; [119; 121]] mask.
Proof.
  cbv zeta.
  destruct (classify_at_or_below (State default_config ∅)
              [[255; 120]; [119; 121]]) as (mask & Hrun & _ & _ & Hrule & _).
  - cbn. lia.
  - exists mask. split; [exact Hrun|]. split; [|exact Hrule].
    rewrite classify_in_range in Hrun by (cbn; lia).
    injection Hrun as <-. reflexivity.
Defined.

(** C1 as worded fails: a pixel whose intensity equals the threshold is
    foreground, although it is not strictly below the threshold. *)
Lemma classify_not_strictly_below :
  let st := State default_config ∅ in
  threshold (self st) = 120
  /\ exists mask,
       EstimateLeafArea.classify [[120]] st = (Ok mask, st)
       /\ cell mask 0 0 = Some 255
       /\ ~ strictly_below_rule (threshold (self st)) [[120]] mask.
Proof.
  cbv zeta. split; [reflexivity|].
  exists [[255]]. split; [reflexivity|]. split; [reflexivity|].
  intros Hrule.
  destruct (Hrule 0%nat 0%nat 120 255 eq_refl eq_refl) as [Hfg _].
  cbn in Hfg. unfold foreground in Hfg.
  assert (120 < 120) by (apply Hfg; discriminate). lia.
Qed.

(** C2, on an instance: a label map with 4 background pixels, a region of
    2 and a region of 3, filtered with the cut-off 3 and with the cut-off
    -1. *)
Lemma filtered_region_records_witness :
  let labels := [[1; 1; 0]; [0; 2; 2]; [0; 2; 0]] in
  let st := State small_config Sample.disk in
  let st_neg := State (with_cut_off (-1) small_config) Sample.disk in
  EstimateLeafArea.remove_small_and_background (Np.unique_counts labels) st
  = (Ok [3], st)
  /\ In (2, 3) (surviving 3 (region_records labels))
  /\ ~ In (1, 2) (surviving 3 (region_records labels))
  /\ EstimateLeafArea.remove_small_and_background (Np.unique_counts labels) st_neg
     = (Raise InvalidCutoff, st_neg).
Proof.
  cbv zeta.
  destruct (filtered_region_records (State small_config Sample.disk)
              [[1; 1; 0]; [0; 2; 2]; [0; 2; 0]]) as [Hok _].
  destruct (filtered_region_records
              (State (with_cut_off (-1) small_config) Sample.disk)
              [[1; 1; 0]; [0; 2; 2]; [0; 2; 0]]) as [_ Hneg].
  cbv zeta in Hok, Hneg.
  destruct Hok as (Hrun & Hkept & _ & Hsmall & _); [closed|].
  split; [rewrite Hrun; reflexivity|].
  split; [apply Hkept; repeat split; closed|].
  split; [apply Hsmall; closed|].
  apply Hneg. closed.
Defined.



(** C7, on its scenario with masking enabled: offset 990 and side 50 on a
    scan of 1000 rows, and a negative offset. *)
Lemma mask_failures_when_enabled_witness :
  let c := with_output "/out" default_config in
  let st := State (with_mask 1 990 0 50 c) Sample.disk in
  let st_neg := State (with_mask 1 (-1) 0 5 c) Sample.disk in
  EstimateLeafArea.preprocess_file Fixture.lib "/scans/tall.jpg" st
  = (Raise MaskExceedsBounds, st)
  /\ EstimateLeafArea.preprocess_file Fixture.lib "/scans/tall.jpg" st_neg
     = (Raise NegativeMaskParameter, st_neg).
Proof.
  cbv zeta. split.
  - destruct (mask_failures_when_enabled Fixture.lib "/scans/tall.jpg"
                (State (with_mask 1 990 0 50 (with_output "/out" default_config))
                       Sample.disk)
                (Sample.blank 1000 60)) as [_ Hbounds].
    + cbn. discriminate.
    + vm_compute. discriminate.
    + vm_compute. reflexivity.
    + cbn. lia.
    + apply Hbounds; cbn; lia.
  - destruct (mask_failures_when_enabled Fixture.lib "/scans/tall.jpg"
                (State (with_mask 1 (-1) 0 5 (with_output "/out" default_config))
                       Sample.disk)
                (Sample.blank 1000 60)) as [Hneg _].
    + cbn. discriminate.
    + vm_compute. discriminate.
    + vm_compute. reflexivity.
    + cbn. lia.
    + apply Hneg; [|cbn; lia]. eexists. vm_compute. reflexivity.
Defined.

(** C7 as worded fails: with [mask_scale] = 0, a negative offset is not
    reported, and offset 990 with side 50 on a scan of 1000 rows is not
    reported either; both calls write their output. *)
Lemma mask_not_validated_when_disabled :
  let c := with_output "/out" default_config in
  let st_neg := State (with_mask 0 (-1) 0 5 c) Sample.disk in
  let st_out := State (with_mask 0 990 0 50 c) Sample.disk in
  mask_offset_y (self st_neg) < 0
  /\ fst (EstimateLeafArea.preprocess_file Fixture.lib "/scans/tall.jpg" st_neg)
     = Ok tt
  /\ fst (shape (Sample.blank 1000 60))
     < mask_offset_y (self st_out) + mask_pixels (self st_out)
  /\ fst (EstimateLeafArea.preprocess_file Fixture.lib "/scans/tall.jpg" st_out)
     = Ok tt
  /\ isfile (disk (snd (EstimateLeafArea.preprocess_file Fixture.lib
                          "/scans/tall.jpg" st_out))) "/out/tall.jpg" = true.
Proof. cbv zeta. repeat split; vm_compute; reflexivity. Qed.

(** C10, on an instance: masking disabled with parameters out of range,
    and masking enabled with a 3 x 3 window at row 1, column 2 of the small
    scan. *)
Lemma mask_gated_by_mask_scale_witness :
  let c := with_output "/out" default_config in
  fst (EstimateLeafArea.preprocess_file Fixture.lib "/scans/leaf.jpg"
         (State (with_mask 0 (-7) 990 50 c) Sample.disk))
  <> Raise NegativeMaskParameter
  /\ exists scan',
       EstimateLeafArea.mask_existing_scale (8, 12) Sample.leaf_and_speck
         (State (with_mask 1 1 2 3 c) Sample.disk)
       = (Ok scan', State (with_mask 1 1 2 3 c) Sample.disk)
       /\ cell scan' 1 2 = Some Sample.white
       /\ cell scan' 3 4 = Some Sample.white
       /\ cell scan' 4 4 = Some Sample.black.
Proof.
  cbv zeta. split.
  - apply (mask_gated_by_mask_scale Fixture.lib "/scans/leaf.jpg"
             (with_output "/out" default_config) Sample.disk (-7) 990 50).
  - destruct (mask_gated_by_mask_scale Fixture.lib "/scans/leaf.jpg"
                (with_output "/out" default_config) Sample.disk 1 2 3)
      as (_ & _ & _ & _ & _ & Hwin).
    destruct (Hwin 1 (8, 12) Sample.leaf_and_speck) as (scan' & Hrun & Hcells);
      try (cbn; lia).
    exists scan'. split; [exact Hrun|].
    rewrite !Hcells. repeat split; vm_compute; reflexivity.
Defined.

(** A white scan, threshold 120, cut-off 0, combine: one row of area 0. *)
Example white_scan_has_no_area :
  fst (EstimateLeafArea.estimate_file Fixture.lib "/scans/blank.jpg"
         (State (set_res 300 (with_cut_off 0 default_config)) Sample.disk))
  = Ok [("/scans/blank.jpg", Finite 0)].
Proof. vm_compute. reflexivity. Qed.

(** One solid black square of 20000 pixels, threshold 120, cut-off 10000,
    300 dpi: one row, of 20000 / ((300/2.54)^2) cm2. *)
Example square_of_20000_pixels :
  exists a,
    fst (EstimateLeafArea.estimate_file Fixture.lib "/scans/square.jpg"
           (State (set_res 300 (set_combine false default_config)) Sample.disk))
    = Ok [("/scans/square.jpg", Finite a)]
    /\ (a == area_cm2 20000 300)%Q
    /\ (Qabs (a - 1.434) < 0.0005)%Q.
Proof.
  eexists. split; [vm_compute; reflexivity|].
  split; vm_compute; reflexivity.
Qed.

(** A scan whose name has no extension, measured with an output
    directory: no encoder is found for the mask, and the run fails after
    the measuring, with [res] overwritten and nothing written.  Without an
    output directory the same scan is measured. *)
Example mask_under_a_name_without_extension :
  let fs := <["/scans/leaf" := Sample.scanned 300 Sample.leaf_and_speck]>
              Sample.disk in
  EstimateLeafArea.estimate_file Fixture.lib "/scans/leaf" (State small_config fs)
  = (Raise Cv2Error, State (set_res 300 small_config) fs)
  /\ exists a,
       fst (EstimateLeafArea.estimate_file Fixture.lib "/scans/leaf"
              (State (with_output EmptyString small_config) fs))
       = Ok [("/scans/leaf", Finite a)].
Proof.
  cbv zeta. split; [vm_compute; reflexivity|].
  eexists. vm_compute. reflexivity.
Qed.

(** Per-region rows and the combined row of the small scan. *)
Example combined_row_of_small_scan :
  let st b := State (set_res 300 (set_combine b small_config)) Sample.disk in
  exists a b t,
    fst (EstimateLeafArea.estimate_file Fixture.lib "/scans/leaf.jpg" (st false))
    = Ok [("/scans/leaf.jpg", Finite a); ("/scans/leaf.jpg", Finite b)]
    /\ fst (EstimateLeafArea.estimate_file Fixture.lib "/scans/leaf.jpg" (st true))
       = Ok [("/scans/leaf.jpg", Finite t)]
    /\ (t == a + b)%Q.
Proof.
  cbv zeta. eexists; eexists; eexists.
  split; [vm_compute; reflexivity|].
  split; vm_compute; reflexivity.
Qed.

(** The bounds of the masking window are checked against the dimensions
    read before cropping: on a 10 x 10 scan cropped by 2, a window of side
    8 passes the check and whitens all of the 6 x 6 image that is left. *)
Example mask_checked_against_uncropped_dimensions :
  let c := with_crop 2 (with_mask 1 0 0 8 (with_output "/out" default_config)) in
  let run := EstimateLeafArea.preprocess_file Fixture.lib "/scans/blank.jpg"
               (State c Sample.disk) in
  fst run = Ok tt
  /\ disk (snd run) !! "/out/blank.jpg" = Some (written (Sample.blank 6 6)).
Proof. cbv zeta. split; vm_compute; reflexivity. Qed.

(** * Further properties of [estimate] *)

Section EstimateEffects.

Import EstimateLeafArea.
Context (lib : Collaborators).

(** X1.  A run of [estimate] on one file that fails, whatever the failure,
    leaves the file system as it found it. *)
Theorem estimate_file_failure_writes_nothing (img : string) (st : state) (e : error) :
  fst (estimate_file lib img st) = Raise e ->
  disk (snd (estimate_file lib img st)) = disk st.
Proof.
  rewrite estimate_file_cases.
  destruct (resolve lib (self st) (disk st) img) as [dpi|e0]; [|reflexivity].
  cbv zeta. destruct (Cv2.imread _ _) as [scan|]; [|reflexivity].
  destruct (_ || _); [reflexivity|].
  destruct (cut_off _ <? 0); [reflexivity|].
  destruct (pixels_to_cm2 _ _) as [areas|e0]; [|reflexivity].
  rewrite save_image_run.
  destruct (String.eqb _ _); [discriminate|].
  destruct (_ || _); [reflexivity|discriminate].
Qed.

(** X2.  Whatever the outcome, a run of [estimate] on one file changes at
    most the path it saves the mask to; with an empty output directory it
    changes no path at all. *)
Theorem estimate_file_footprint (img : string) (st : state) :
  (forall p, p <> mask_file lib (self st) img ->
             disk (snd (estimate_file lib img st)) !! p = disk st !! p)
  /\ (output_dir (self st) = EmptyString ->
      disk (snd (estimate_file lib img st)) = disk st).
Proof.
  rewrite estimate_file_cases.
  destruct (resolve lib (self st) (disk st) img) as [dpi|e0];
    [|split; reflexivity].
  cbv zeta. destruct (Cv2.imread _ _) as [scan|]; [|split; reflexivity].
  destruct (_ || _); [split; reflexivity|].
  destruct (cut_off _ <? 0); [split; reflexivity|].
  destruct (pixels_to_cm2 _ _) as [areas|e0]; [|split; reflexivity].
  rewrite save_image_run. cbn [output_dir set_res].
  change (mask_file lib (set_res dpi (self st)) img)
    with (mask_file lib (self st) img).
  destruct (String.eqb (output_dir (self st)) EmptyString) eqn:Eout;
    [split; reflexivity|].
  apply String.eqb_neq in Eout.
  destruct (_ || _); [split; [reflexivity|contradiction]|].
  cbn [disk]. destruct (writable _ _); cbn [snd disk].
  - split; [|contradiction]. intros p Hp. apply lookup_insert_ne. congruence.
  - split; [reflexivity|contradiction].
Qed.

Lemma binary_mask_empty (c : Config) (scan : image) :
  Cv2.empty (binary_mask lib c scan) = Cv2.empty scan.
Proof.
  unfold binary_mask, Cv2.threshold_binary_inv. rewrite !empty_map. reflexivity.
Qed.

(** X3.  A run of [estimate] that passes every check and has an output
    directory hands the binary mask, an image of as many rows as the scan
    whose samples are all 0 or 255, to [cv2.imwrite] under the base name of
    its input.  When no encoder is found for that name, the run fails
    there, after all the measuring, with [res] already overwritten and
    nothing written.  Otherwise the rows are returned, and the mask is
    written when the directory exists: the file system changes at that
    path only, or not at all. *)
Theorem estimate_file_saves_mask (img : string) (st : state) (scan : image) (dpi : Q) :
  resolve lib (self st) (disk st) img = Ok dpi ->
  Cv2.imread (disk st) (expanduser lib img) = Some scan ->
  Cv2.empty scan = false ->
  0 <= threshold (self st) <= 255 ->
  0 <= cut_off (self st) ->
  (Qabs dpi < Float64.huge)%Q ->
  output_dir (self st) <> EmptyString ->
  let out := mask_file lib (self st) img in
  let mask := Cv2.gray_to_bgr (binary_mask lib (self st) scan) in
  (Cv2.find_encoder lib 1 out = false ->
   estimate_file lib img st
   = (Raise Cv2Error, State (set_res dpi (self st)) (disk st)))
  /\ (Cv2.find_encoder lib 1 out = true ->
      (exists rows, fst (estimate_file lib img st) = Ok rows)
      /\ disk (snd (estimate_file lib img st))
         = if writable (disk st) out
           then <[out := written mask]> (disk st)
           else disk st)
  /\ length mask = length scan
  /\ forall i j p, cell mask i j = Some p ->
       p = BGR 0 0 0 \/ p = BGR 255 255 255.
Proof.
  intros Hres Hread Hne HT HC Hhuge Hout out mask.
  assert (Hrun : estimate_file lib img st
                 = if Cv2.find_encoder lib 1 out
                   then (Ok (if combine (self st)
                             then [(img, Np.sum (map (fun p =>
                                      Np.div_count p (squared_density dpi))
                                      (surviving_counts lib (self st) scan)))]
                             else rows_of img (map (fun p =>
                                      Np.div_count p (squared_density dpi))
                                      (surviving_counts lib (self st) scan))),
                         if writable (disk st) out
                         then State (set_res dpi (self st))
                                (<[out := written mask]> (disk st))
                         else State (set_res dpi (self st)) (disk st))
                   else (Raise Cv2Error, State (set_res dpi (self st)) (disk st))).
  { rewrite estimate_file_cases, Hres. cbv zeta. rewrite Hread.
    cbn [threshold cut_off combine set_res].
    destruct ((threshold (self st) <? 0) || (255 <? threshold (self st))) eqn:ET;
      [lia|].
    destruct (cut_off (self st) <? 0) eqn:EC; [lia|].
    rewrite (pixels_to_cm2_converts _ _ Hhuge), save_image_run.
    cbn [output_dir set_res].
    apply String.eqb_neq in Hout. rewrite Hout.
    change (mask_file lib (set_res dpi (self st)) img) with out.
    change (binary_mask lib (set_res dpi (self st)) scan)
      with (binary_mask lib (self st) scan).
    change (surviving_counts lib (set_res dpi (self st)) scan)
      with (surviving_counts lib (self st) scan).
    rewrite binary_mask_empty, Hne. cbn [orb disk self].
    destruct (Cv2.find_encoder lib 1 out); cbn [negb]; [|reflexivity].
    destruct (writable (disk st) out); reflexivity. }
  split; [intros E; rewrite Hrun, E; reflexivity|].
  split; [|split].
  - intros E. rewrite Hrun, E. split; [eexists; reflexivity|].
    cbn [snd]. destruct (writable (disk st) out); reflexivity.
  - unfold mask, Cv2.gray_to_bgr, binary_mask, Cv2.threshold_binary_inv.
    rewrite !length_map. reflexivity.
  - intros i j p. unfold mask, Cv2.gray_to_bgr, binary_mask,
      Cv2.threshold_binary_inv.
    rewrite !cell_map.
    destruct (cell scan i j) as [v|]; cbn; [|intros Hp; discriminate Hp].
    intros [= <-]. destruct (threshold (self st) <? luma lib v); auto.
Qed.

(** X4.  Without an override ([res] = 0), [estimate] on a path that is a
    file fails before anything is decoded, with the configuration and the
    file system left as they were: with MissingMetadata when the file
    carries no EXIF block, with AnisotropicResolution when its two
    resolutions differ, with an AttributeError when the block lacks one of
    the two tags, and with an OSError when the path is a file as it is
    given but not after tilde expansion, which [open] applies and the test
    for a file does not. *)
Theorem estimate_file_metadata_failures
    (pool : string -> M DataFrame) (img : string) (st : state) :
  (res (self st) == 0)%Q ->
  isfile (disk st) img = true ->
  (forall f, disk st !! expanduser lib img = Some (Regular f) ->
             has_exif f = false ->
             estimate lib pool img st = (Raise MissingMetadata, st))
  /\ (forall f x y, disk st !! expanduser lib img = Some (Regular f) ->
                    has_exif f = true ->
                    x_resolution f = Some x -> y_resolution f = Some y ->
                    ~ (x == y)%Q ->
                    estimate lib pool img st = (Raise AnisotropicResolution, st))
  /\ (forall f, disk st !! expanduser lib img = Some (Regular f) ->
                has_exif f = true ->
                x_resolution f = None \/ y_resolution f = None ->
                estimate lib pool img st = (Raise AttributeError, st))
  /\ (isfile (disk st) (expanduser lib img) = false ->
      estimate lib pool img st = (Raise OSError, st)).
Proof.
  intros H0 Hfile. apply Qeq_bool_iff in H0.
  assert (Hrun : estimate lib pool img st = estimate_file lib img st).
  { unfold estimate. rewrite bind_run. unfold get_disk at 1. cbn [disk].
    rewrite Hfile. reflexivity. }
  rewrite Hrun, estimate_file_cases. unfold resolve. rewrite H0.
  split; [|split; [|split]].
  - intros f Hf Hx. rewrite Hf, Hx. reflexivity.
  - intros f x y Hf He Hx Hy Hxy. rewrite Hf, He, Hx, Hy. cbn [negb].
    destruct (Qeq_bool x y) eqn:E;
      [apply Qeq_bool_iff in E; contradiction|reflexivity].
  - intros f Hf He Hxy. rewrite Hf, He. cbn [negb].
    destruct Hxy as [Hx|Hy].
    + rewrite Hx. reflexivity.
    + rewrite Hy. destruct (x_resolution f); reflexivity.
  - unfold isfile. destruct (disk st !! expanduser lib img) as [[|f]|];
      [reflexivity|discriminate|reflexivity].
Qed.

Lemma save_image_fst (img : string) (mask : gray_image) (c : Config) (st st' : state) :
  fst (save_image lib img mask c st) = fst (save_image lib img mask c st').
Proof.
  rewrite !save_image_run.
  destruct (String.eqb _ _); [reflexivity|].
  destruct (_ || _); reflexivity.
Qed.

(** X5.  With an override ([res] non-zero) the metadata of the file is
    not consulted: two files with the same pixels give the same result,
    whatever their EXIF data, even when one of them has none. *)
Theorem estimate_file_override_ignores_metadata
    (img : string) (c : Config) (fs : filesystem) (f f' : file) :
  ~ (res c == 0)%Q ->
  pixels f = pixels f' ->
  fst (estimate_file lib img (State c (<[expanduser lib img := Regular f]> fs)))
  = fst (estimate_file lib img (State c (<[expanduser lib img := Regular f']> fs))).
Proof.
  intros Hres Hpix. rewrite !estimate_file_cases. cbn [self disk].
  assert (E : Qeq_bool (res c) 0 = false).
  { destruct (Qeq_bool (res c) 0) eqn:E; [|reflexivity].
    apply Qeq_bool_iff in E. contradiction. }
  unfold resolve. rewrite E. cbv zeta.
  unfold Cv2.imread. rewrite !lookup_insert_eq, Hpix.
  destruct (pixels f') as [scan|]; [|reflexivity].
  destruct (_ || _); [reflexivity|].
  destruct (cut_off _ <? 0); [reflexivity|].
  destruct (pixels_to_cm2 _ _) as [areas|e]; [|reflexivity].
  match goal with
  | |- fst (match save_image ?l ?i ?m ?k ?s1 with _ => _ end)
       = fst (match save_image ?l ?i ?m ?k ?s2 with _ => _ end) =>
      pose proof (save_image_fst i m k s1 s2) as Hs;
      destruct (save_image l i m k s1) as [r1 t1];
      destruct (save_image l i m k s2) as [r2 t2]
  end.
  cbn [fst] in Hs. subst r2. destruct r1 as [[]|e]; reflexivity.
Qed.

(** X6.  [estimate] reports the first failure in the order of its steps:
    a failure to resolve the resolution, then an image that does not
    decode, then a threshold outside [0,255], then a negative cut-off.  A
    bad threshold is reported even when the cut-off is negative as well,
    and none of these failures writes a file. *)
Theorem estimate_file_first_failure (img : string) (st : state) :
  (forall e, resolve lib (self st) (disk st) img = Raise e ->
             estimate_file lib img st = (Raise e, st))
  /\ (forall dpi, resolve lib (self st) (disk st) img = Ok dpi ->
        let st1 := State (set_res dpi (self st)) (disk st) in
        (Cv2.imread (disk st) (expanduser lib img) = None ->
         estimate_file lib img st = (Raise Cv2Error, st1))
        /\ (forall scan,
              Cv2.imread (disk st) (expanduser lib img) = Some scan ->
              (threshold (self st) < 0 \/ 255 < threshold (self st) ->
               estimate_file lib img st = (Raise InvalidThreshold, st1))
              /\ (0 <= threshold (self st) <= 255 -> cut_off (self st) < 0 ->
                  estimate_file lib img st = (Raise InvalidCutoff, st1)))).
Proof.
  split.
  - intros e He. rewrite estimate_file_cases, He. reflexivity.
  - intros dpi Hd st1. split.
    + intros Hread. rewrite estimate_file_cases, Hd. cbv zeta.
      rewrite Hread. reflexivity.
    + intros scan Hread. split.
      * intros HT. rewrite estimate_file_cases, Hd. cbv zeta. rewrite Hread.
        cbn [threshold set_res].
        destruct ((threshold (self st) <? 0) || (255 <? threshold (self st)))
          eqn:E; [reflexivity|lia].
      * intros HT HC. rewrite estimate_file_cases, Hd. cbv zeta. rewrite Hread.
        cbn [threshold cut_off set_res].
        destruct ((threshold (self st) <? 0) || (255 <? threshold (self st)))
          eqn:E; [lia|].
        destruct (cut_off (self st) <? 0) eqn:E'; [reflexivity|lia].
Qed.

End EstimateEffects.

(** * Further properties of the measurement *)

Section Measurement.

Import EstimateLeafArea.
Context (lib : Collaborators).

Lemma total_cons (x : Z) (l : list Z) : total (x :: l) = x + total l.
Proof. reflexivity. Qed.

Lemma tally_total v t : total (map snd (Np.tally v t)) = total (map snd t) + 1.
Proof.
  induction t as [|[u c] r IH]; cbn [Np.tally map snd]; [reflexivity|].
  destruct (v <? u); [cbn [map snd]; rewrite !total_cons; lia|].
  destruct (v =? u); cbn [map snd]; rewrite !total_cons; [lia|].
  rewrite IH. lia.
Qed.

Lemma tally_all_total xs : forall t,
  total (map snd (fold_left (fun t v => Np.tally v t) xs t))
  = total (map snd t) + Z.of_nat (length xs).
Proof.
  induction xs as [|x xs IH]; intros t; cbn [fold_left length]; [lia|].
  rewrite IH, tally_total. lia.
Qed.

Lemma surviving_total (C : Z) (t : list (Z * Z)) :
  positive_counts t ->
  0 <= total (map snd (surviving C t))
  /\ total (map snd (surviving C t)) + held t 0 <= total (map snd t).
Proof.
  unfold positive_counts, surviving.
  induction t as [|[u c] r IH]; intros Hp; [cbn; lia|].
  inversion Hp as [|? ? Hc Hr]; subst. cbn in Hc.
  destruct (IH Hr) as [IH0 IH1].
  assert (Hh : 0 <= held r 0).
  { clear -Hr. induction Hr as [|[u' c'] r' Hc' _ IHr]; cbn; [lia|].
    cbn in Hc'. destruct (u' =? 0); lia. }
  cbn [List.filter held map snd].
  destruct (survives C (u, c)) eqn:Es; unfold survives in Es;
    cbn [fst snd] in Es; cbn [map snd]; rewrite ?total_cons;
    destruct (u =? 0) eqn:E0; cbn [negb andb] in Es; try discriminate; lia.
Qed.


(** X7.  The pixel counts of the Region Records of a label map, the
    background included, add up to the number of its cells; the counts
    that survive the filtering add up to at most the number of cells that
    are not background. *)
Theorem region_counts_partition_the_image (labels : gray_image) (C : Z) :
  total (map snd (region_records labels)) = pixels_in labels
  /\ 0 <= total (map snd (surviving C (region_records labels)))
  /\ total (map snd (surviving C (region_records labels)))
     <= pixels_in labels - pixel_count labels 0.
Proof.
  destruct (tally_fold (concat labels) []) as (_ & Hp & Hh);
    [constructor|constructor|]. cbn in Hp, Hh.
  assert (Htot : total (map snd (region_records labels)) = pixels_in labels).
  { unfold region_records, Np.tally_all, pixels_in.
    rewrite tally_all_total. reflexivity. }
  split; [exact Htot|].
  destruct (surviving_total C (region_records labels) Hp) as [H0 H1].
  split; [exact H0|].
  rewrite Htot in H1. unfold region_records, Np.tally_all in *.
  rewrite Hh in H1. unfold pixel_count. cbn [held] in H1. lia.
Qed.






(** X9.  Raising the threshold never turns foreground into background:
    for thresholds T <= T' within [0,255], every pixel that is foreground
    at T is foreground at T'; at T' = 255 every 8-bit sample is
    foreground. *)
Theorem foreground_grows_with_threshold (st st' : state) (scan : gray_image) :
  0 <= threshold (self st) ->
  threshold (self st) <= threshold (self st') ->
  threshold (self st') <= 255 ->
  exists mask mask',
    classify scan st = (Ok mask, st)
    /\ classify scan st' = (Ok mask', st')
    /\ (forall i j m, cell mask i j = Some m -> foreground m ->
          cell mask' i j = Some 255)
    /\ (threshold (self st') = 255 ->
        forall i j v, cell scan i j = Some v -> v <= 255 ->
          cell mask' i j = Some 255).
Proof.
  intros H0 Hle H255.
  eexists; eexists.
  split; [apply classify_in_range; lia|].
  split; [apply classify_in_range; lia|].
  unfold Cv2.threshold_binary_inv. split.
  - intros i j m. rewrite !cell_map.
    destruct (cell scan i j) as [v|]; cbn; [|discriminate].
    intros [= <-] Hfg. unfold foreground in Hfg.
    destruct (threshold (self st) <? v) eqn:E; [contradiction|].
    destruct (threshold (self st') <? v) eqn:E'; [lia|reflexivity].
  - intros HT i j v Hv Hle'. rewrite cell_map, Hv. cbn.
    destruct (threshold (self st') <? v) eqn:E'; [lia|reflexivity].
Qed.

Lemma surviving_refilter (C C' : Z) (t : list (Z * Z)) :
  C <= C' ->
  map snd (surviving C' t)
  = List.filter (fun n => C' <=? n) (map snd (surviving C t)).
Proof.
  intros Hle. unfold surviving.
  induction t as [|[l n] r IH]; cbn; [reflexivity|].
  unfold survives; cbn [fst snd].
  destruct (l =? 0); cbn [negb andb]; [exact IH|].
  destruct (C' <=? n) eqn:E'.
  - destruct (C <=? n) eqn:E; [|lia]. cbn. rewrite E'. f_equal. exact IH.
  - destruct (C <=? n) eqn:E; cbn; [rewrite E'|]; exact IH.
Qed.

(** X10.  Raising the cut-off only removes regions: for cut-offs
    0 <= C <= C' the counts kept with C' are the counts kept with C that
    are at least C', in the same order; and with a cut-off of 0 or 1 every
    region other than the background is kept. *)
Theorem larger_cut_off_keeps_fewer (st st' : state) (labels : gray_image) :
  0 <= cut_off (self st) ->
  cut_off (self st) <= cut_off (self st') ->
  exists kept kept',
    remove_small_and_background (Np.unique_counts labels) st = (Ok kept, st)
    /\ remove_small_and_background (Np.unique_counts labels) st' = (Ok kept', st')
    /\ kept' = List.filter (fun n => cut_off (self st') <=? n) kept
    /\ (cut_off (self st) <= 1 ->
        forall l, l <> 0 -> 0 < pixel_count labels l ->
                  In (pixel_count labels l) kept).
Proof.
  intros H0 Hle. eexists; eexists.
  split; [apply remove_small_and_background_ok; lia|].
  split; [apply remove_small_and_background_ok; lia|].
  split; [apply surviving_refilter; exact Hle|].
  intros H1 l Hl Hpos.
  change (pixel_count labels l) with (snd (l, pixel_count labels l)).
  apply in_map. apply surviving_in. split; [|split; [exact Hl|lia]].
  apply region_records_spec. split; [reflexivity|exact Hpos].
Qed.


End Measurement.

(** * Further properties of [preprocess] *)

(** Comparisons as propositions, then linear arithmetic. *)
Ltac blia :=
  repeat rewrite ?orb_true_iff, ?orb_false_iff, ?andb_true_iff,
    ?andb_false_iff, ?Z.ltb_lt, ?Z.ltb_ge, ?Z.leb_le, ?Z.leb_gt in *;
  lia.

(** An equation between two comparisons. *)
Ltac beq :=
  match goal with
  | |- ?a = ?b =>
      let Ea := fresh in let Eb := fresh in
      destruct a eqn:Ea; destruct b eqn:Eb; try reflexivity; exfalso; blia
  end.

Section Transformations.

Import EstimateLeafArea.
Context (lib : Collaborators).

Lemma lookup_slice {A} (start stop : Z) (l : list A) (i : nat) :
  0 <= start -> stop <= Z.of_nat (length l) ->
  Z.of_nat i < stop - start ->
  Np.slice start stop l !! i = l !! (Z.to_nat start + i)%nat.
Proof.
  intros Hs He Hi. unfold Np.slice.
  rewrite !clip_inside by lia.
  rewrite lookup_take_lt by lia. apply lookup_drop.
Qed.

(** X12.  Cropping by a margin k >= 0 that fits twice into both dimensions
    keeps exactly the inner pixels: the result has H - 2k rows of W - 2k
    pixels, and its pixel in row i, column j is the pixel of the scan in
    row i + k, column j + k. *)
Theorem crop_keeps_inner_pixels (st : state) (scan : image) (H W : Z) :
  let k := crop (self st) in
  shape scan = (H, W) -> row_width W scan ->
  0 <= k -> 2 * k <= H -> 2 * k <= W ->
  exists scan',
    crop_edges (shape scan) scan st = (Ok scan', st)
    /\ Z.of_nat (length scan') = H - 2 * k
    /\ row_width (W - 2 * k) scan'
    /\ forall i j,
         Z.of_nat i < H - 2 * k -> Z.of_nat j < W - 2 * k ->
         cell scan' i j = cell scan (Z.to_nat k + i) (Z.to_nat k + j).
Proof.
  intros k Hshape Hrows Hk HH HW.
  destruct (crop_within_half st scan H W Hshape Hrows Hk HH HW)
    as (scan' & Hrun & Hlen & Hwidth).
  exists scan'. repeat split; try assumption.
  intros i j Hi Hj.
  rewrite crop_edges_run, Hshape in Hrun. cbn [fst snd] in Hrun. fold k in Hrun.
  unfold shape in Hshape. injection Hshape as HlenH HlenW.
  destruct (k =? 0) eqn:E0.
  - injection Hrun as <-. replace (Z.to_nat k) with 0%nat by lia. reflexivity.
  - destruct (k <? 0) eqn:E1; [lia|].
    destruct ((H <? k) || (W <? k)) eqn:E2; [lia|].
    injection Hrun as <-.
    unfold cell, Np.slice2. rewrite lookup_map, lookup_slice by lia.
    destruct (scan !! (Z.to_nat k + i)%nat) as [row|] eqn:Hrow; [|reflexivity].
    cbn [option_map].
    assert (Hw : Z.of_nat (length row) = W).
    { unfold row_width in Hrows. rewrite List.Forall_forall in Hrows.
      apply Hrows. apply list_elem_of_In. eapply list_elem_of_lookup_2, Hrow. }
    apply lookup_slice; lia.
Qed.

Lemma lookup_assign_clipped {A} (start stop : Z) (f : A -> A) (l : list A) (k : nat) :
  Np.assign start stop f l !! k
  = option_map
      (fun x => if (Np.clip (Z.of_nat (length l)) start <=? Z.of_nat k)
                   && (Z.of_nat k <? Np.clip (Z.of_nat (length l)) stop)
                then f x else x) (l !! k).
Proof.
  unfold Np.assign. rewrite lookup_mapi_from, Z.add_0_l. reflexivity.
Qed.

Lemma empty_assign2 {A} (y0 y1 x0 x1 : Z) (f : A -> A) (scan : list (list A)) :
  Cv2.empty (Np.assign2 y0 y1 x0 x1 f scan) = Cv2.empty scan.
Proof.
  unfold Np.assign2, Np.assign.
  destruct scan as [|[|x row] rest]; cbn [Np.mapi_from]; [reflexivity| |].
  - destruct (_ && _); reflexivity.
  - destruct (_ && _); [|reflexivity]. cbn [Np.mapi_from length].
    destruct (_ && _); reflexivity.
Qed.

Lemma set_red_channels (p : pixel) :
  set_red 255 (set_green 0 (set_blue 0 p)) = BGR 0 0 255.
Proof. reflexivity. Qed.

(** X13.  The scale bar: with [red_scale] = 0 the image is left alone;
    with [red_scale] non-zero a side larger than either dimension fails
    with ScaleBarExceedsBounds; and a side n with 0 <= n within both
    dimensions paints the n x n square at the top-left corner pure red and
    keeps every other pixel. *)
Theorem red_scale_paints_the_corner (dims : Z * Z) (scan : image) (st : state) :
  let n := red_scale_pixels (self st) in
  (red_scale (self st) = 0 -> add_red_scale dims scan st = (Ok scan, st))
  /\ (red_scale (self st) <> 0 -> fst dims < n \/ snd dims < n ->
      add_red_scale dims scan st = (Raise ScaleBarExceedsBounds, st))
  /\ (red_scale (self st) <> 0 -> 0 <= n -> n <= fst dims -> n <= snd dims ->
      exists scan',
        add_red_scale dims scan st = (Ok scan', st)
        /\ length scan' = length scan
        /\ forall i j,
             cell scan' i j
             = option_map (fun p => if in_window 0 n 0 n i j
                                    then BGR 0 0 255 else p)
                          (cell scan i j)).
Proof.
  intros n. pose proof (add_red_scale_run dims scan st) as Hr.
  cbv zeta in Hr. rewrite Hr. clear Hr. fold n.
  split; [|split].
  - intros ->. reflexivity.
  - intros Hs Hbig. destruct (red_scale (self st) =? 0) eqn:E; [lia|].
    destruct ((fst dims <? n) || (snd dims <? n)) eqn:E'; [reflexivity|lia].
  - intros Hs H0 HH HW. destruct (red_scale (self st) =? 0) eqn:E; [lia|].
    destruct ((fst dims <? n) || (snd dims <? n)) eqn:E'; [lia|].
    eexists. split; [reflexivity|]. split.
    + unfold Np.assign2. rewrite !length_assign. reflexivity.
    + intros i j. rewrite !cell_assign2 by lia.
      destruct (cell scan i j) as [p|]; cbn; [|reflexivity].
      destruct (in_window 0 n 0 n i j); reflexivity.
Qed.

(** X14.  A negative side of the scale bar is not rejected: the bounds
    check passes, and, the side being a slice bound counted from the end,
    every pixel is painted red except those in the last |n| rows and the
    last |n| columns. *)
Theorem negative_red_scale_paints_from_the_end
    (scan : image) (st : state) (W : Z) :
  let n := red_scale_pixels (self st) in
  red_scale (self st) <> 0 -> n < 0 -> row_width W scan ->
  exists scan',
    add_red_scale (shape scan) scan st = (Ok scan', st)
    /\ forall i j,
         cell scan' i j
         = option_map
             (fun p => if (Z.of_nat i <? Z.of_nat (length scan) + n)
                          && (Z.of_nat j <? W + n)
                       then BGR 0 0 255 else p)
             (cell scan i j).
Proof.
  intros n Hs Hn Hrows.
  pose proof (add_red_scale_run (shape scan) scan st) as Hr.
  cbv zeta in Hr. rewrite Hr. clear Hr. fold n. clearbody n.
  destruct (red_scale (self st) =? 0) eqn:E; [lia|].
  destruct ((fst (shape scan) <? n) || (snd (shape scan) <? n)) eqn:E';
    [exfalso; unfold shape in E'; cbn [fst snd] in E'; blia|].
  eexists. split; [reflexivity|].
  intros i j. unfold cell, Np.assign2.
  rewrite !lookup_assign_clipped, !length_assign.
  destruct (scan !! i) as [row|] eqn:Hrow; [|reflexivity]. cbn [option_map].
  assert (Hw : Z.of_nat (length row) = W).
  { unfold row_width in Hrows. rewrite List.Forall_forall in Hrows.
    apply Hrows. apply list_elem_of_In. eapply list_elem_of_lookup_2, Hrow. }
  apply lookup_lt_Some in Hrow.
  assert (Hclip : forall len, 0 <= len -> Np.clip len 0 = 0
                               /\ Np.clip len n = Z.max 0 (n + len)).
  { intros len Hlen. unfold Np.clip.
    destruct (0 <? 0) eqn:E0; [lia|]. destruct (n <? 0) eqn:E1; [|lia]. lia. }
  destruct (Hclip (Z.of_nat (length scan))) as [-> ->]; [lia|].
  replace (0 <=? Z.of_nat i) with true by beq. cbn [andb].
  replace (Z.of_nat i <? Z.max 0 (n + Z.of_nat (length scan)))
    with (Z.of_nat i <? Z.of_nat (length scan) + n) by beq.
  destruct (Z.of_nat i <? Z.of_nat (length scan) + n) eqn:Ei; cbn [andb].
  - rewrite !lookup_assign_clipped, !length_assign.
    destruct (Hclip (Z.of_nat (length row))) as [-> ->]; [lia|].
    destruct (row !! j) as [p|] eqn:Hp; [|reflexivity]. cbn [option_map].
    replace (0 <=? Z.of_nat j) with true by beq. cbn [andb].
    replace (Z.of_nat j <? Z.max 0 (n + Z.of_nat (length row)))
      with (Z.of_nat j <? W + n) by beq.
    destruct (Z.of_nat j <? W + n); reflexivity.
  - destruct (row !! j); reflexivity.
Qed.

End Transformations.

(** * Properties of the path functions *)

Section Paths.

Lemma string_of_app (a b : list ascii) :
  string_of_list_ascii (a ++ b)
  = string_of_list_ascii a +:+ string_of_list_ascii b.
Proof.
  induction a as [|c a IH]; [reflexivity|].
  cbn [app string_of_list_ascii]. rewrite IH. reflexivity.
Qed.

Lemma chars_app (a b : string) :
  list_ascii_of_string (a +:+ b)
  = list_ascii_of_string a ++ list_ascii_of_string b.
Proof.
  induction a as [|c a IH]; [reflexivity|].
  change (list_ascii_of_string (String c a +:+ b))
    with (c :: list_ascii_of_string (a +:+ b)).
  rewrite IH. reflexivity.
Qed.

Lemma append_empty_r (p : string) : p +:+ EmptyString = p.
Proof.
  induction p as [|c p IH]; [reflexivity|].
  change (String c p +:+ EmptyString) with (String c (p +:+ EmptyString)).
  rewrite IH. reflexivity.
Qed.

Lemma span_spec {A} (p : A -> bool) (l : list A) :
  let '(a, b) := Path.span p l in
  l = a ++ b /\ forallb p a = true
  /\ match b with [] => True | x :: _ => p x = false end.
Proof.
  induction l as [|x l IH]; cbn; [auto|].
  destruct (p x) eqn:E.
  - destruct (Path.span p l) as [a b]. destruct IH as (-> & Ha & Hb).
    cbn. rewrite E. auto.
  - cbn. auto.
Qed.

Lemma span_exact {A} (p : A -> bool) (a b : list A) :
  forallb p a = true ->
  match b with [] => True | x :: _ => p x = false end ->
  Path.span p (a ++ b) = (a, b).
Proof.
  intros Ha Hb. induction a as [|x a IH]; cbn in *.
  - destruct b as [|y b]; cbn; [reflexivity|]. rewrite Hb. reflexivity.
  - apply andb_true_iff in Ha. destruct Ha as [Hx Ha].
    rewrite Hx, (IH Ha). reflexivity.
Qed.

Lemma dropwhile_spec {A} (p : A -> bool) (l : list A) :
  exists pre, l = pre ++ Path.dropwhile p l /\ forallb p pre = true
              /\ match Path.dropwhile p l with
                 | [] => True | x :: _ => p x = false end.
Proof.
  induction l as [|x l (pre & Hl & Hpre & Hd)]; cbn.
  - exists []. auto.
  - destruct (p x) eqn:E.
    + exists (x :: pre). cbn. rewrite E, <- Hl. auto.
    + exists []. cbn. auto.
Qed.

Lemma forallb_rev {A} (p : A -> bool) (l : list A) :
  forallb p (rev l) = forallb p l.
Proof.
  induction l as [|x l IH]; cbn; [reflexivity|].
  rewrite forallb_app, IH. cbn. rewrite andb_true_r. apply andb_comm.
Qed.

(** X15.  [os.path.split] cuts a path at its last separator: the path is
    the head, followed by separators only, followed by the tail; the tail
    contains no separator; and separators stand between head and tail only
    when the head is non-empty and does not itself end with one. *)
Theorem split_decomposes (p : string) :
  exists slashes,
    p = fst (Path.split p) +:+ slashes +:+ snd (Path.split p)
    /\ all_sep slashes
    /\ no_sep (snd (Path.split p))
    /\ (slashes <> EmptyString ->
        fst (Path.split p) <> EmptyString
        /\ Path.endswith_sep (fst (Path.split p)) = false).
Proof.
  unfold Path.split, all_sep, no_sep.
  pose proof (span_spec (fun c => negb (Path.is_sep c))
                (rev (list_ascii_of_string p))) as Hspan.
  destruct (Path.span _ _) as [tail_r head_r]. destruct Hspan as (Hr & Ht & _).
  assert (Hp : p = string_of_list_ascii (rev head_r ++ rev tail_r)).
  { rewrite <- rev_app_distr, <- Hr, rev_involutive.
    symmetry. apply string_of_list_ascii_of_string. }
  destruct (dropwhile_spec Path.is_sep head_r) as (pre & Hh & Hpre & Hd).
  cbn [fst snd].
  destruct (Path.dropwhile Path.is_sep head_r) as [|c stripped] eqn:Es.
  - exists EmptyString. split; [|split; [reflexivity|split]].
    + rewrite Hp at 1. rewrite string_of_app. reflexivity.
    + rewrite list_ascii_of_string_of_list_ascii, forallb_rev. exact Ht.
    + intros H. contradiction.
  - exists (string_of_list_ascii (rev pre)). split; [|split; [|split]].
    + rewrite Hp at 1. rewrite Hh at 1.
      rewrite rev_app_distr, <- app_assoc, !string_of_app. reflexivity.
    + rewrite list_ascii_of_string_of_list_ascii, forallb_rev. exact Hpre.
    + rewrite list_ascii_of_string_of_list_ascii, forallb_rev. exact Ht.
    + intros _. split.
      * cbn [rev]. intros H. apply (f_equal list_ascii_of_string) in H.
        rewrite list_ascii_of_string_of_list_ascii in H. cbn in H.
        destruct (rev stripped); discriminate H.
      * unfold Path.endswith_sep.
        rewrite list_ascii_of_string_of_list_ascii, rev_involutive. exact Hd.
Qed.

(** X16.  [os.path.splitext] cuts a path without losing anything: root
    followed by extension is the path, and the extension is either empty
    or a dot followed by characters that are neither dots nor
    separators. *)
Theorem splitext_decomposes (p : string) :
  fst (Path.splitext p) +:+ snd (Path.splitext p) = p
  /\ (snd (Path.splitext p) = EmptyString
      \/ exists e, snd (Path.splitext p) = "." +:+ e /\ no_dot e /\ no_sep e).
Proof.
  unfold Path.splitext, no_dot, no_sep.
  pose proof (span_spec (fun c => negb (Path.is_dot c))
                (rev (list_ascii_of_string p))) as Hspan.
  destruct (Path.span _ _) as [ext_r rest]. destruct Hspan as (Hr & He & Hrest).
  destruct rest as [|dot before_r].
  - cbn [fst snd]. split; [|left; reflexivity].
    apply append_empty_r.
  - destruct (forallb (fun c => negb (Path.is_sep c)) ext_r
              && existsb _ _) eqn:Ec; cbn [fst snd].
    + apply andb_true_iff in Ec. destruct Ec as [Hsep _].
      assert (Hdot : dot = "."%char).
      { unfold Path.is_dot in Hrest. apply negb_false_iff in Hrest.
        apply Ascii.eqb_eq in Hrest. exact Hrest. }
      split.
      * rewrite <- string_of_app.
        change (dot :: rev ext_r) with ([dot] ++ rev ext_r).
        rewrite app_assoc. change (rev before_r ++ [dot]) with (rev (dot :: before_r)).
        rewrite <- rev_app_distr, <- Hr, rev_involutive.
        apply string_of_list_ascii_of_string.
      * right. exists (string_of_list_ascii (rev ext_r)). subst dot.
        split; [reflexivity|].
        rewrite list_ascii_of_string_of_list_ascii, !forallb_rev. auto.
    + split; [|left; reflexivity].
      apply append_empty_r.
Qed.

Lemma split_of_joined (a b : string) :
  no_sep b ->
  a <> EmptyString -> Path.endswith_sep a = false ->
  Path.split (a +:+ "/" +:+ b) = (a, b).
Proof.
  unfold no_sep, Path.endswith_sep, Path.split. intros Hb Ha Hend.
  rewrite !chars_app. cbn [list_ascii_of_string app].
  rewrite rev_app_distr. cbn [rev]. rewrite <- app_assoc. cbn [app].
  rewrite span_exact.
  - set (ra := rev (list_ascii_of_string a)) in *.
    cbn [Path.dropwhile]. change (Path.is_sep "/"%char) with true. cbn iota.
    destruct ra as [|c ra'] eqn:Era.
    + exfalso. apply Ha.
      rewrite <- (string_of_list_ascii_of_string a).
      rewrite <- (rev_involutive (list_ascii_of_string a)).
      fold ra. rewrite Era. reflexivity.
    + cbn [Path.dropwhile]. rewrite Hend. rewrite <- Era. unfold ra.
      rewrite !rev_involutive, !string_of_list_ascii_of_string. reflexivity.
  - rewrite forallb_rev. exact Hb.
  - reflexivity.
Qed.

Lemma split_of_bare (b : string) :
  no_sep b -> Path.split b = (EmptyString, b).
Proof.
  unfold no_sep, Path.split. intros Hb.
  rewrite <- (app_nil_r (rev (list_ascii_of_string b))).
  rewrite span_exact; [|rewrite forallb_rev; exact Hb|exact I].
  cbn. rewrite rev_involutive, string_of_list_ascii_of_string. reflexivity.
Qed.

(** X17.  Splitting undoes joining: for a component [b] without a
    separator and a directory [a] that is empty or does not end with a
    separator, [os.path.split (os.path.join a b)] is the pair [(a, b)]. *)
Theorem split_join_round_trip (a b : string) :
  no_sep b ->
  Path.endswith_sep a = false ->
  Path.split (Path.join a b) = (a, b).
Proof.
  intros Hb Hend. unfold Path.join.
  assert (Hstart : Path.startswith_sep b = false).
  { unfold no_sep in Hb. destruct b as [|c b]; [reflexivity|].
    cbn in *. apply andb_true_iff in Hb. destruct Hb as [Hc _].
    apply negb_true_iff in Hc. exact Hc. }
  rewrite Hstart, Hend. rewrite orb_false_r.
  destruct (String.eqb a EmptyString) eqn:Ea.
  - apply String.eqb_eq in Ea. subst a. cbn. apply split_of_bare, Hb.
  - apply String.eqb_neq in Ea. apply split_of_joined; assumption.
Qed.

End Paths.

(** * The file [preprocess] writes *)

Section OutputFile.

Import EstimateLeafArea.
Context (lib : Collaborators).

Lemma no_sep_app (a b : string) : no_sep (a +:+ b) <-> no_sep a /\ no_sep b.
Proof. unfold no_sep. rewrite chars_app, forallb_app. apply andb_true_iff. Qed.

Lemma basename_no_sep (p : string) : no_sep (Path.basename p).
Proof.
  unfold Path.basename, Path.split, no_sep.
  pose proof (span_spec (fun c => negb (Path.is_sep c))
                (rev (list_ascii_of_string p))) as Hspan.
  destruct (Path.span _ _) as [tail_r head_r]. destruct Hspan as (_ & Ht & _).
  cbn [snd]. rewrite list_ascii_of_string_of_list_ascii, forallb_rev. exact Ht.
Qed.

(** Root and extension of [os.path.splitext] make up the path. *)
Lemma splitext_concat (p : string) :
  fst (Path.splitext p) +:+ snd (Path.splitext p) = p.
Proof.
  unfold Path.splitext.
  pose proof (span_spec (fun c => negb (Path.is_dot c))
                (rev (list_ascii_of_string p))) as Hspan.
  destruct (Path.span _ _) as [ext_r rest]. destruct Hspan as (Hr & _ & _).
  destruct rest as [|dot before_r]; [apply append_empty_r|].
  destruct (forallb (fun c => negb (Path.is_sep c)) ext_r && existsb _ _);
    cbn [fst snd]; [|apply append_empty_r].
  rewrite <- string_of_app.
  change (dot :: rev ext_r) with ([dot] ++ rev ext_r).
  rewrite app_assoc. change (rev before_r ++ [dot]) with (rev (dot :: before_r)).
  rewrite <- rev_app_distr, <- Hr, rev_involutive.
  apply string_of_list_ascii_of_string.
Qed.

(** [os.path.split] of a joined pair. *)
Lemma split_of_join (a b : string) :
  no_sep b -> Path.endswith_sep a = false ->
  Path.split (Path.join a b) = (a, b).
Proof.
  intros Hb Hend. unfold Path.join.
  assert (Hstart : Path.startswith_sep b = false).
  { unfold no_sep in Hb. destruct b as [|c b]; [reflexivity|].
    cbn in *. apply andb_true_iff in Hb. destruct Hb as [Hc _].
    apply negb_true_iff in Hc. exact Hc. }
  rewrite Hstart, Hend, orb_false_r.
  destruct (String.eqb a EmptyString) eqn:Ea.
  - apply String.eqb_eq in Ea. subst a. cbn. apply split_of_bare, Hb.
  - apply String.eqb_neq in Ea. apply split_of_joined; assumption.
Qed.

Lemma stem_no_sep (p : string) :
  no_sep (fst (Path.splitext (Path.basename p)) +:+ ".jpg").
Proof.
  apply no_sep_app. split; [|reflexivity].
  pose proof (splitext_concat (Path.basename p)) as Hcat.
  pose proof (basename_no_sep p) as Hb. rewrite <- Hcat in Hb.
  apply no_sep_app in Hb. tauto.
Qed.

(** X18.  [preprocess] names its output after its input: when the
    expanded output directory does not end with a separator, the file it
    writes lies directly in that directory, and its name is the base name
    of the input with the extension replaced by [.jpg]. *)
Theorem output_file_lies_in_output_dir (c : Config) (img : string) :
  Path.endswith_sep (expanduser lib (output_dir c)) = false ->
  Path.split (output_file lib c img)
  = (expanduser lib (output_dir c),
     fst (Path.splitext (Path.basename img)) +:+ ".jpg")
  /\ fst (Path.splitext (Path.basename img))
     +:+ snd (Path.splitext (Path.basename img)) = Path.basename img.
Proof.
  intros Hend. split.
  - unfold output_file. apply split_of_join; [apply stem_no_sep|exact Hend].
  - apply splitext_concat.
Qed.

Lemma basename_of_joined (dir name : string) :
  no_sep name -> Path.basename (dir +:+ "/" +:+ name) = name.
Proof.
  unfold no_sep, Path.basename, Path.split. intros Hn.
  rewrite !chars_app. cbn [list_ascii_of_string app].
  rewrite rev_app_distr. cbn [rev]. rewrite <- app_assoc. cbn [app].
  rewrite span_exact; [|rewrite forallb_rev; exact Hn|reflexivity].
  cbn [snd]. rewrite rev_involutive. apply string_of_list_ascii_of_string.
Qed.

Lemma existsb_rev {A} (p : A -> bool) (l : list A) :
  existsb p (rev l) = existsb p l.
Proof.
  induction l as [|x l IH]; cbn; [reflexivity|].
  rewrite existsb_app, IH. cbn. rewrite orb_false_r. apply orb_comm.
Qed.

Lemma splitext_of_named (stem ext : string) :
  no_sep stem -> some_non_dot stem -> no_dot ext -> no_sep ext ->
  Path.splitext (stem +:+ "." +:+ ext) = (stem, "." +:+ ext).
Proof.
  unfold no_sep, some_non_dot, no_dot, Path.splitext.
  intros Hs Hnd He Hes.
  rewrite !chars_app. cbn [list_ascii_of_string app].
  rewrite rev_app_distr. cbn [rev]. rewrite <- app_assoc. cbn [app].
  rewrite span_exact; [|rewrite forallb_rev; exact He|reflexivity].
  rewrite <- (app_nil_r (rev (list_ascii_of_string stem))) at 1.
  rewrite span_exact; [|rewrite forallb_rev; exact Hs|exact I].
  cbn [fst]. rewrite forallb_rev, Hes, existsb_rev, Hnd. cbn [andb].
  rewrite !rev_involutive, string_of_list_ascii_of_string.
  change (string_of_list_ascii ("."%char :: list_ascii_of_string ext))
    with (String "." (string_of_list_ascii (list_ascii_of_string ext))).
  rewrite string_of_list_ascii_of_string. reflexivity.
Qed.

(** X19.  Inputs that differ only in their extension share one output
    file: for a name [stem] and two extensions, [dir/stem.e1] and
    [dir/stem.e2] are both written to [stem.jpg] under the output
    directory, so the second run replaces the result of the first. *)
Theorem same_stem_same_output (c : Config) (dir stem e1 e2 : string) :
  no_sep stem -> some_non_dot stem ->
  no_dot e1 -> no_sep e1 -> no_dot e2 -> no_sep e2 ->
  output_file lib c (dir +:+ "/" +:+ stem +:+ "." +:+ e1)
  = Path.join (expanduser lib (output_dir c)) (stem +:+ ".jpg")
  /\ output_file lib c (dir +:+ "/" +:+ stem +:+ "." +:+ e1)
     = output_file lib c (dir +:+ "/" +:+ stem +:+ "." +:+ e2).
Proof.
  intros Hs Hnd Hd1 Hs1 Hd2 Hs2.
  assert (Hout : forall e, no_dot e -> no_sep e ->
            output_file lib c (dir +:+ "/" +:+ stem +:+ "." +:+ e)
            = Path.join (expanduser lib (output_dir c)) (stem +:+ ".jpg")).
  { intros e Hd He. unfold output_file.
    rewrite basename_of_joined.
    - rewrite splitext_of_named by assumption. reflexivity.
    - apply no_sep_app. split; [exact Hs|].
      apply no_sep_app. split; [reflexivity|exact He]. }
  split; [apply Hout; assumption|].
  rewrite !Hout by assumption. reflexivity.
Qed.

(** A name that ends in [.jpg] finds an encoder, and so does the name
    [preprocess] writes to. *)
Lemma find_encoder_suffix (n : Z) (p : string) (pre : list ascii) :
  list_ascii_of_string p = pre ++ list_ascii_of_string ".jpg" ->
  Cv2.find_encoder lib n p = true.
Proof.
  intros H. unfold Cv2.find_encoder. rewrite H, List.rev_app_distr.
  reflexivity.
Qed.

Lemma output_file_has_encoder (n : Z) (c : Config) (img : string) :
  Cv2.find_encoder lib n (output_file lib c img) = true.
Proof.
  unfold output_file, Path.join.
  set (a := expanduser lib (output_dir c)).
  set (stem := fst (Path.splitext (Path.basename img))).
  destruct (Path.startswith_sep _);
    [|destruct (String.eqb a EmptyString || Path.endswith_sep a)].
  - apply (find_encoder_suffix _ _ (list_ascii_of_string stem)).
    apply chars_app.
  - apply (find_encoder_suffix _ _ (list_ascii_of_string a
                                      ++ list_ascii_of_string stem)).
    rewrite !chars_app, <- !app_assoc. reflexivity.
  - apply (find_encoder_suffix _ _ (list_ascii_of_string a
                                      ++ list_ascii_of_string "/"
                                      ++ list_ascii_of_string stem)).
    rewrite !chars_app, <- !app_assoc. reflexivity.
Qed.

End OutputFile.

(** * The effects of [preprocess] *)

Section PreprocessEffects.

Import EstimateLeafArea.
Context (lib : Collaborators).

(** X20.  [preprocess] applies its transformations in the order crop,
    mask, scale bar, and writes the result: for a call that passes the
    checks, every pixel of the written image is the pixel of the cropped
    image at the same place, unless it lies in the mask window, where it is
    white, or in the scale bar, where it is red; where both overlap it is
    red.  The window and the bar are positioned on the cropped image.
    The configuration is left as it was and the output file is the only
    path written. *)
Theorem preprocess_file_writes_transformed
    (img : string) (st : state) (scan cropped : image) :
  let c := self st in
  let n := red_scale_pixels c in
  let y0 := mask_offset_y c in
  let x0 := mask_offset_x c in
  let side := mask_pixels c in
  output_dir c <> EmptyString ->
  fst (Path.split img) <> output_dir c ->
  Cv2.imread (disk st) (expanduser lib img) = Some scan ->
  fst (crop_edges (shape scan) scan st) = Ok cropped ->
  Cv2.empty cropped = false ->
  (mask_scale c = 0
   \/ (0 <= y0 /\ 0 <= x0 /\ 0 <= side
       /\ y0 + side <= fst (shape scan) /\ x0 + side <= snd (shape scan))) ->
  (red_scale c = 0
   \/ (0 <= n /\ n <= fst (shape scan) /\ n <= snd (shape scan))) ->
  writable (disk st) (output_file lib c img) = true ->
  exists result,
    preprocess_file lib img st
    = (Ok tt, State c (<[output_file lib c img := written result]> (disk st)))
    /\ length result = length cropped
    /\ forall i j,
         cell result i j
         = option_map
             (fun p =>
                if negb (red_scale c =? 0) && in_window 0 n 0 n i j
                then BGR 0 0 255
                else if negb (mask_scale c =? 0)
                        && in_window y0 (y0 + side) x0 (x0 + side) i j
                then BGR 255 255 255
                else p)
             (cell cropped i j).
Proof.
  intros c n y0 x0 side Hout Hdiff Hread Hcrop Hne Hmask Hred Hw.
  pose proof (preprocess_file_cases lib img st) as Hc. cbv zeta in Hc.
  rewrite Hc. clear Hc. fold c.
  apply String.eqb_neq in Hout, Hdiff. rewrite Hout, Hdiff. cbn [when].
  unfold mret, M_ret. rewrite Hread, Hcrop.
  pose proof (mask_existing_scale_run (shape scan) cropped st) as Hm.
  cbv zeta in Hm. rewrite Hm. clear Hm. fold c y0 x0 side. cbn [fst].
  set (masked := if mask_scale c =? 0 then cropped
                 else Np.assign2 y0 (y0 + side) x0 (x0 + side) (set_red 255)
                        (Np.assign2 y0 (y0 + side) x0 (x0 + side) (set_green 255)
                           (Np.assign2 y0 (y0 + side) x0 (x0 + side)
                              (set_blue 255) cropped))).
  assert (Hmasked :
    (if mask_scale c =? 0 then Ok cropped
     else if (y0 <? 0) || (x0 <? 0) || (side <? 0)
     then Raise NegativeMaskParameter
     else if (fst (shape scan) <? y0 + side) || (snd (shape scan) <? x0 + side)
     then Raise MaskExceedsBounds
     else Ok (Np.assign2 y0 (y0 + side) x0 (x0 + side) (set_red 255)
                (Np.assign2 y0 (y0 + side) x0 (x0 + side) (set_green 255)
                   (Np.assign2 y0 (y0 + side) x0 (x0 + side)
                      (set_blue 255) cropped)))) = Ok masked).
  { unfold masked. destruct (mask_scale c =? 0) eqn:E0; [reflexivity|].
    destruct Hmask as [Hz|(Hy & Hx & Hs & HH & HW)]; [lia|].
    destruct ((y0 <? 0) || (x0 <? 0) || (side <? 0)) eqn:E1; [lia|].
    destruct ((fst (shape scan) <? y0 + side)
              || (snd (shape scan) <? x0 + side)) eqn:E2; [lia|]. reflexivity. }
  rewrite Hmasked. clear Hmasked.
  pose proof (add_red_scale_run (shape scan) masked st) as Hr.
  cbv zeta in Hr. rewrite Hr. clear Hr. fold c n. cbn [fst].
  set (painted := if red_scale c =? 0 then masked
                  else Np.assign2 0 n 0 n (set_red 255)
                         (Np.assign2 0 n 0 n (set_green 0)
                            (Np.assign2 0 n 0 n (set_blue 0) masked))).
  assert (Hpainted :
    (if red_scale c =? 0 then Ok masked
     else if (fst (shape scan) <? n) || (snd (shape scan) <? n)
     then Raise ScaleBarExceedsBounds
     else Ok (Np.assign2 0 n 0 n (set_red 255)
                (Np.assign2 0 n 0 n (set_green 0)
                   (Np.assign2 0 n 0 n (set_blue 0) masked)))) = Ok painted).
  { unfold painted. destruct (red_scale c =? 0) eqn:E0; [reflexivity|].
    destruct Hred as [Hz|(H0 & HH & HW)]; [lia|].
    destruct ((fst (shape scan) <? n) || (snd (shape scan) <? n)) eqn:E2;
      [lia|reflexivity]. }
  rewrite Hpainted. clear Hpainted.
  assert (Hempty : Cv2.empty painted = false).
  { unfold painted, masked.
    destruct (red_scale c =? 0), (mask_scale c =? 0);
      rewrite ?empty_assign2; exact Hne. }
  rewrite imwrite_run, Hempty, output_file_has_encoder, Hw.
  exists painted. split; [reflexivity|]. split.
  - unfold painted, masked, Np.assign2.
    destruct (red_scale c =? 0), (mask_scale c =? 0);
      rewrite ?length_assign; reflexivity.
  - intros i j. unfold painted, masked.
    destruct (red_scale c =? 0) eqn:Er, (mask_scale c =? 0) eqn:Em;
      cbn [negb andb].
    + destruct (cell cropped i j); reflexivity.
    + destruct Hmask as [Hz|(Hy & Hx & Hs & _)]; [lia|].
      rewrite !cell_assign2 by lia.
      destruct (cell cropped i j); cbn; [|reflexivity].
      destruct (in_window _ _ _ _ i j); reflexivity.
    + destruct Hred as [Hz|(H0 & _)]; [lia|].
      rewrite !cell_assign2 by lia.
      destruct (cell cropped i j); cbn; [|reflexivity].
      destruct (in_window _ _ _ _ i j); reflexivity.
    + destruct Hmask as [Hz|(Hy & Hx & Hs & _)]; [lia|].
      destruct Hred as [Hz|(H0 & _)]; [lia|].
      rewrite !cell_assign2 by lia.
      destruct (cell cropped i j); cbn; [|reflexivity].
      destruct (in_window 0 n 0 n i j),
               (in_window y0 (y0 + side) x0 (x0 + side) i j); reflexivity.
Qed.

(** X21.  Whatever the outcome, [preprocess] on one file leaves the
    configuration as it was and changes at most two paths, the output file
    and the directory [preprocessed] next to the input, the latter only
    when the output directory is empty; a failure with a non-empty output
    directory changes nothing. *)
Theorem preprocess_file_footprint (img : string) (st : state) :
  let st' := snd (preprocess_file lib img st) in
  let dir := fst (Path.split img) +:+ "/preprocessed" in
  self st' = self st
  /\ (forall p, p <> output_file lib (self st) img ->
                p <> dir \/ output_dir (self st) <> EmptyString ->
                disk st' !! p = disk st !! p)
  /\ (output_dir (self st) <> EmptyString ->
      forall e, fst (preprocess_file lib img st) = Raise e ->
                disk st' = disk st).
Proof.
  cbv zeta.
  pose proof (preprocess_file_cases lib img st) as Hc. cbv zeta in Hc.
  rewrite Hc. clear Hc.
  set (dir := fst (Path.split img) +:+ "/preprocessed").
  assert (Hpre : exists r st1,
            when (String.eqb (output_dir (self st)) EmptyString) (makedirs dir) st
            = (r, st1)
            /\ self st1 = self st
            /\ (forall p, p <> dir \/ output_dir (self st) <> EmptyString ->
                          disk st1 !! p = disk st !! p)
            /\ (output_dir (self st) <> EmptyString -> st1 = st)).
  { unfold makedirs. run.
    destruct (String.eqb (output_dir (self st)) EmptyString) eqn:Eo.
    - apply String.eqb_eq in Eo.
      destruct (disk st !! dir) eqn:Ed; eexists; eexists;
        (split; [reflexivity|]); cbn [self disk].
      + repeat split; reflexivity.
      + split; [reflexivity|]. split; [|intros; contradiction].
        intros p [Hp|Hp]; [|contradiction].
        apply lookup_insert_ne. congruence.
    - eexists; eexists. split; [reflexivity|]. repeat split; reflexivity. }
  destruct Hpre as (r & st1 & -> & Hself & Hdisk & Hsame).
  destruct r as [[]|e0].
  2: { cbn [fst snd]. split; [exact Hself|]. split; [intros p _; apply Hdisk|].
       intros Ho e _. rewrite (Hsame Ho). reflexivity. }
  set (tail :=
         match Cv2.imread (disk st1) (expanduser lib img) with
         | Some scan =>
             match fst (crop_edges (shape scan) scan st1) with
             | Ok scan1 =>
                 match fst (mask_existing_scale (shape scan) scan1 st1) with
                 | Ok scan2 =>
                     match fst (add_red_scale (shape scan) scan2 st1) with
                     | Ok scan3 =>
                         Cv2.imwrite lib 3 (output_file lib (self st) img) scan3 st1
                     | Raise e => (Raise e, st1)
                     end
                 | Raise e => (Raise e, st1)
                 end
             | Raise e => (Raise e, st1)
             end
         | None => (Raise AttributeError, st1)
         end).
  assert (Htail : self (snd tail) = self st1
                  /\ (forall p, p <> output_file lib (self st) img ->
                                disk (snd tail) !! p = disk st1 !! p)
                  /\ (forall e, fst tail = Raise e -> snd tail = st1)).
  { unfold tail.
    destruct (Cv2.imread _ _) as [scan|]; [|repeat split; reflexivity].
    destruct (fst (crop_edges _ _ _)) as [scan1|]; [|repeat split; reflexivity].
    destruct (fst (mask_existing_scale _ _ _)) as [scan2|];
      [|repeat split; reflexivity].
    destruct (fst (add_red_scale _ _ _)) as [scan3|];
      [|repeat split; reflexivity].
    rewrite imwrite_run, output_file_has_encoder.
    destruct (Cv2.empty scan3); [repeat split; reflexivity|]. cbn [fst snd negb orb].
    destruct (writable _ _); cbn [self disk].
    - split; [reflexivity|]. split; [|discriminate].
      intros p Hp. apply lookup_insert_ne. congruence.
    - repeat split. }
  destruct Htail as (Ht1 & Ht2 & Ht3).
  destruct (String.eqb (fst (Path.split img)) (output_dir (self st))).
  - cbn [fst snd]. split; [exact Hself|]. split; [intros p _; apply Hdisk|].
    intros Ho e _. rewrite (Hsame Ho). reflexivity.
  - fold tail. split; [congruence|]. split.
    + intros p Hp Hd. rewrite Ht2 by exact Hp. apply Hdisk, Hd.
    + intros Ho e He. rewrite (Ht3 e He). rewrite (Hsame Ho). reflexivity.
Qed.

(** X22.  With an empty output directory, [preprocess] on a file that has
    a directory part creates the directory [preprocessed] next to the
    input but, every transformation being off, writes the image under its
    bare new name, outside that directory; and a second call for the same
    input fails with FileExistsError, because the directory is there. *)
Theorem empty_output_dir_writes_elsewhere (img : string) (st : state) (scan : image) :
  let c := self st in
  let dir := fst (Path.split img) +:+ "/preprocessed" in
  let out := fst (Path.splitext (Path.basename img)) +:+ ".jpg" in
  output_dir c = EmptyString ->
  expanduser lib EmptyString = EmptyString ->
  fst (Path.split img) <> EmptyString ->
  disk st !! dir = None ->
  Cv2.imread (disk st) (expanduser lib img) = Some scan ->
  Cv2.empty scan = false ->
  crop c = 0 -> mask_scale c = 0 -> red_scale c = 0 ->
  isdir (disk st) out = false -> out <> dir ->
  let st' := State c (<[out := written scan]> (<[dir := Directory]> (disk st))) in
  preprocess_file lib img st = (Ok tt, st')
  /\ Path.split out = (EmptyString, out)
  /\ preprocess_file lib img st' = (Raise FileExistsError, st').
Proof.
  cbv zeta.
  set (dir := fst (Path.split img) +:+ "/preprocessed").
  set (out := fst (Path.splitext (Path.basename img)) +:+ ".jpg").
  intros Hout Hexp Hparent Hfree Hread Hne Hcrop Hmask Hred Hnd Hod.
  assert (Hbare : Path.split out = (EmptyString, out))
    by (apply split_of_bare, stem_no_sep).
  assert (Hfile : output_file lib (self st) img = out).
  { unfold output_file. rewrite Hout, Hexp. unfold Path.join.
    destruct (Path.startswith_sep _); reflexivity. }
  split; [|split; [exact Hbare|]].
  - pose proof (preprocess_file_cases lib img st) as Hc. cbv zeta in Hc.
    rewrite Hc. clear Hc. fold dir. rewrite Hout. cbn [String.eqb when].
    unfold makedirs. run. rewrite Hfree.
    destruct (String.eqb (fst (Path.split img)) EmptyString) eqn:Ep;
      [apply String.eqb_eq in Ep; contradiction|].
    cbn [disk].
    assert (Hread' : Cv2.imread (<[dir := Directory]> (disk st))
                       (expanduser lib img) = Some scan).
    { unfold Cv2.imread in *. rewrite lookup_insert_ne; [exact Hread|].
      intros E. rewrite <- E, Hfree in Hread. discriminate Hread. }
    rewrite Hread'.
    rewrite crop_edges_run. cbn [self fst]. rewrite Hcrop. cbn [Z.eqb fst].
    rewrite mask_disabled by exact Hmask. cbn [fst].
    pose proof (add_red_scale_run (shape scan) scan
                  (State (self st) (<[dir := Directory]> (disk st)))) as Hr.
    cbv zeta in Hr. rewrite Hr. clear Hr. cbn [self fst].
    rewrite Hred. cbn [Z.eqb].
    assert (Henc : Cv2.find_encoder lib 3 out = true).
    { apply (find_encoder_suffix lib 3 _
               (list_ascii_of_string (fst (Path.splitext (Path.basename img))))).
      apply chars_app. }
    rewrite Hfile, imwrite_run, Hne, Henc. cbn [disk self negb orb].
    assert (Hw : writable (<[dir := Directory]> (disk st)) out = true).
    { unfold writable. rewrite Hbare. cbn [fst String.eqb orb andb].
      unfold isdir in *. rewrite lookup_insert_ne by congruence.
      rewrite Hnd. reflexivity. }
    rewrite Hw. reflexivity.
  - match goal with |- preprocess_file lib img ?s = _ =>
      pose proof (preprocess_file_cases lib img s) as Hc end.
    cbv zeta in Hc. rewrite Hc. clear Hc. cbn [self]. fold dir. rewrite Hout.
    cbn [String.eqb when]. unfold makedirs. run.
    rewrite lookup_insert_ne by congruence. rewrite lookup_insert_eq.
    reflexivity.
Qed.

End PreprocessEffects.

(** * The sub-command [preprocess] *)

Section CommandLine.

Import EstimateLeafArea.
Context (lib : Collaborators) (abspath : string -> string)
        (pool : string -> M unit) (tmp : string) (cpus : Z).

Lemma mapi_from_id {A} (f : Z -> A -> A) (l : list A) (i : Z) :
  (forall k x, f k x = x) -> Np.mapi_from i f l = l.
Proof.
  intros Hf. revert i. induction l as [|x l IH]; intros i; cbn; [reflexivity|].
  rewrite Hf, IH. reflexivity.
Qed.

Lemma assign_id {A} (start stop : Z) (g : A -> A) (l : list A) :
  (forall x, g x = x) -> Np.assign start stop g l = l.
Proof.
  intros Hg. unfold Np.assign. apply mapi_from_id.
  intros k x. destruct (_ && _); [apply Hg|reflexivity].
Qed.

Lemma assign_empty_range {A} (start : Z) (f : A -> A) (l : list A) :
  Np.assign start start f l = l.
Proof.
  unfold Np.assign. apply mapi_from_id. intros k x.
  destruct ((_ <=? k) && (k <? _)) eqn:E; [exfalso; blia|reflexivity].
Qed.

Lemma assign2_empty_columns {A} (y0 y1 x0 : Z) (f : A -> A) (scan : list (list A)) :
  Np.assign2 y0 y1 x0 x0 f scan = scan.
Proof. unfold Np.assign2. apply assign_id. intros row. apply assign_empty_range. Qed.

(** A scale bar of side 0 is no scale bar. *)
Lemma red_scale_of_side_zero (scan0 scan : image) (st : state) :
  red_scale_pixels (self st) = 0 ->
  add_red_scale (shape scan0) scan st = (Ok scan, st).
Proof.
  intros Hn. pose proof (add_red_scale_run (shape scan0) scan st) as Hr.
  cbv zeta in Hr. rewrite Hr, Hn.
  destruct (red_scale (self st) =? 0); [reflexivity|].
  destruct ((fst (shape scan0) <? 0) || (snd (shape scan0) <? 0)) eqn:E.
  - exfalso. unfold shape in E. cbn [fst snd] in E. blia.
  - rewrite !assign2_empty_columns. reflexivity.
Qed.

(** A mask window of side 0 whitens nothing. *)
Lemma mask_of_side_zero (dims : Z * Z) (scan masked : image) (st : state) :
  mask_pixels (self st) = 0 ->
  fst (mask_existing_scale dims scan st) = Ok masked -> masked = scan.
Proof.
  intros Hn. pose proof (mask_existing_scale_run dims scan st) as Hm.
  cbv zeta in Hm. rewrite Hm, Hn. cbn [fst]. rewrite !Z.add_0_r.
  destruct (mask_scale (self st) =? 0); [congruence|].
  destruct ((mask_offset_y (self st) <? 0) || (mask_offset_x (self st) <? 0)
            || (0 <? 0)); [intros Hx; discriminate Hx|].
  destruct ((fst dims <? mask_offset_y (self st))
            || (snd dims <? mask_offset_x (self st)));
    [intros Hx; discriminate Hx|].
  rewrite !assign2_empty_columns. congruence.
Qed.

(** Two configurations that agree on the output directory and the crop
    margin, the first of which, wherever its masking and its scale bar
    succeed, gives what the second gives: a successful [preprocess] with
    the first is matched by the second. *)
Lemma preprocess_file_refines (img : string) (c1 c2 : Config) (fs : filesystem) :
  output_dir c1 = output_dir c2 ->
  crop c1 = crop c2 ->
  (forall dims scan fs' r,
      fst (mask_existing_scale dims scan (State c1 fs')) = Ok r ->
      fst (mask_existing_scale dims scan (State c2 fs')) = Ok r) ->
  (forall (scan0 scan : image) fs' r,
      fst (add_red_scale (shape scan0) scan (State c1 fs')) = Ok r ->
      fst (add_red_scale (shape scan0) scan (State c2 fs')) = Ok r) ->
  fst (preprocess_file lib img (State c1 fs)) = Ok tt ->
  same_outcome (preprocess_file lib img (State c1 fs))
               (preprocess_file lib img (State c2 fs)).
Proof.
  intros Hout Hcrop Hmask Hred.
  pose proof (preprocess_file_cases lib img (State c1 fs)) as H1.
  pose proof (preprocess_file_cases lib img (State c2 fs)) as H2.
  cbv zeta in H1, H2. rewrite H1, H2. clear H1 H2. cbn [self].
  unfold output_file. rewrite <- Hout.
  assert (Hpre : exists r fs1,
            when (String.eqb (output_dir c1) EmptyString)
                 (makedirs (fst (Path.split img) +:+ "/preprocessed"))
                 (State c1 fs) = (r, State c1 fs1)
            /\ when (String.eqb (output_dir c1) EmptyString)
                 (makedirs (fst (Path.split img) +:+ "/preprocessed"))
                 (State c2 fs) = (r, State c2 fs1)).
  { unfold makedirs. run. destruct (String.eqb (output_dir c1) EmptyString).
    - cbn [when self disk].
      destruct (fs !! (fst (Path.split img) +:+ "/preprocessed"));
        eexists; eexists; split; reflexivity.
    - eexists; eexists; split; reflexivity. }
  destruct Hpre as (r & fs1 & -> & ->).
  destruct r as [[]|e]; [|(cbn [fst]; intros Hx; discriminate Hx)].
  destruct (String.eqb (fst (Path.split img)) (output_dir c1)); [(cbn [fst]; intros Hx; discriminate Hx)|].
  cbn [disk].
  destruct (Cv2.imread fs1 (expanduser lib img)) as [scan|]; [|(cbn [fst]; intros Hx; discriminate Hx)].
  rewrite !crop_edges_run. cbn [fst self]. rewrite <- Hcrop.
  destruct (if crop c1 =? 0 then _ else _) as [scan1|e]; [|(cbn [fst]; intros Hx; discriminate Hx)].
  destruct (fst (mask_existing_scale (shape scan) scan1 (State c1 fs1)))
    as [scan2|e] eqn:Em; [|(cbn [fst]; intros Hx; discriminate Hx)].
  rewrite (Hmask _ _ _ _ Em).
  destruct (fst (add_red_scale (shape scan) scan2 (State c1 fs1)))
    as [scan3|e] eqn:Er; [|(cbn [fst]; intros Hx; discriminate Hx)].
  rewrite (Hred _ _ _ _ Er). intros _.
  apply imwrite_same_outcome.
Qed.

Lemma main_preprocess_run (args : preprocess_args) (st : state) :
  let out := abspath (args_output_dir args) in
  let c := assign_preprocess_args args
             (set_output_dir out (fresh_estimator tmp cpus)) in
  main_preprocess lib abspath pool tmp cpus args st
  = if path_exists (disk st) out
    then (Raise OutputDirectoryExists, State (fresh_estimator tmp cpus) (disk st))
    else
      let fs1 := <[out := Directory]> (disk st) in
      if String.eqb (fst (Path.split (abspath (args_input args)))) out
      then (Raise IdenticalSourceDestination,
            State (set_output_dir out (fresh_estimator tmp cpus)) fs1)
      else preprocess lib pool (args_input args) (State c fs1).
Proof.
  cbv zeta. unfold main_preprocess, makedirs, path_exists. run.
  destruct (disk st !! abspath (args_output_dir args)) eqn:E; cbn [negb].
  - reflexivity.
  - cbn [self disk]. rewrite E.
    destruct (String.eqb _ _); reflexivity.
Qed.

(** Two configurations that agree on the output directory and the crop
    margin, and whose masking and scale bar give the same results, give
    the same [preprocess]. *)
Lemma preprocess_file_congruence_steps (img : string) (c1 c2 : Config)
    (fs : filesystem) :
  output_dir c1 = output_dir c2 ->
  crop c1 = crop c2 ->
  (forall dims scan fs',
      fst (mask_existing_scale dims scan (State c1 fs'))
      = fst (mask_existing_scale dims scan (State c2 fs'))) ->
  (forall (scan0 scan : image) fs',
      fst (add_red_scale (shape scan0) scan (State c1 fs'))
      = fst (add_red_scale (shape scan0) scan (State c2 fs'))) ->
  same_outcome (preprocess_file lib img (State c1 fs))
               (preprocess_file lib img (State c2 fs)).
Proof.
  intros Hout Hcrop Hmask Hred.
  pose proof (preprocess_file_cases lib img (State c1 fs)) as H1.
  pose proof (preprocess_file_cases lib img (State c2 fs)) as H2.
  cbv zeta in H1, H2. rewrite H1, H2. clear H1 H2. cbn [self].
  unfold output_file. rewrite <- Hout.
  assert (Hpre : exists r fs1,
            when (String.eqb (output_dir c1) EmptyString)
                 (makedirs (fst (Path.split img) +:+ "/preprocessed"))
                 (State c1 fs) = (r, State c1 fs1)
            /\ when (String.eqb (output_dir c1) EmptyString)
                 (makedirs (fst (Path.split img) +:+ "/preprocessed"))
                 (State c2 fs) = (r, State c2 fs1)).
  { unfold makedirs. run. destruct (String.eqb (output_dir c1) EmptyString).
    - cbn [when self disk].
      destruct (fs !! (fst (Path.split img) +:+ "/preprocessed"));
        eexists; eexists; split; reflexivity.
    - eexists; eexists; split; reflexivity. }
  destruct Hpre as (r & fs1 & -> & ->).
  destruct r as [[]|e]; [|split; reflexivity].
  destruct (String.eqb (fst (Path.split img)) (output_dir c1));
    [split; reflexivity|].
  cbn [disk].
  destruct (Cv2.imread fs1 (expanduser lib img)) as [scan|];
    [|split; reflexivity].
  rewrite !crop_edges_run. cbn [fst self]. rewrite <- Hcrop.
  destruct (if crop c1 =? 0 then _ else _) as [scan1|e]; [|split; reflexivity].
  rewrite <- Hmask.
  destruct (fst (mask_existing_scale (shape scan) scan1 (State c1 fs1)))
    as [scan2|e]; [|split; reflexivity].
  rewrite <- Hred.
  destruct (fst (add_red_scale (shape scan) scan2 (State c1 fs1)))
    as [scan3|e]; [|split; reflexivity].
  apply imwrite_same_outcome.
Qed.

(** X23.  On the command line the option [--red_scale] has no effect:
    the sub-command only sets [red_scale], and the side of the square,
    [red_scale_pixels], keeps its default 0.  For an input that is not a
    directory, the outcome and the files left behind are the same for every
    value of the option. *)
Theorem red_scale_option_has_no_effect (args : preprocess_args) (st : state) (n : Z) :
  isdir (disk st) (args_input args) = false ->
  args_input args <> abspath (args_output_dir args) ->
  same_outcome
    (main_preprocess lib abspath pool tmp cpus args st)
    (main_preprocess lib abspath pool tmp cpus (args_with_red_scale n args) st).
Proof.
  intros Hdir Hne.
  pose proof (main_preprocess_run args st) as H1.
  pose proof (main_preprocess_run (args_with_red_scale n args) st) as H2.
  cbv zeta in H1, H2. rewrite H1, H2. clear H1 H2.
  cbn [args_with_red_scale args_input args_output_dir].
  destruct (path_exists _ _); [split; reflexivity|].
  destruct (String.eqb _ _); [split; reflexivity|].
  unfold preprocess. run.
  assert (Hd : isdir (<[abspath (args_output_dir args) := Directory]> (disk st))
                 (args_input args) = false).
  { unfold isdir in *. rewrite lookup_insert_ne by congruence. exact Hdir. }
  rewrite Hd. destruct (isfile _ _); [|split; reflexivity].
  apply preprocess_file_congruence_steps; try reflexivity.
  - intros dims scan fs'.
    match goal with |- fst (mask_existing_scale _ _ ?s1)
                       = fst (mask_existing_scale _ _ ?s2) =>
      pose proof (mask_existing_scale_run dims scan s1) as H1;
      pose proof (mask_existing_scale_run dims scan s2) as H2
    end.
    cbv zeta in H1, H2. rewrite H1, H2. reflexivity.
  - intros scan0 scan fs'. rewrite !red_scale_of_side_zero by reflexivity.
    reflexivity.
Qed.

(** X24.  On the command line the option [--mask_scale] cannot whiten
    anything: the sub-command sets [mask_scale], and the side of the
    window, [mask_pixels], keeps its default 0.  The option can make the
    run fail; whenever a run for an input that is not a directory succeeds,
    its outcome and the files it leaves are those of the same command line
    without the option. *)
Theorem mask_scale_option_masks_nothing (args : preprocess_args) (st : state) :
  isdir (disk st) (args_input args) = false ->
  args_input args <> abspath (args_output_dir args) ->
  fst (main_preprocess lib abspath pool tmp cpus args st) = Ok tt ->
  same_outcome
    (main_preprocess lib abspath pool tmp cpus args st)
    (main_preprocess lib abspath pool tmp cpus (args_with_mask_scale 0 args) st).
Proof.
  intros Hdir Hne.
  pose proof (main_preprocess_run args st) as H1.
  pose proof (main_preprocess_run (args_with_mask_scale 0 args) st) as H2.
  cbv zeta in H1, H2. rewrite H1, H2. clear H1 H2.
  cbn [args_with_mask_scale args_input args_output_dir].
  destruct (path_exists _ _); [cbn [fst]; intros Hx; discriminate Hx|].
  destruct (String.eqb _ _); [cbn [fst]; intros Hx; discriminate Hx|].
  unfold preprocess. run.
  assert (Hd : isdir (<[abspath (args_output_dir args) := Directory]> (disk st))
                 (args_input args) = false).
  { unfold isdir in *. rewrite lookup_insert_ne by congruence. exact Hdir. }
  rewrite Hd. destruct (isfile _ _); [|cbn [fst]; intros Hx; discriminate Hx].
  apply preprocess_file_refines; try reflexivity.
  - intros dims scan fs' r Hr.
    apply mask_of_side_zero in Hr; [|reflexivity]. subst r.
    rewrite mask_disabled by reflexivity. reflexivity.
  - intros scan0 scan fs' r.
    rewrite !red_scale_of_side_zero by reflexivity. auto.
Qed.

End CommandLine.

(** * The further properties on the sample scans *)

Section Frame2.

Import EstimateLeafArea.
Context (lib : Collaborators).

(** X25.  Of the attributes of the object, a run of [estimate] on one
    file can change [res] only, and it leaves [res] alone too when an
    override is given. *)
Theorem estimate_file_changes_only_res (img : string) (st : state) :
  let c' := self (snd (estimate_file lib img st)) in
  (exists r, c' = set_res r (self st))
  /\ (~ (res (self st) == 0)%Q -> c' = self st).
Proof.
  cbv zeta. split.
  - rewrite estimate_file_self.
    destruct (resolve lib (self st) (disk st) img) as [dpi|e].
    + exists dpi. reflexivity.
    + exists (res (self st)). symmetry. apply set_res_same.
  - intros Hres. apply estimate_file_keeps_override.
    destruct (Qeq_bool (res (self st)) 0) eqn:E; [|reflexivity].
    apply Qeq_bool_iff in E. contradiction.
Qed.

End Frame2.

Lemma estimate_file_changes_only_res_witness :
  let st := State (set_res 300 small_config) small_disk in
  self (snd (EstimateLeafArea.estimate_file Fixture.lib "/scans/leaf.jpg" st))
  = self st.
Proof.
  cbv zeta.
  apply (estimate_file_changes_only_res Fixture.lib "/scans/leaf.jpg"
           (State (set_res 300 small_config) small_disk)).
  cbn. discriminate.
Defined.

Lemma estimate_file_failure_writes_nothing_witness :
  let st := State (with_threshold 300 (set_res 300 small_config)) small_disk in
  disk (snd (EstimateLeafArea.estimate_file Fixture.lib "/scans/leaf.jpg" st))
  = disk st.
Proof.
  cbv zeta.
  apply (estimate_file_failure_writes_nothing Fixture.lib "/scans/leaf.jpg"
           (State (with_threshold 300 (set_res 300 small_config)) small_disk)
           InvalidThreshold).
  vm_compute. reflexivity.
Defined.

Lemma estimate_file_footprint_witness :
  let st := State (set_res 300 small_config) small_disk in
  disk (snd (EstimateLeafArea.estimate_file Fixture.lib "/scans/leaf.jpg" st))
    !! "/scans/leaf.jpg"
  = disk st !! "/scans/leaf.jpg".
Proof.
  cbv zeta.
  destruct (estimate_file_footprint Fixture.lib "/scans/leaf.jpg"
              (State (set_res 300 small_config) small_disk)) as [H _].
  apply H. closed.
Defined.

Lemma estimate_file_saves_mask_witness :
  let st := State (set_res 300 small_config) small_disk in
  exists mask,
    disk (snd (EstimateLeafArea.estimate_file Fixture.lib "/scans/leaf.jpg" st))
    = <["/out/leaf.jpg" := written mask]> small_disk
    /\ length mask = 8%nat
    /\ cell mask 1 1 = Some (BGR 255 255 255)
    /\ cell mask 0 0 = Some (BGR 0 0 0).
Proof.
  cbv zeta.
  destruct (estimate_file_saves_mask Fixture.lib "/scans/leaf.jpg"
              (State (set_res 300 small_config) small_disk)
              Sample.leaf_and_speck 300) as (_ & Hsave & _);
    [closed|closed|closed|cbn; lia|cbn; lia|closed|closed|].
  cbv zeta in Hsave. destruct Hsave as [_ Hdisk]; [closed|].
  exists (Cv2.gray_to_bgr
            (binary_mask Fixture.lib (set_res 300 small_config)
               Sample.leaf_and_speck)).
  split; [rewrite Hdisk; vm_compute; reflexivity|].
  repeat split; vm_compute; reflexivity.
Defined.

Lemma estimate_file_metadata_failures_witness :
  let fs := <["~/leaf.jpg" := Sample.scanned 300 Sample.leaf_and_speck]>
              small_disk in
  let st := State small_config fs in
  let pool := fun _ : string => mret [] : M DataFrame in
  estimate Fixture.lib pool "/scans/bare.png" st = (Raise MissingMetadata, st)
  /\ estimate Fixture.lib pool "/scans/skew.jpg" st
     = (Raise AnisotropicResolution, st)
  /\ estimate Fixture.lib pool "~/leaf.jpg" st = (Raise OSError, st).
Proof.
  cbv zeta.
  split; [|split].
  - destruct (estimate_file_metadata_failures Fixture.lib
                (fun _ : string => mret [] : M DataFrame) "/scans/bare.png"
                (State small_config
                   (<["~/leaf.jpg" := Sample.scanned 300 Sample.leaf_and_speck]>
                      small_disk))) as (H & _);
      [reflexivity|closed|].
    eapply H; closed.
  - destruct (estimate_file_metadata_failures Fixture.lib
                (fun _ : string => mret [] : M DataFrame) "/scans/skew.jpg"
                (State small_config
                   (<["~/leaf.jpg" := Sample.scanned 300 Sample.leaf_and_speck]>
                      small_disk))) as (_ & H & _);
      [reflexivity|closed|].
    eapply H; closed.
  - destruct (estimate_file_metadata_failures Fixture.lib
                (fun _ : string => mret [] : M DataFrame) "~/leaf.jpg"
                (State small_config
                   (<["~/leaf.jpg" := Sample.scanned 300 Sample.leaf_and_speck]>
                      small_disk))) as (_ & _ & _ & H);
      [reflexivity|closed|].
    apply H. closed.
Defined.

Lemma estimate_file_override_ignores_metadata_witness :
  fst (EstimateLeafArea.estimate_file Fixture.lib "/a.jpg"
         (State (set_res 300 small_config)
            (<["/a.jpg" := Sample.scanned 600 Sample.leaf_and_speck]> ∅)))
  = fst (EstimateLeafArea.estimate_file Fixture.lib "/a.jpg"
           (State (set_res 300 small_config)
              (<["/a.jpg" :=
                   Regular (File false None None (Some Sample.leaf_and_speck))]>
                 ∅))).
Proof.
  apply (estimate_file_override_ignores_metadata Fixture.lib "/a.jpg"
           (set_res 300 small_config) ∅
           (File true (Some 600%Q) (Some 600%Q) (Some Sample.leaf_and_speck))
           (File false None None (Some Sample.leaf_and_speck))).
  - cbn. discriminate.
  - reflexivity.
Defined.

Lemma estimate_file_first_failure_witness :
  let st := State (with_cut_off (-1) (with_threshold 256 (set_res 300 small_config)))
                  small_disk in
  EstimateLeafArea.estimate_file Fixture.lib "/scans/leaf.jpg" st
  = (Raise InvalidThreshold, st).
Proof.
  cbv zeta.
  destruct (estimate_file_first_failure Fixture.lib "/scans/leaf.jpg"
              (State (with_cut_off (-1)
                        (with_threshold 256 (set_res 300 small_config)))
                     small_disk)) as [_ H].
  destruct (H 300%Q eq_refl) as [_ Hscan]. cbv zeta in Hscan.
  destruct (Hscan Sample.leaf_and_speck) as [Hthr _]; [closed|].
  apply Hthr. right. closed.
Defined.


Lemma foreground_grows_with_threshold_witness :
  let st := State (with_threshold 100 default_config) ∅ in
  let st' := State (with_threshold 200 default_config) ∅ in
  exists mask mask',
    EstimateLeafArea.classify [[50; 150; 250]] st = (Ok mask, st)
    /\ EstimateLeafArea.classify [[50; 150; 250]] st' = (Ok mask', st')
    /\ (cell mask 0 0 = Some 255 -> cell mask' 0 0 = Some 255).
Proof.
  cbv zeta.
  destruct (foreground_grows_with_threshold
              (State (with_threshold 100 default_config) ∅)
              (State (with_threshold 200 default_config) ∅)
              [[50; 150; 250]])
    as (mask & mask' & H1 & H2 & Hgrow & _); try (cbn; lia).
  exists mask, mask'. split; [exact H1|]. split; [exact H2|].
  intros H. apply (Hgrow 0%nat 0%nat 255 H). discriminate.
Defined.

Lemma larger_cut_off_keeps_fewer_witness :
  let labels := [[1; 1; 0]; [0; 2; 2]; [0; 2; 0]] in
  let st := State (with_cut_off 0 small_config) ∅ in
  let st' := State (with_cut_off 3 small_config) ∅ in
  EstimateLeafArea.remove_small_and_background (Np.unique_counts labels) st
  = (Ok [2; 3], st)
  /\ EstimateLeafArea.remove_small_and_background (Np.unique_counts labels) st'
     = (Ok [3], st').
Proof.
  cbv zeta.
  destruct (larger_cut_off_keeps_fewer
              (State (with_cut_off 0 small_config) ∅)
              (State (with_cut_off 3 small_config) ∅)
              [[1; 1; 0]; [0; 2; 2]; [0; 2; 0]])
    as (kept & kept' & H1 & H2 & Hk & _); try (cbn; lia).
  rewrite H1, H2.
  assert (E : kept = [2; 3]) by (vm_compute in H1; congruence).
  subst kept. rewrite Hk. split; reflexivity.
Defined.


Lemma crop_keeps_inner_pixels_witness :
  let st := State (with_crop 1 small_config) small_disk in
  exists scan',
    EstimateLeafArea.crop_edges (shape Sample.leaf_and_speck)
      Sample.leaf_and_speck st = (Ok scan', st)
    /\ Z.of_nat (length scan') = 6
    /\ cell scan' 0 0 = cell Sample.leaf_and_speck 1 1.
Proof.
  cbv zeta.
  destruct (crop_keeps_inner_pixels (State (with_crop 1 small_config) small_disk)
              Sample.leaf_and_speck 8 12)
    as (scan' & Hrun & Hlen & _ & Hcell);
    [reflexivity|vm_compute; repeat constructor|cbn; lia|cbn; lia|cbn; lia|].
  exists scan'. split; [exact Hrun|]. split; [exact Hlen|].
  apply (Hcell 0%nat 0%nat); cbn; lia.
Defined.

Lemma red_scale_paints_the_corner_witness :
  let st := State (with_red_scale 1 2 small_config) small_disk in
  let st_big := State (with_red_scale 1 9 small_config) small_disk in
  (exists scan',
     EstimateLeafArea.add_red_scale (8, 12) Sample.leaf_and_speck st
     = (Ok scan', st)
     /\ cell scan' 1 1 = Some (BGR 0 0 255)
     /\ cell scan' 2 2 = Some Sample.black)
  /\ EstimateLeafArea.add_red_scale (8, 12) Sample.leaf_and_speck st_big
     = (Raise ScaleBarExceedsBounds, st_big).
Proof.
  cbv zeta. split.
  - destruct (red_scale_paints_the_corner (8, 12) Sample.leaf_and_speck
                (State (with_red_scale 1 2 small_config) small_disk))
      as (_ & _ & Hpaint).
    cbv zeta in Hpaint.
    destruct Hpaint as (scan' & Hrun & _ & Hcell); try (cbn; lia).
    exists scan'. split; [exact Hrun|]. rewrite !Hcell.
    split; vm_compute; reflexivity.
  - destruct (red_scale_paints_the_corner (8, 12) Sample.leaf_and_speck
                (State (with_red_scale 1 9 small_config) small_disk))
      as (_ & Hbig & _).
    apply Hbig; cbn; lia.
Defined.

Lemma negative_red_scale_paints_from_the_end_witness :
  let st := State (with_red_scale 1 (-2) small_config) small_disk in
  exists scan',
    EstimateLeafArea.add_red_scale (shape Sample.leaf_and_speck)
      Sample.leaf_and_speck st = (Ok scan', st)
    /\ cell scan' 5 9 = Some (BGR 0 0 255)
    /\ cell scan' 6 9 = Some Sample.black
    /\ cell scan' 0 10 = Some Sample.white.
Proof.
  cbv zeta.
  destruct (negative_red_scale_paints_from_the_end Sample.leaf_and_speck
              (State (with_red_scale 1 (-2) small_config) small_disk) 12)
    as (scan' & Hrun & Hcell);
    [cbn; lia|cbn; lia|vm_compute; repeat constructor|].
  exists scan'. split; [exact Hrun|]. rewrite !Hcell.
  repeat split; vm_compute; reflexivity.
Defined.

Lemma split_decomposes_witness :
  exists slashes,
    "scans//leaf.jpg" = "scans" +:+ slashes +:+ "leaf.jpg"
    /\ all_sep slashes
    /\ (slashes <> EmptyString -> Path.endswith_sep "scans" = false).
Proof.
  destruct (split_decomposes "scans//leaf.jpg") as (slashes & Hp & Hs & _ & Hh).
  exists slashes. split; [exact Hp|]. split; [exact Hs|].
  intros Hne. apply (Hh Hne).
Defined.

Lemma split_join_round_trip_witness :
  Path.split (Path.join "/out" "leaf.jpg") = ("/out", "leaf.jpg").
Proof. apply split_join_round_trip; reflexivity. Defined.

Lemma output_file_lies_in_output_dir_witness :
  Path.split (output_file Fixture.lib small_config "~/scans/leaf.scan.png")
  = ("/out", "leaf.scan.jpg").
Proof.
  destruct (output_file_lies_in_output_dir Fixture.lib small_config
              "~/scans/leaf.scan.png") as [H _]; [reflexivity|].
  rewrite H. reflexivity.
Defined.

Lemma same_stem_same_output_witness :
  output_file Fixture.lib small_config "/scans/leaf.png" = "/out/leaf.jpg"
  /\ output_file Fixture.lib small_config "/scans/leaf.png"
     = output_file Fixture.lib small_config "/scans/leaf.tif".
Proof.
  destruct (same_stem_same_output Fixture.lib small_config
              "/scans" "leaf" "png" "tif") as [H1 H2]; try reflexivity.
  split; [exact H1|exact H2].
Defined.

Lemma preprocess_file_writes_transformed_witness :
  let c := with_red_scale 1 2 (with_mask 1 1 1 3 small_config) in
  let st := State c small_disk in
  exists result,
    EstimateLeafArea.preprocess_file Fixture.lib "/scans/leaf.jpg" st
    = (Ok tt, State c (<["/out/leaf.jpg" := written result]> small_disk))
    /\ cell result 1 1 = Some (BGR 0 0 255)
    /\ cell result 3 3 = Some (BGR 255 255 255)
    /\ cell result 4 4 = Some Sample.black.
Proof.
  cbv zeta.
  destruct (preprocess_file_writes_transformed Fixture.lib "/scans/leaf.jpg"
              (State (with_red_scale 1 2 (with_mask 1 1 1 3 small_config))
                     small_disk)
              Sample.leaf_and_speck Sample.leaf_and_speck)
    as (result & Hrun & _ & Hcell);
    [closed|closed|closed|closed|closed
    |right; repeat split; closed|right; repeat split; closed|closed|].
  exists result. split; [exact Hrun|]. rewrite !Hcell.
  repeat split; vm_compute; reflexivity.
Defined.

Lemma preprocess_file_footprint_witness :
  let st := State (with_crop 9 small_config) small_disk in
  let st' := snd (EstimateLeafArea.preprocess_file Fixture.lib "/scans/leaf.jpg" st) in
  self st' = self st /\ disk st' = disk st.
Proof.
  cbv zeta.
  destruct (preprocess_file_footprint Fixture.lib "/scans/leaf.jpg"
              (State (with_crop 9 small_config) small_disk))
    as (Hself & _ & Hfail).
  split; [exact Hself|].
  apply (Hfail ltac:(closed) CropExceedsBounds). closed.
Defined.

Lemma empty_output_dir_writes_elsewhere_witness :
  let c := with_output EmptyString default_config in
  let st' := State c (<["leaf.jpg" := written Sample.leaf_and_speck]>
                        (<["/scans/preprocessed" := Directory]> small_disk)) in
  EstimateLeafArea.preprocess_file Fixture.lib "/scans/leaf.jpg" (State c small_disk)
  = (Ok tt, st')
  /\ EstimateLeafArea.preprocess_file Fixture.lib "/scans/leaf.jpg" st'
     = (Raise FileExistsError, st').
Proof.
  cbv zeta.
  destruct (empty_output_dir_writes_elsewhere Fixture.lib "/scans/leaf.jpg"
              (State (with_output EmptyString default_config) small_disk)
              Sample.leaf_and_speck) as (H1 & _ & H2); try closed.
  split; [exact H1|exact H2].
Defined.

Lemma red_scale_option_has_no_effect_witness :
  same_outcome
    (main_preprocess Fixture.lib abspath_of_absolute idle_pool "/tmp/t" 4
       sample_args (State default_config small_disk))
    (main_preprocess Fixture.lib abspath_of_absolute idle_pool "/tmp/t" 4
       (args_with_red_scale 0 sample_args) (State default_config small_disk)).
Proof.
  apply red_scale_option_has_no_effect; closed.
Defined.

Lemma mask_scale_option_masks_nothing_witness :
  same_outcome
    (main_preprocess Fixture.lib abspath_of_absolute idle_pool "/tmp/t" 4
       sample_args (State default_config small_disk))
    (main_preprocess Fixture.lib abspath_of_absolute idle_pool "/tmp/t" 4
       (args_with_mask_scale 0 sample_args) (State default_config small_disk)).
Proof.
  apply mask_scale_option_masks_nothing; closed.
Defined.

(** The command line of the example writes the scan cropped by one pixel,
    with neither window nor bar, although both options are given. *)
Example command_line_only_crops :
  let run := main_preprocess Fixture.lib abspath_of_absolute idle_pool "/tmp/t" 4
               sample_args (State default_config small_disk) in
  fst run = Ok tt
  /\ disk (snd run) !! "/new/leaf.jpg"
     = Some (written (Np.slice2 1 7 1 11 Sample.leaf_and_speck)).
Proof. cbv zeta. split; vm_compute; reflexivity. Qed.
